(** * PanLearning notebooks: wavelength scan on boron-doped diamond with D2B

    A shallow embedding of the Python cells of
    [wl_scan_on_CB_with_D2B/WL-dependent scattering of DFT-optimized CB
    systems.ipynb]: the HKL metadata reader [read_hkl], the parameter mapper
    [hkl_to_powdern_pms], the sample runner [run_on_sample], the two sweep
    cells (execute and replay) and the plotting function [plot_diffr].

    Conventions of the embedding.
    - [bytes] objects are [list byte]; [str] objects are [string].
    - A Python exception is a value of [exn]; code that can raise lives in
      the state-and-exception monad [M].
    - A finite Python float used as a wavelength or as a ray count is the
      rational it denotes ([Qc]); the floats parsed out of an HKL file are
      only passed on and never computed with, so their type is abstract.
    - McStas and McStasScript are collaborators: their entry points are
      section variables.  Calls on matplotlib are recorded, not performed.
    - Console output ([print]) and wall-clock timing are left out. *)

From Stdlib Require Import ZArith QArith Qcanon.
From Stdlib Require Import Strings.Ascii Strings.Byte DecimalString.
From stdpp Require Import gmap strings list fin_maps.

#[local] Set Warnings "-clear-no-such-hyp".

Local Open Scope string_scope.
Local Open Scope list_scope.

(** ** Exceptions and the state-and-exception monad *)

Inductive value_error :=
| SeekOutOfRange                       (* mmap.seek: "seek out of range" *)
| CannotMmapEmptyFile                  (* mmap.mmap on a file of length 0 *)
| CouldNotConvertToFloat (tok : list byte)
| EmbeddedNullByte.                    (* a NUL in a path or a command *)

Inductive exn :=
| FileNotFoundError (path : string)
| IsADirectoryError (path : string)
| NotADirectoryError (path : string)
| ValueError (why : value_error)
| IndexError                           (* list index out of range *)
| KeyError (key : string)
| UnboundLocalError (name : string)
| NameError (name : string)
| TypeError
| ExternalError (cls msg : string).    (* raised inside a collaborator *)

(** The name of the exception's class, as [type(e).__name__] gives it. *)
Definition exn_class (e : exn) : string :=
  match e with
  | FileNotFoundError _ => "FileNotFoundError"
  | IsADirectoryError _ => "IsADirectoryError"
  | NotADirectoryError _ => "NotADirectoryError"
  | ValueError _ => "ValueError"
  | IndexError => "IndexError"
  | KeyError _ => "KeyError"
  | UnboundLocalError _ => "UnboundLocalError"
  | NameError _ => "NameError"
  | TypeError => "TypeError"
  | ExternalError cls _ => cls
  end.

Definition M (S A : Type) : Type := S -> (exn + A) * S.

Definition ret {S A} (a : A) : M S A := fun s => (inr a, s).
Definition raise {S A} (e : exn) : M S A := fun s => (inl e, s).
Definition bind {S A B} (m : M S A) (k : A -> M S B) : M S B :=
  fun s => match m s with
           | (inl e, s') => (inl e, s')
           | (inr a, s') => k a s'
           end.

Declare Scope pyexec_scope.
Delimit Scope pyexec_scope with py.
Notation "x <- m ;; k" := (bind m (fun x => k))
  (at level 100, m at next level, k at level 200,
   right associativity, only parsing) : pyexec_scope.
Notation "m ;; k" := (bind m (fun _ => k))
  (at level 100, k at level 200, right associativity, only parsing)
  : pyexec_scope.
Local Open Scope pyexec_scope.

(** ** Byte strings *)

Definition encode (s : string) : list byte := String.list_byte_of_string s.

Definition newline : byte := x0a.

(** The ASCII whitespace of [bytes.strip] and [bytes.split]:
    space, [\t], [\n], [\r], [\x0b], [\x0c]. *)
Definition is_space (b : byte) : bool :=
  match b with
  | x09 | x0a | x0b | x0c | x0d | x20 => true
  | _ => false
  end.

Fixpoint lstrip (l : list byte) : list byte :=
  match l with
  | b :: l' => if is_space b then lstrip l' else l
  | [] => []
  end.

Definition rstrip (l : list byte) : list byte := rev (lstrip (rev l)).

(** [bytes.strip()] *)
Definition strip (l : list byte) : list byte := rstrip (lstrip l).

(** [bytes.split()]: the maximal runs of non-whitespace bytes. *)
Fixpoint split (l : list byte) : list (list byte) :=
  match l with
  | [] => []
  | b :: l' =>
      if is_space b then split l'
      else match l' with
           | [] => [[b]]
           | b' :: _ =>
               if is_space b' then [b] :: split l'
               else match split l' with
                    | t :: ts => (b :: t) :: ts
                    | [] => [[b]]
                    end
           end
  end.

(** [xs[i]] on a list. *)
Definition getitem {S A} (xs : list A) (i : nat) : M S A :=
  match xs !! i with
  | Some x => ret x
  | None => raise IndexError
  end.

(** [sub] is a prefix of [data]. *)
Fixpoint starts_with (sub data : list byte) : bool :=
  match sub, data with
  | [], _ => true
  | _ :: _, [] => false
  | a :: sub', b :: data' => Byte.eqb a b && starts_with sub' data'
  end.

(** Lowest index of an occurrence of [sub] in [data], where [data] is the
    part of the buffer that starts at index [i]. *)
Fixpoint find_at (sub data : list byte) (i : nat) : option nat :=
  if starts_with sub data then Some i
  else match data with
       | [] => None
       | _ :: data' => find_at sub data' (S i)
       end.

(** The bytes up to and including the first newline, or all of them. *)
Fixpoint read_line (data : list byte) : list byte :=
  match data with
  | [] => []
  | b :: data' => if Byte.eqb b newline then [b] else b :: read_line data'
  end.

(** ** The memory map

    [mmap.mmap(f.fileno(), 0)] over a file opened ["r+b"]: the whole file,
    with a current position.  [find] searches from the current position
    (CPython's [mmap_gfind] starts at [self->pos] when no [start] is given)
    and answers [-1] when there is no occurrence; [seek] refuses a position
    outside [0..size]; [readline] advances the position. *)
Module Mmap.

Record t := Make { buf : list byte; pos : nat }.

Definition mmap (content : list byte) : exn + t :=
  match content with
  | [] => inl (ValueError CannotMmapEmptyFile)
  | _ => inr (Make content 0)
  end.

Definition find (sub : list byte) : M t Z :=
  fun mm =>
    (inr match find_at sub (drop (pos mm) (buf mm)) (pos mm) with
         | Some i => Z.of_nat i
         | None => (-1)%Z
         end, mm).

Definition seek (where_ : Z) : M t unit :=
  fun mm =>
    if ((where_ <? 0) || (Z.of_nat (length (buf mm)) <? where_))%Z
    then (inl (ValueError SeekOutOfRange), mm)
    else (inr tt, Make (buf mm) (Z.to_nat where_)).

Definition readline : M t (list byte) :=
  fun mm =>
    let line := read_line (drop (pos mm) (buf mm)) in
    (inr line, Make (buf mm) (pos mm + length line)).

End Mmap.

(** ** The file system

    The file system as the program reaches it through the paths it spells:
    [files] gives the bytes of the regular file that a path names, [dirs]
    holds the paths that name a directory.  The process may read and write
    every file; permissions and symbolic links are not part of it. *)

Record disk := Disk {
  files : gmap string (list byte);     (* regular files and their bytes *)
  dirs : gset string                   (* directories *)
}.

(** A NUL character in a string: the system calls refuse it. *)
Definition has_nul (s : string) : bool :=
  existsb (Ascii.eqb Ascii.zero) (String.list_ascii_of_string s).

(** The paths that [p] lies below: what stands before each of its
    slashes. *)
Definition ancestors (p : string) : list string :=
  let cs := String.list_ascii_of_string p in
  omap (fun k => match cs !! k with
                 | Some c => if Ascii.eqb c "/"
                             then Some (String.string_of_list_ascii
                                          (take k cs))
                             else None
                 | None => None
                 end)
       (seq 0 (length cs)).

(** [p] lies below a regular file: no path can be opened there. *)
Definition below_a_file (d : disk) (p : string) : bool :=
  existsb (fun a => bool_decide (is_Some (files d !! a))) (ancestors p).

(** ** HKL metadata reader *)

Definition params : list string :=
  [ "sigma_coh"; "sigma_inc"; "sigma_abs"; "density"; "weight"; "Vc";
    "lattice_a"; "lattice_b"; "lattice_c"; "lattice_aa"; "lattice_bb";
    "lattice_cc" ].

Section Reader.

(** Values of Python's [float] as parsed from an HKL file, and the builtin
    [float] applied to a [bytes] token ([None]: it raises ValueError). *)
Context {F : Type}.
Variable float : list byte -> option F.

Definition float_of (tok : list byte) : M Mmap.t F :=
  match float tok with
  | Some x => ret x
  | None => raise (ValueError (CouldNotConvertToFloat tok))
  end.

(** One turn of the loop [for pm in params]. *)
Definition read_param (pm : string) (vals : gmap string F)
  : M Mmap.t (gmap string F) :=
  i <- Mmap.find (encode pm) ;;
  Mmap.seek i ;;
  line <- Mmap.readline ;;
  tok <- getitem (split (strip line)) 1 ;;
  x <- float_of tok ;;
  ret (<[pm := x]> vals).

Fixpoint read_params (pms : list string) (vals : gmap string F)
  : M Mmap.t (gmap string F) :=
  match pms with
  | [] => ret vals
  | pm :: pms' =>
      vals' <- read_param pm vals ;;
      read_params pms' vals'
  end.

(** [read_hkl(hkl_file)].  [open(hkl_file, "r+b")] raises ValueError on a
    path that holds a NUL, NotADirectoryError on a path below a regular
    file, IsADirectoryError on a directory and FileNotFoundError on a path
    that is not there; the files of the disk are regular files that the
    process may read and write.  Leaving the [with] blocks closes the map
    and the file, whether the body returned or raised: the bytes of the map
    are then the bytes of the file. *)
Definition read_hkl (hkl_file : string) : M disk (gmap string F) :=
  fun d =>
    match files d !! hkl_file with
    | None =>
        if has_nul hkl_file then (inl (ValueError EmbeddedNullByte), d)
        else if below_a_file d hkl_file
        then (inl (NotADirectoryError hkl_file), d)
        else if bool_decide (hkl_file ∈ dirs d)
        then (inl (IsADirectoryError hkl_file), d)
        else (inl (FileNotFoundError hkl_file), d)
    | Some content =>
        match Mmap.mmap content with
        | inl e => (inl e, d)
        | inr mm =>
            let '(r, mm') := read_params params ∅ mm in
            (r, Disk (<[hkl_file := Mmap.buf mm']> (files d)) (dirs d))
        end
    end.

(** ** Parameter mapper *)

(** The values of the PowderN parameter set: floats read from the file, the
    quoted path, the integer flag. *)
Inductive pm_value :=
| PmFloat (x : F)
| PmStr (s : string)
| PmInt (z : Z).

(** [d[k]] on a dict with string keys. *)
Definition dict_get {S A} (d : gmap string A) (k : string) : M S A :=
  match d !! k with
  | Some v => ret v
  | None => raise (KeyError k)
  end.

(** The one-character string holding a double quote. *)
Definition dquote : string := String (Ascii.ascii_of_nat 34) EmptyString.

(** [hkl_to_powdern_pms(hkl_file)]; the dict display inserts its items in
    the order written. *)
Definition hkl_to_powdern_pms (hkl_file : string)
  : M disk (gmap string pm_value) :=
  hkl_data <- read_hkl hkl_file ;;
  vc <- dict_get hkl_data "Vc" ;;
  density <- dict_get hkl_data "density" ;;
  weight <- dict_get hkl_data "weight" ;;
  sigma_abs <- dict_get hkl_data "sigma_abs" ;;
  sigma_inc <- dict_get hkl_data "sigma_inc" ;;
  ret (<["barns" := PmInt 1]>
       (<["reflections" := PmStr (dquote ++ hkl_file ++ dquote)]>
        (<["sigma_inc" := PmFloat sigma_inc]>
         (<["sigma_abs" := PmFloat sigma_abs]>
          (<["weight" := PmFloat weight]>
           (<["density" := PmFloat density]>
            (<["Vc" := PmFloat vc]> ∅))))))).

End Reader.

Arguments pm_value : clear implicits.

(** ** Field lines

    A field as the converter writes it: some text that does not yet hold
    the name, then [<name> <value> ...] up to the end of the line. *)
Record field_line := FieldLine {
  fl_gap : list byte;       (* text before the name, lines or a "# " *)
  fl_name : string;
  fl_sep : list byte;       (* blanks between name and value *)
  fl_value : list byte;
  fl_rest : list byte       (* what follows the value on the line *)
}.

Definition render (fl : field_line) : list byte :=
  fl_gap fl ++ encode (fl_name fl) ++ fl_sep fl ++ fl_value fl
  ++ fl_rest fl ++ [newline].

Definition nonempty {A} (l : list A) : bool :=
  match l with [] => false | _ => true end.
Definition no_space (l : list byte) : bool :=
  forallb (fun b => negb (is_space b)) l.
Definition all_space (l : list byte) : bool := forallb is_space l.
Definition no_newline (l : list byte) : bool :=
  forallb (fun b => negb (Byte.eqb b newline)) l.

(** The first occurrence of [sub] in [gap ++ sub] is the one at the end. *)
Definition first_at_end (sub gap : list byte) : bool :=
  match find_at sub (gap ++ sub) 0 with
  | Some i => Nat.eqb i (length gap)
  | None => false
  end.

Definition field_ok (fl : field_line) : bool :=
  first_at_end (encode (fl_name fl)) (fl_gap fl)
  && nonempty (encode (fl_name fl)) && no_space (encode (fl_name fl))
  && nonempty (fl_sep fl) && all_space (fl_sep fl) && no_newline (fl_sep fl)
  && nonempty (fl_value fl) && no_space (fl_value fl)
  && match fl_rest fl with [] => true | b :: _ => is_space b end
  && no_newline (fl_rest fl).

(** [r[k]] when the run returned the dict [r]. *)
Definition value_of {A} (r : exn + gmap string A) (k : string) : option A :=
  match r with
  | inr vals => vals !! k
  | inl _ => None
  end.

(** A dict filled by successive item assignments. *)
Definition fill {A} (vals : gmap string A) (items : list (string * A))
  : gmap string A :=
  foldl (fun m kv => <[kv.1 := kv.2]> m) vals items.

(** An operation on the map that leaves its bytes alone. *)
Definition keeps_buf {A} (m : M Mmap.t A) : Prop :=
  forall mm, Mmap.buf (m mm).2 = Mmap.buf mm.

(** The exceptions the body of [read_hkl] can raise once the file is open. *)
Definition reader_error (e : exn) : Prop :=
  e = IndexError \/ exists why, e = ValueError why.

(** ** Wavelengths and the output-folder name *)

(** The integer nearest to [n / d] for [0 <= n], ties going to the even one:
    the rounding of Python's float formatting, applied to the exact value. *)
Definition round_half_even (n : Z) (d : positive) : Z :=
  let fl := (n / Z.pos d)%Z in
  let r2 := (2 * (n mod Z.pos d))%Z in
  if (r2 <? Z.pos d)%Z then fl
  else if (Z.pos d <? r2)%Z then (fl + 1)%Z
  else if Z.even fl then fl else (fl + 1)%Z.

Definition decimal (z : Z) : string :=
  NilZero.string_of_uint (N.to_uint (Z.to_N z)).

(** [f"{x:.1f}"] for a finite float [x]. *)
Definition format_1f (x : Qc) : string :=
  let tenths := round_half_even (Z.abs (Qnum (this x)) * 10) (Qden (this x)) in
  (if (Qnum (this x) <? 0)%Z then "-" else "")
  ++ decimal (tenths / 10) ++ "." ++ decimal (tenths mod 10).

(** The configuration variables of the notebook's setup cells. *)
Record config := Config {
  output_folder : string;
  prefix : string;
  postfix : string;
  run_simulation : bool;
  instrument_name : string;
  mpi : Z;
  ncount : Qc;
  lambda0s : list Qc;
  colors : list string;
  crystal_hkls : list (string * string)  (* a dict, in insertion order *)
}.

(** [f"{output_folder}/{prefix}_{lambda0:.1f}_{sample_name}"], in
    [run_on_sample]. *)
Definition foldername (cfg : config) (lambda0 : Qc) (sample_name : string)
  : string :=
  output_folder cfg ++ "/" ++ prefix cfg ++ "_" ++ format_1f lambda0
  ++ "_" ++ sample_name.

(** [f"{output_folder}/{prefix}_{lambda0:.1f}_{crys}{postfix}"], in the
    replay cell. *)
Definition replay_folder (cfg : config) (lambda0 : Qc) (crys : string)
  : string :=
  output_folder cfg ++ "/" ++ prefix cfg ++ "_" ++ format_1f lambda0
  ++ "_" ++ crys ++ postfix cfg.

(** The Sweep Points of a configuration, wavelengths outermost. *)
Definition sweep_points (cfg : config) : list (Qc * string) :=
  l ← lambda0s cfg; (fun c => (l, c)) <$> (crystal_hkls cfg).*1.

(** The same configuration in the other mode, or with another postfix. *)
Definition set_run_simulation (b : bool) (cfg : config) : config :=
  {| output_folder := output_folder cfg; prefix := prefix cfg;
     postfix := postfix cfg; run_simulation := b;
     instrument_name := instrument_name cfg; mpi := mpi cfg;
     ncount := ncount cfg; lambda0s := lambda0s cfg; colors := colors cfg;
     crystal_hkls := crystal_hkls cfg |}.


(** The values the notebook gives its configuration. *)
Definition notebook_config : config :=
  {| output_folder := "./results";
     prefix := "d2b_test";
     postfix := "";
     run_simulation := true;
     instrument_name := "D2B_BananaTheta";
     mpi := 1;
     ncount := Q2Qc 10000000;
     lambda0s := [Q2Qc 1; Q2Qc (3 # 2); Q2Qc 2; Q2Qc (5 # 2)];
     colors := ["royalblue"; "olivedrab"; "red"; "green"; "pink"];
     crystal_hkls :=
       [ ("c16", "./hkl/c16.hkl"); ("c15b1", "./hkl/c15b1.hkl");
         ("c14b2a", "./hkl/c14b2a.hkl"); ("c14b2b", "./hkl/c14b2b.hkl");
         ("c14b2c", "./hkl/c14b2c.hkl") ] |}.

(** ** Sample runner and sweep orchestrator *)

Inductive sim_param :=
| SpFloat (x : Qc)
| SpInt (z : Z).

(** The keyword arguments of [instrument.run_full_instrument]. *)
Record request := Request {
  rq_foldername : string;
  rq_increment_folder_name : bool;
  rq_ncount : Qc;
  rq_mpi : Z;
  rq_parameters : list (string * sim_param)
}.

(** What the run asked of its collaborators, in order. *)
Inductive event :=
| EvRunOnSample (sample_name hkl_file : string) (lambda0 ncount : Qc) (mpi : Z)
| EvRunFullInstrument (rq : request).

Section Sweep.

Context {F Data : Type}.
Variable float : list byte -> option F.

(** [os.makedirs]: what it raises ([FileNotFoundError] on an empty path,
    [NotADirectoryError] below a regular file, [PermissionError], ...) and
    what it leaves on the disk are the operating system's. *)
Variable makedirs : string -> M disk unit.

(** McStasScript: the simulator, given the request, the parameters of the
    Sample component and the disk; and the loader of a written folder. *)
Variable run_full_instrument :
  request -> gmap string (pm_value F) -> M disk Data.
Variable load_data : string -> disk -> exn + Data.

Record world := World {
  w_disk : disk;
  w_sample : gmap string (pm_value F);   (* parameters of "Sample" *)
  w_log : list event
}.

Definition lift_disk {A} (m : M disk A) : M world A :=
  fun w => let '(r, d) := m (w_disk w) in
           (r, World d (w_sample w) (w_log w)).

Definition log (ev : event) : M world unit :=
  fun w => (inr tt, World (w_disk w) (w_sample w) (w_log w ++ [ev])).

(** [os.path.exists] *)
Definition path_exists (p : string) : M disk bool :=
  fun d => (inr (bool_decide (p ∈ dirs d)
                 || bool_decide (is_Some (files d !! p))), d).

(** [instrument.get_component("Sample").set_parameters(pms)]: the
    parameters given replace those of the same name. *)
Definition set_parameters (pms : gmap string (pm_value F)) : M world unit :=
  fun w => (inr tt, World (w_disk w) (pms ∪ w_sample w) (w_log w)).

Definition simulate (rq : request) : M world Data :=
  log (EvRunFullInstrument rq) ;;
  fun w => let '(r, d) := run_full_instrument rq (w_sample w) (w_disk w) in
           (r, World d (w_sample w) (w_log w)).

Definition run_on_sample (cfg : config) (sample_name hkl_file : string)
    (lambda0 ncount : Qc) (mpi : Z) : M world Data :=
  log (EvRunOnSample sample_name hkl_file lambda0 ncount mpi) ;;
  ex <- lift_disk (path_exists (output_folder cfg)) ;;
  (if ex then ret tt else lift_disk (makedirs (output_folder cfg))) ;;
  pms <- lift_disk (hkl_to_powdern_pms float hkl_file) ;;
  set_parameters pms ;;
  data <- simulate
    {| rq_foldername := foldername cfg lambda0 sample_name;
       rq_increment_folder_name := true;
       rq_ncount := ncount;
       rq_mpi := mpi;
       rq_parameters :=
         [ ("lambda", SpFloat lambda0); ("RV", SpInt (-1));
           ("verbose", SpInt 1) ] |} ;;
  ret data.

(** [results[lambda0][crys] = data] *)
Definition store_result {S} (results : gmap Qc (gmap string Data))
    (lambda0 : Qc) (crys : string) (data : Data)
  : M S (gmap Qc (gmap string Data)) :=
  match results !! lambda0 with
  | Some inner => ret (<[lambda0 := <[crys := data]> inner]> results)
  | None => raise (KeyError (format_1f lambda0))
  end.

(** The execute cell; its [print] calls and timers are left out. *)
Fixpoint execute_samples (cfg : config) (lambda0 : Qc)
    (items : list (string * string)) (results : gmap Qc (gmap string Data))
  : M world (gmap Qc (gmap string Data)) :=
  match items with
  | [] => ret results
  | (crys, hkl) :: items' =>
      data <- run_on_sample cfg crys hkl lambda0 (ncount cfg) (mpi cfg) ;;
      results' <- store_result results lambda0 crys data ;;
      execute_samples cfg lambda0 items' results'
  end.

Fixpoint execute_wavelengths (cfg : config) (ls : list Qc)
    (results : gmap Qc (gmap string Data))
  : M world (gmap Qc (gmap string Data)) :=
  match ls with
  | [] => ret results
  | lambda0 :: ls' =>
      results' <- execute_samples cfg lambda0 (crystal_hkls cfg)
                    (<[lambda0 := ∅]> results) ;;
      execute_wavelengths cfg ls' results'
  end.

Definition execute (cfg : config) : M world (gmap Qc (gmap string Data)) :=
  execute_wavelengths cfg (lambda0s cfg) ∅.

(** The replay cell; its [print] call is left out. *)
Definition load (folder : string) : M world Data :=
  fun w => (load_data folder (w_disk w), w).

Fixpoint replay_samples (cfg : config) (lambda0 : Qc)
    (keys : list string) (results : gmap Qc (gmap string Data))
  : M world (gmap Qc (gmap string Data)) :=
  match keys with
  | [] => ret results
  | crys :: keys' =>
      data <- load (replay_folder cfg lambda0 crys) ;;
      results' <- store_result results lambda0 crys data ;;
      replay_samples cfg lambda0 keys' results'
  end.

Fixpoint replay_wavelengths (cfg : config) (ls : list Qc)
    (results : gmap Qc (gmap string Data))
  : M world (gmap Qc (gmap string Data)) :=
  match ls with
  | [] => ret results
  | lambda0 :: ls' =>
      results' <- replay_samples cfg lambda0 (crystal_hkls cfg).*1
                    (<[lambda0 := ∅]> results) ;;
      replay_wavelengths cfg ls' results'
  end.

Definition replay (cfg : config) : M world (gmap Qc (gmap string Data)) :=
  replay_wavelengths cfg (lambda0s cfg) ∅.

(** The two cells are guarded by [run_simulation] and its negation. *)
Definition sweep (cfg : config) : M world (gmap Qc (gmap string Data)) :=
  if run_simulation cfg then execute cfg else replay cfg.

(** The (wavelength, sample) keys of a Result Collection. *)
Definition result_keys (results : gmap Qc (gmap string Data))
  : gset (Qc * string) :=
  list_to_set
    (p ← map_to_list results; (fun c => (p.1, c)) <$> elements (dom p.2)).

Definition runner_calls (evs : list event) : list (Qc * string) :=
  omap (fun ev => match ev with
                  | EvRunOnSample s _ l _ _ => Some (l, s)
                  | _ => None
                  end) evs.

Definition requested_folders (evs : list event) : list string :=
  omap (fun ev => match ev with
                  | EvRunFullInstrument rq => Some (rq_foldername rq)
                  | _ => None
                  end) evs.

End Sweep.

(** ** Comparison plotter *)

(** The fields of a McStasScript data object that [plot_diffr] reads. *)
Record pattern := Pattern {
  component_name : string;
  xlabel : string;
  ylabel : string;
  limits : list Qc;
  Intensity : list Qc;
  Ncount : list Qc;
  Error : list Qc;
  xaxis : list Qc
}.

Section Plot.

Context {Data : Type}.

(** [functions.name_search] of McStasScript. *)
Variable name_search : string -> Data -> exn + pattern.

(** The objects that the names of the plotting code are bound to. *)
#[warning="-register-all"] Inductive pyval :=
| VFloat (x : Qc)
| VInt (z : Z)
| VStr (s : string)
| VSeq (xs : list pyval)
| VArray (xs : list Qc)
| VResults (r : gmap Qc (gmap string Data))
| VData (d : Data)
| VPattern (p : pattern)
| VFigure
| VAxes.

(** Calls made on matplotlib, in order. *)
Inductive plot_call :=
| CallSubplots
| CallPlot (xvals y color label : pyval)
| CallFillBetween (xvals y color : pyval)
| CallSetXlim
| CallSetYlim
| CallSetYscale
| CallSetXlabel
| CallSetYlabel (label : pyval)
| CallGrid
| CallSuptitle (wavelength : string)
| CallLegend
| CallShow.

(** The module's namespace, the namespace of the running function, and
    what was drawn. *)
Record frame := Frame {
  fr_globals : gmap string pyval;
  fr_locals : gmap string pyval;
  fr_canvas : list plot_call
}.

(** Name resolution in a function body whose local names are [scope]: a
    name the body binds, and does not declare [global], is local to it. *)
Definition load_name (scope : gset string) (x : string) : M frame pyval :=
  fun fr =>
    if decide (x ∈ scope) then
      match fr_locals fr !! x with
      | Some v => (inr v, fr)
      | None => (inl (UnboundLocalError x), fr)
      end
    else
      match fr_globals fr !! x with
      | Some v => (inr v, fr)
      | None => (inl (NameError x), fr)
      end.

Definition store_name (scope : gset string) (x : string) (v : pyval)
  : M frame unit :=
  fun fr =>
    if decide (x ∈ scope)
    then (inr tt, Frame (fr_globals fr) (<[x := v]> (fr_locals fr))
                    (fr_canvas fr))
    else (inr tt, Frame (<[x := v]> (fr_globals fr)) (fr_locals fr)
                    (fr_canvas fr)).

Definition draw (c : plot_call) : M frame unit :=
  fun fr => (inr tt, Frame (fr_globals fr) (fr_locals fr)
                       (fr_canvas fr ++ [c])).

Definition of_result {A} (r : exn + A) : M frame A :=
  fun fr => (r, fr).

(** The names bound in the body of [plot_diffr]: its parameter, its loop
    targets and its assignment targets.  The body has no [global]
    statement. *)
Definition plot_diffr_locals : gset string :=
  list_to_set
    [ "crystals_to_plot"; "lambda0"; "fig"; "ax"; "i"; "crys"; "data";
      "pattern"; "name"; "xlabel"; "ylabel"; "xlims"; "intensity";
      "ncount"; "error"; "xvals"; "y" ].

Definition ld := load_name plot_diffr_locals.
Definition st := store_name plot_diffr_locals.

(** [results[lambda0][crys]] *)
Definition subscript2 (results lambda0 crys : pyval) : exn + pyval :=
  match results, lambda0, crys with
  | VResults r, VFloat l, VStr c =>
      match r !! l with
      | Some inner =>
          match inner !! c with
          | Some d => inr (VData d)
          | None => inl (KeyError c)
          end
      | None => inl (KeyError (format_1f l))
      end
  | _, _, _ => inl TypeError
  end.

(** [colors[i]]; a negative index counts from the end. *)
Definition subscript (xs i : pyval) : exn + pyval :=
  match xs, i with
  | VSeq l, VInt z =>
      let j := (if z <? 0 then Z.of_nat (length l) + z else z)%Z in
      if (j <? 0)%Z then inl IndexError
      else match l !! Z.to_nat j with
           | Some v => inr v
           | None => inl IndexError
           end
  | _, _ => inl TypeError
  end.

Definition call_name_search (iname data : pyval) : exn + pattern :=
  match iname, data with
  | VStr n, VData d => name_search n d
  | _, _ => inl TypeError
  end.

(** One turn of [for i, crys in enumerate(crystals_to_plot)]. *)
Definition plot_sample (i : nat) (crys : pyval) : M frame unit :=
  st "i" (VInt (Z.of_nat i)) ;;
  st "crys" crys ;;
  results <- ld "results" ;;
  lambda0 <- ld "lambda0" ;;
  crys <- ld "crys" ;;
  data <- of_result (subscript2 results lambda0 crys) ;;
  st "data" data ;;
  iname <- ld "instrument_name" ;;
  data <- ld "data" ;;
  p <- of_result (call_name_search iname data) ;;
  st "pattern" (VPattern p) ;;
  st "name" (VStr (component_name p)) ;;
  st "xlabel" (VStr (xlabel p)) ;;
  st "ylabel" (VStr (ylabel p)) ;;
  st "xlims" (VArray (limits p)) ;;
  st "intensity" (VArray (Intensity p)) ;;
  st "ncount" (VArray (Ncount p)) ;;
  st "error" (VArray (Error p)) ;;
  st "xvals" (VArray (xaxis p)) ;;
  intensity <- ld "intensity" ;;
  st "y" intensity ;;
  xvals <- ld "xvals" ;;
  y <- ld "y" ;;
  cols <- ld "colors" ;;
  i <- ld "i" ;;
  color <- of_result (subscript cols i) ;;
  crys <- ld "crys" ;;
  draw (CallPlot xvals y color crys) ;;
  draw (CallFillBetween xvals y color).

Fixpoint plot_samples (i : nat) (cs : list pyval) : M frame unit :=
  match cs with
  | [] => ret tt
  | c :: cs' => plot_sample i c ;; plot_samples (S i) cs'
  end.

Definition as_seq (v : pyval) : exn + list pyval :=
  match v with
  | VSeq l => inr l
  | _ => inl TypeError
  end.

Definition as_float (v : pyval) : exn + Qc :=
  match v with
  | VFloat x => inr x
  | _ => inl TypeError
  end.

(** One turn of [for lambda0 in lambda0s]. *)
Definition plot_wavelength (lambda0 : pyval) : M frame unit :=
  st "lambda0" lambda0 ;;
  draw CallSubplots ;;
  st "fig" VFigure ;;
  st "ax" VAxes ;;
  cs <- ld "crystals_to_plot" ;;
  cs <- of_result (as_seq cs) ;;
  plot_samples 0 cs ;;
  draw CallSetXlim ;;
  draw CallSetYlim ;;
  draw CallSetYscale ;;
  draw CallSetXlabel ;;
  yl <- ld "ylabel" ;;
  draw (CallSetYlabel yl) ;;
  draw CallGrid ;;
  l <- ld "lambda0" ;;
  l <- of_result (as_float l) ;;
  draw (CallSuptitle (format_1f l)) ;;
  draw CallLegend ;;
  draw CallShow.

Fixpoint plot_wavelengths (ls : list pyval) : M frame unit :=
  match ls with
  | [] => ret tt
  | l :: ls' => plot_wavelength l ;; plot_wavelengths ls'
  end.

Definition plot_diffr_body : M frame unit :=
  ls <- ld "lambda0s" ;;
  ls <- of_result (as_seq ls) ;;
  plot_wavelengths ls.

(** [plot_diffr(crystals_to_plot)]: the body runs in a fresh local
    namespace holding the argument; the namespace is gone on return. *)
Definition plot_diffr (crystals_to_plot : list string) : M frame unit :=
  fun fr =>
    let '(r, fr') :=
      plot_diffr_body
        (Frame (fr_globals fr)
               {[ "crystals_to_plot" := VSeq (VStr <$> crystals_to_plot) ]}
               (fr_canvas fr)) in
    (r, Frame (fr_globals fr') (fr_locals fr) (fr_canvas fr')).

End Plot.

Arguments pyval : clear implicits.
Arguments plot_call : clear implicits.
Arguments frame : clear implicits.
Arguments world : clear implicits.

(** A step of the plotting code that leaves the module's names alone. *)
Definition keeps_globals {Data A} (m : M (frame Data) A) : Prop :=
  forall fr, fr_globals (m fr).2 = fr_globals fr.

(** [os.path.exists] answers True for the path. *)
Definition exists_on (d : disk) (p : string) : Prop :=
  p ∈ dirs d \/ is_Some (files d !! p).

(** What the sweep expects of its collaborators as to folders: a simulator
    run that returns leaves the folder it was asked for in place, and
    neither a run nor [os.makedirs] removes a path. *)
Definition keeps_folders {F Data} (makedirs : string -> M disk unit)
    (run_full_instrument :
       request -> gmap string (pm_value F) -> M disk Data) : Prop :=
  (forall rq sample d data d',
     run_full_instrument rq sample d = (inr data, d') ->
     exists_on d' (rq_foldername rq))
  /\ (forall rq sample d r d' p,
        run_full_instrument rq sample d = (r, d') ->
        exists_on d p -> exists_on d' p)
  /\ (forall p d r d' q,
        makedirs p d = (r, d') -> exists_on d q -> exists_on d' q).

(** The loader can read [folder] from the disk. *)
Definition readable {Data} (load_data : string -> disk -> exn + Data)
    (d : disk) (folder : string) : Prop :=
  exists data, load_data folder d = inr data.

(** ** Sample inputs *)

(** A float stand-in that keeps the token it was given: enough to see which
    token of the file each name is bound to. *)
Definition token_float (tok : list byte) : option string :=
  Some (String.string_of_list_byte tok).

(** A header as cif2hkl writes it: ["# <name> <value> <comment>"] lines in
    the order of [params]. *)
Definition header_line (name value rest : string) : field_line :=
  FieldLine (encode "# ") name (encode "   ") (encode value) (encode rest).

Definition demo_fields : list field_line :=
  [ header_line "sigma_coh" "5.551" " coherent cross section [barn]";
    header_line "sigma_inc" "0.001" "";
    header_line "sigma_abs" "0.1720" "   # comment";
    header_line "density" "3.515" " [g/cm^3]";
    header_line "weight" "12.011" "";
    header_line "Vc" "45.38" " [AA^3]";
    header_line "lattice_a" "3.567" "";
    header_line "lattice_b" "3.568" "";
    header_line "lattice_c" "3.569" "";
    header_line "lattice_aa" "90.0" "";
    header_line "lattice_bb" "91.0" "";
    header_line "lattice_cc" "92.0" "" ].

Definition demo_values : list string :=
  [ "5.551"; "0.001"; "0.1720"; "3.515"; "12.011"; "45.38"; "3.567";
    "3.568"; "3.569"; "90.0"; "91.0"; "92.0" ].

Definition demo_trailer : list byte := encode "1 1 1  8  2.0594 12.3
".

Definition demo_disk : disk :=
  Disk {[ "c16.hkl" := mjoin (render <$> demo_fields) ++ demo_trailer ]} ∅.

(** The same twelve lines, with the [lattice_aa] line moved in front of the
    [lattice_a] line. *)
Definition plain_line (name value : string) : field_line :=
  FieldLine [] name (encode " ") (encode value) [].

Definition shuffled_fields : list field_line :=
  [ plain_line "sigma_coh" "5.551"; plain_line "sigma_inc" "0.001";
    plain_line "sigma_abs" "0.1720"; plain_line "density" "3.515";
    plain_line "weight" "12.011"; plain_line "Vc" "45.38";
    plain_line "lattice_aa" "90.0";
    plain_line "lattice_a" "3.567"; plain_line "lattice_b" "3.568";
    plain_line "lattice_c" "3.569";
    plain_line "lattice_bb" "91.0"; plain_line "lattice_cc" "92.0" ].

Definition shuffled_disk : disk :=
  Disk {[ "c16.hkl" := mjoin (render <$> shuffled_fields) ]} ∅.

(** The demo header without its [sigma_abs] line. *)
Definition lacking_disk : disk :=
  Disk {[ "c16.hkl" :=
            mjoin (render <$> (take 2 demo_fields ++ drop 3 demo_fields))
            ++ demo_trailer ]} ∅.

(** A configuration with two wavelengths a thirty-second apart. *)
Definition close_config : config :=
  {| output_folder := "./results";
     prefix := "d2b_test";
     postfix := "";
     run_simulation := true;
     instrument_name := "D2B_BananaTheta";
     mpi := 1;
     ncount := Q2Qc 10000000;
     lambda0s := [Q2Qc 1; Q2Qc (33 # 32)];
     colors := ["royalblue"];
     crystal_hkls := [("c16", "./hkl/c16.hkl")] |}.

(** A simulator that writes the folder it is asked for, or the folder with
    [_0] appended when that one exists, and hands back the name written; a
    loader that reads a folder when it is there. *)
Definition demo_simulator (rq : request)
    (sample : gmap string (pm_value string)) : M disk string :=
  fun d =>
    let written :=
      if bool_decide (rq_foldername rq ∈ dirs d)
      then (rq_foldername rq ++ "_0")%string
      else rq_foldername rq in
    (inr written, Disk (files d) ({[written]} ∪ dirs d)).

(** An operating system that makes the directory, unless the path is
    empty. *)
Definition demo_makedirs (p : string) : M disk unit :=
  fun d =>
    if String.eqb p ""
    then (inl (FileNotFoundError p), d)
    else (inr tt, Disk (files d) ({[p]} ∪ dirs d)).

Definition demo_loader (folder : string) (d : disk) : exn + string :=
  if bool_decide (folder ∈ dirs d) then inr folder
  else inl (ExternalError "NameError" "Given data directory does not exist.").

(** Collaborators in the manner of McStasScript.  [run_full_instrument]
    writes to the folder asked for; when that is a directory already, it
    refuses unless [increment_folder_name] is set, and then writes to the
    first of [<folder>_0], [<folder>_1], ... that is none.  What it writes
    is a folder with an [mccode.sim]; [load_data] wants a directory with
    an [mccode.sim] in it.  The dataset is stood for by the name of its
    folder. *)
Fixpoint next_free (d : disk) (folder : string) (n fuel : nat) : string :=
  let name := (folder ++ "_" ++ decimal (Z.of_nat n))%string in
  match fuel with
  | 0 => name
  | S fuel' =>
      if bool_decide (name ∈ dirs d)
      then next_free d folder (S n) fuel'
      else name
  end.

Definition mcstas_simulator (rq : request)
    (sample : gmap string (pm_value string)) : M disk string :=
  fun d =>
    if bool_decide (rq_foldername rq ∈ dirs d)
       && negb (rq_increment_folder_name rq)
    then (inl (ExternalError "NameError" "Folder name already exists."), d)
    else
      let written :=
        if bool_decide (rq_foldername rq ∈ dirs d)
        then next_free d (rq_foldername rq) 0 (size (dirs d))
        else rq_foldername rq in
      (inr written,
       Disk (<[(written ++ "/mccode.sim")%string := encode "begin instrument"]>
               (files d))
            ({[written]} ∪ dirs d)).

Definition mcstas_loader (folder : string) (d : disk) : exn + string :=
  if bool_decide (folder ∈ dirs d) then
    match files d !! (folder ++ "/mccode.sim")%string with
    | Some _ => inr folder
    | None => inl (ExternalError "NameError" "No mccode.sim in data folder.")
    end
  else inl (ExternalError "NameError" "Given data directory does not exist.").

Definition example_config : config :=
  {| output_folder := "./results";
     prefix := "prefix";
     postfix := "";
     run_simulation := true;
     instrument_name := "D2B_BananaTheta";
     mpi := 1;
     ncount := Q2Qc 10000000;
     lambda0s := [Q2Qc 1; Q2Qc (3 # 2)];
     colors := ["royalblue"; "olivedrab"];
     crystal_hkls := [("a", "a.hkl"); ("b", "b.hkl")] |}.

Definition example_world : world string :=
  World
    (Disk {[ "a.hkl" := mjoin (render <$> demo_fields) ++ demo_trailer;
             "b.hkl" := mjoin (render <$> demo_fields) ++ demo_trailer ]} ∅)
    ∅ [].

(** The world after the example sweep has run in execute mode. *)
Definition example_world_after : world string :=
  (sweep token_float demo_makedirs demo_simulator demo_loader example_config
         example_world).2.

(** The example world after an earlier run was given up: the folder of the
    first Sweep Point is there, with nothing in it. *)
Definition stale_world : world string :=
  World
    (Disk {[ "a.hkl" := mjoin (render <$> demo_fields) ++ demo_trailer;
             "b.hkl" := mjoin (render <$> demo_fields) ++ demo_trailer ]}
          {[ "./results"; "./results/prefix_1.0_a" ]})
    ∅ [].

Definition stale_world_after : world string :=
  (sweep token_float demo_makedirs mcstas_simulator mcstas_loader
         example_config stale_world).2.

(** A disk with one file and one directory. *)
Definition open_disk : disk :=
  Disk {[ "a.hkl" := encode "x" ]} {[ "dd" ]}.

(** A header whose [sigma_abs] line comes first: the line of the claim, and
    then the other eleven fields in the reader's order. *)
Definition comment_first_disk : disk :=
  Disk {[ "c16.hkl" :=
            encode "sigma_abs   0.1720   # comment" ++ [newline]
            ++ mjoin (render <$> (take 2 demo_fields ++ drop 3 demo_fields))
            ++ demo_trailer ]} ∅.

(** A loader that answers an empty dataset for any folder. *)
Definition lenient_loader (folder : string) (d : disk) : exn + string :=
  inr "".

Definition demo_pattern : pattern :=
  {| component_name := "D2B_BananaTheta";
     xlabel := "Longitude [deg]";
     ylabel := "Intensity [n/s/bin]";
     limits := [Q2Qc 5; Q2Qc 165];
     Intensity := [Q2Qc 12; Q2Qc 340];
     Ncount := [Q2Qc 5; Q2Qc 7];
     Error := [Q2Qc 1; Q2Qc 2];
     xaxis := [Q2Qc 20; Q2Qc 21] |}.

(** The module's names before the first call of [plot_diffr]; a dataset is
    stood for by the pattern [name_search] finds in it. *)
Definition demo_frame : frame pattern :=
  Frame
    {[ "ncount" := VFloat (Q2Qc 10000000);
       "lambda0s" := VSeq [VFloat (Q2Qc 1)];
       "results" := VResults {[ Q2Qc 1 := {[ "c16" := demo_pattern ]} ]};
       "instrument_name" := VStr "D2B_BananaTheta";
       "colors" := VSeq [VStr "royalblue"; VStr "olivedrab"] ]}
    ∅ [].

Definition demo_name_search (name : string) (data : pattern) : exn + pattern :=
  inr data.

(** ** Converting the structures

    The cell that turns each CIF file into an HKL file with cif2hkl.  The
    functions of [os.path] are those of [posixpath]. *)

(** [s.rfind(c)] for a single character: the highest index, if any. *)
Fixpoint rfind (c : ascii) (s : list ascii) : option nat :=
  match s with
  | [] => None
  | a :: s' =>
      match rfind c s' with
      | Some i => Some (S i)
      | None => if Ascii.eqb a c then Some 0 else None
      end
  end.

(** The index as Python gives it, [-1] for no occurrence. *)
Definition index_of (o : option nat) : Z :=
  match o with
  | Some i => Z.of_nat i
  | None => (-1)%Z
  end.

(** [os.path.basename(p)]: [p[p.rfind('/') + 1:]]. *)
Definition basename (p : string) : string :=
  let cs := String.list_ascii_of_string p in
  String.string_of_list_ascii
    (drop (Z.to_nat (index_of (rfind "/" cs) + 1)) cs).

(** [os.path.splitext(p)]: the extension starts at the last dot, when that
    dot comes after the last slash and after a character of the file name
    that is not a dot. *)
Definition splitext (p : string) : string * string :=
  let cs := String.list_ascii_of_string p in
  let sep_index := index_of (rfind "/" cs) in
  let dot_index := index_of (rfind "." cs) in
  if (sep_index <? dot_index)%Z then
    let filename_index := Z.to_nat (sep_index + 1) in
    if existsb (fun c => negb (Ascii.eqb c "."))
         (take (Z.to_nat dot_index - filename_index)
               (drop filename_index cs))
    then (String.string_of_list_ascii (take (Z.to_nat dot_index) cs),
          String.string_of_list_ascii (drop (Z.to_nat dot_index) cs))
    else (p, "")
  else (p, "").

(** [os.path.join(a, b)] *)
Definition path_join (a b : string) : string :=
  if match String.list_ascii_of_string b with
     | c :: _ => Ascii.eqb c "/"
     | [] => false
     end
  then b
  else match last (String.list_ascii_of_string a) with
       | None => b
       | Some c => if Ascii.eqb c "/" then a ++ b else a ++ "/" ++ b
       end.

(** [os.path.join(hkl_folder,
     os.path.splitext(os.path.basename(cif))[0] + ".hkl")] *)
Definition hkl_file_of (hkl_folder cif : string) : string :=
  path_join hkl_folder ((splitext (basename cif)).1 ++ ".hkl").

(** [f"{path_to_cif2hkl} --powder -o {hkl_file} {cif}"] *)
Definition cif2hkl_command (path_to_cif2hkl hkl_file cif : string) : string :=
  path_to_cif2hkl ++ " --powder -o " ++ hkl_file ++ " " ++ cif.

(** [d[k] = v] on a dict kept in insertion order. *)
Fixpoint dict_set (d : list (string * string)) (k v : string)
  : list (string * string) :=
  match d with
  | [] => [(k, v)]
  | (k', v') :: d' =>
      if String.eqb k' k then (k', v) :: d' else (k', v') :: dict_set d' k v
  end.

(** The disk and the commands handed to the shell, in order. *)
Record shell := Shell {
  sh_disk : disk;
  sh_commands : list string
}.

Section Convert.

(** The shell: the exit status of a command and what it did to the disk;
    and [os.makedirs], as in the sweep. *)
Variable system : string -> disk -> Z * disk.
Variable makedirs : string -> M disk unit.

(** [os.system]: it raises ValueError on a command that holds a NUL, and
    on no other; a failing command is a status. *)
Definition os_system (cmd : string) : M shell Z :=
  fun s =>
    if has_nul cmd then (inl (ValueError EmbeddedNullByte), s)
    else let '(status, d) := system cmd (sh_disk s) in
         (inr status, Shell d (sh_commands s ++ [cmd])).

Definition on_disk {A} (m : M disk A) : M shell A :=
  fun s => let '(r, d) := m (sh_disk s) in (r, Shell d (sh_commands s)).

(** [if not os.path.exists(p): os.makedirs(p)] *)
Definition ensure_folder (p : string) : M shell unit :=
  ex <- on_disk (path_exists p) ;;
  if ex then ret tt else on_disk (makedirs p).

(** The loop [for name, cif in crystal_cifs.items()]; the exit status of
    the converter is dropped. *)
Fixpoint convert_items (path_to_cif2hkl hkl_folder : string)
    (items crystal_hkls : list (string * string))
  : M shell (list (string * string)) :=
  match items with
  | [] => ret crystal_hkls
  | (name, cif) :: items' =>
      let hkl_fname := ((splitext (basename cif)).1 ++ ".hkl")%string in
      let hkl_file := path_join hkl_folder hkl_fname in
      ensure_folder hkl_folder ;;
      os_system (cif2hkl_command path_to_cif2hkl hkl_file cif) ;;
      convert_items path_to_cif2hkl hkl_folder items'
        (dict_set crystal_hkls name hkl_file)
  end.

Definition convert_structures (path_to_cif2hkl hkl_folder : string)
    (crystal_cifs : list (string * string))
  : M shell (list (string * string)) :=
  ensure_folder hkl_folder ;;
  convert_items path_to_cif2hkl hkl_folder crystal_cifs [].

End Convert.

(** The structures the notebook names. *)
Definition notebook_crystal_cifs : list (string * string) :=
  [ ("c16", "cifs/c16.cif"); ("c15b1", "cifs/c15b1.cif");
    ("c14b2a", "cifs/c14b2a.cif"); ("c14b2b", "cifs/c14b2b.cif");
    ("c14b2c", "cifs/c14b2c.cif") ].

(** A converter that writes nothing and reports failure. *)
Definition failing_converter (cmd : string) (d : disk) : Z * disk :=
  (32512%Z, d).

(** ** More on field lines *)

(** A field line that stops after the name: [<name>] and blanks up to the
    end of the line. *)
Definition bare_field_ok (fl : field_line) : bool :=
  first_at_end (encode (fl_name fl)) (fl_gap fl)
  && nonempty (encode (fl_name fl)) && no_space (encode (fl_name fl))
  && all_space (fl_sep fl) && no_newline (fl_sep fl)
  && negb (nonempty (fl_value fl)) && negb (nonempty (fl_rest fl)).

(** The offsets at which the loop of [read_hkl] finds the names [pms] when
    it starts at [start]: each is the first occurrence of its name at or
    after the end of the line of the name before it. *)
Fixpoint found_at (content : list byte) (start : nat) (pms : list string)
    (offs : list nat) : Prop :=
  match pms, offs with
  | [], [] => True
  | pm :: pms', i :: offs' =>
      start <= i
      /\ starts_with (encode pm) (drop i content) = true
      /\ (forall k, start <= k < i ->
            starts_with (encode pm) (drop k content) = false)
      /\ found_at content (i + length (read_line (drop i content)))
           pms' offs'
  | _, _ => False
  end.

(** The second token of the line that starts at offset [i]. *)
Definition value_token (content : list byte) (i : nat)
  : option (list byte) :=
  split (strip (read_line (drop i content))) !! 1.

(** A float that takes decimal digits and one point only. *)
Definition is_digit_or_point (b : byte) : bool :=
  match b with
  | x30 | x31 | x32 | x33 | x34 | x35 | x36 | x37 | x38 | x39 | x2e => true
  | _ => false
  end.

Definition plain_float (tok : list byte) : option string :=
  if forallb is_digit_or_point tok
  then Some (String.string_of_list_byte tok) else None.

(** The demo header with [n/a] for the density, and with no value at all
    for the weight. *)
Definition malformed_fields : list field_line :=
  take 3 demo_fields ++ [header_line "density" "n/a" " [g/cm^3]"].

Definition malformed_disk : disk :=
  Disk {[ "c16.hkl" :=
            mjoin (render <$> malformed_fields)
            ++ mjoin (render <$> drop 4 demo_fields) ++ demo_trailer ]} ∅.

Definition bare_weight : field_line :=
  FieldLine (encode "# ") "weight" (encode "  ") [] [].

Definition bare_disk : disk :=
  Disk {[ "c16.hkl" :=
            mjoin (render <$> take 4 demo_fields) ++ render bare_weight
            ++ mjoin (render <$> drop 5 demo_fields) ++ demo_trailer ]} ∅.

(** ** More on the runner *)

(** The dict built by [hkl_to_powdern_pms] from the reader's dict. *)
Definition powdern_pms {F} (hkl_file : string) (vals : gmap string F)
  : option (gmap string (pm_value F)) :=
  vc ← vals !! "Vc";
  density ← vals !! "density";
  weight ← vals !! "weight";
  sigma_abs ← vals !! "sigma_abs";
  sigma_inc ← vals !! "sigma_inc";
  Some (<["barns" := PmInt 1]>
        (<["reflections" := PmStr (dquote ++ hkl_file ++ dquote)]>
         (<["sigma_inc" := PmFloat sigma_inc]>
          (<["sigma_abs" := PmFloat sigma_abs]>
           (<["weight" := PmFloat weight]>
            (<["density" := PmFloat density]>
             (<["Vc" := PmFloat vc]> ∅))))))).

(** [if not os.path.exists(output_folder): os.makedirs(output_folder)],
    the first step of [run_on_sample]. *)
Definition output_folder_step (makedirs : string -> M disk unit)
    (cfg : config) : M disk unit :=
  ex <- path_exists (output_folder cfg) ;;
  if ex then ret tt else makedirs (output_folder cfg).

(** What [run_on_sample] asks of the simulator. *)
Definition sample_request (cfg : config) (sample_name : string)
    (lambda0 ncount : Qc) (mpi : Z) : request :=
  {| rq_foldername := foldername cfg lambda0 sample_name;
     rq_increment_folder_name := true;
     rq_ncount := ncount;
     rq_mpi := mpi;
     rq_parameters :=
       [ ("lambda", SpFloat lambda0); ("RV", SpInt (-1));
         ("verbose", SpInt 1) ] |}.

(** A world whose second sample file has no [weight] value. *)
Definition half_bad_world : world string :=
  World
    (Disk {[ "a.hkl" := mjoin (render <$> demo_fields) ++ demo_trailer;
             "b.hkl" := mjoin (render <$> take 4 demo_fields)
                        ++ render bare_weight ]} ∅)
    ∅ [].

(** A configuration without wavelengths, and one without samples. *)
Definition no_wavelength_config : config :=
  {| output_folder := "./results"; prefix := "prefix"; postfix := "";
     run_simulation := true; instrument_name := "D2B_BananaTheta";
     mpi := 1; ncount := Q2Qc 10000000; lambda0s := [];
     colors := []; crystal_hkls := [("a", "a.hkl")] |}.

Definition no_sample_config : config :=
  {| output_folder := "./results"; prefix := "prefix"; postfix := "";
     run_simulation := false; instrument_name := "D2B_BananaTheta";
     mpi := 1; ncount := Q2Qc 10000000; lambda0s := [Q2Qc 1; Q2Qc (3 # 2)];
     colors := []; crystal_hkls := [] |}.

(** The dict of a run that returned one. *)
Definition dict_of {A} (r : exn + gmap string A) : gmap string A :=
  match r with
  | inr vals => vals
  | inl _ => ∅
  end.

(** A world in which only the first folder of the example sweep is there. *)
Definition one_folder_world : world string :=
  World (Disk ∅ {[ "./results/prefix_1.0_a" ]}) ∅ [].

(** The collection of a sweep that returned one. *)
Definition dict_of_results {Data} (r : exn + gmap Qc (gmap string Data))
  : gmap Qc (gmap string Data) :=
  match r with
  | inr R => R
  | inl _ => ∅
  end.

(** ** What [plot_diffr] draws *)

(** The line and the band of one pattern. *)
Definition curve {Data} (p : pattern) (color : pyval Data) (crys : string)
  : list (plot_call Data) :=
  [ CallPlot (VArray (xaxis p)) (VArray (Intensity p)) color (VStr crys);
    CallFillBetween (VArray (xaxis p)) (VArray (Intensity p)) color ].

(** The curves of the crystals, each in the colour of its position. *)
Definition curves {Data} (pat : string -> pattern) (cols : list (pyval Data))
    (crystals : list string) : list (plot_call Data) :=
  zip crystals cols ≫= (fun cc => curve (pat cc.1) cc.2 cc.1).

(** One figure: the curves, then the axes, the title and the legend.  The
    y label is that of the pattern plotted last. *)
Definition figure {Data} (pat : string -> pattern) (cols : list (pyval Data))
    (lambda0 : Qc) (crystals : list string) (last_crys : string)
  : list (plot_call Data) :=
  [CallSubplots] ++ curves pat cols crystals
  ++ [ CallSetXlim; CallSetYlim; CallSetYscale; CallSetXlabel;
       CallSetYlabel (VStr (ylabel (pat last_crys)));
       CallGrid; CallSuptitle (format_1f lambda0); CallLegend; CallShow ].

(** The names the turns of the inner loop read: the module's [results],
    [instrument_name] and [colors], and the wavelength of the figure. *)
Definition plotting {Data} (fr : frame Data)
    (r : gmap Qc (gmap string Data)) (n : string) (cols : list (pyval Data))
    (l : Qc) : Prop :=
  fr_globals fr !! "results" = Some (VResults r)
  /\ fr_globals fr !! "instrument_name" = Some (VStr n)
  /\ fr_globals fr !! "colors" = Some (VSeq cols)
  /\ fr_locals fr !! "lambda0" = Some (VFloat l).

(** * Properties *)

(** ** The model against CPython

    Values printed by a CPython 3.11 session for the same inputs. *)

Example split_whitespace :
  split ([x20] ++ encode "a" ++ [x09] ++ encode "b" ++ [x0b] ++ encode "c"
         ++ [x0c] ++ encode "d" ++ [x0d] ++ encode "e" ++ [x0a]
         ++ encode "f " ++ [x1c] ++ encode " g" ++ [x85])
  = [ encode "a"; encode "b"; encode "c"; encode "d"; encode "e";
      encode "f"; [x1c]; encode "g" ++ [x85] ].
Proof. reflexivity. Qed.

Example strip_both_ends :
  strip (encode "  sigma_abs   0.1720   # comment " ++ [x0d; x0a])
  = encode "sigma_abs   0.1720   # comment".
Proof. reflexivity. Qed.

Example format_1f_values :
  format_1f <$> [ Q2Qc 1; Q2Qc (3 # 2); Q2Qc (33 # 32); Q2Qc (1 # 4);
                  Q2Qc (3 # 4); Q2Qc (-1 # 32); Q2Qc (49382713 # 4);
                  Q2Qc (-5 # 2) ]
  = [ "1.0"; "1.5"; "1.0"; "0.2"; "0.8"; "-0.0"; "12345678.2"; "-2.5" ].
Proof. by vm_compute. Qed.

(** [find] starts at the current position: after the [sigma_coh] line has
    been read, the [sigma_inc] line above it is not found any more. *)
Example find_from_position :
  let content :=
    encode "# sigma_inc  2.0 x" ++ [newline]
    ++ encode "# sigma_coh 1.0 y" ++ [newline]
    ++ encode "lattice_aa 90" ++ [newline]
    ++ encode "lattice_a 3.5" ++ [newline] in
  let mm0 := Mmap.Make content 0 in
  (Mmap.find (encode "sigma_coh") mm0).1 = inr 21%Z
  /\ (Mmap.seek 21 mm0).2 = Mmap.Make content 21
  /\ Mmap.readline (Mmap.Make content 21)
     = (inr (encode "sigma_coh 1.0 y" ++ [newline]), Mmap.Make content 37)
  /\ (Mmap.find (encode "sigma_inc") (Mmap.Make content 37)).1 = inr (-1)%Z
  /\ (Mmap.seek (-1) (Mmap.Make content 37)).1
     = inl (ValueError SeekOutOfRange)
  /\ (Mmap.seek 66 (Mmap.Make content 37)).1
     = inl (ValueError SeekOutOfRange)
  /\ Mmap.readline (Mmap.Make content 65) = (inr [], Mmap.Make content 65).
Proof. by vm_compute. Qed.

(** ** Byte strings *)

Lemma split_spaces ws rest :
  all_space ws = true -> split (ws ++ rest) = split rest.
Proof.
  induction ws as [|b ws IH]; simpl; [done|].
  intros [Hb Hws]%andb_prop. rewrite Hb. auto.
Qed.

Lemma split_all_space ws : all_space ws = true -> split ws = [].
Proof.
  intros H. rewrite <- (app_nil_r ws). by rewrite split_spaces.
Qed.

Lemma split_word_cons b w rest :
  no_space (b :: w) = true ->
  match rest with [] => true | c :: _ => is_space c end = true ->
  split (b :: w ++ rest) = (b :: w) :: split rest.
Proof.
  intros Hw Hrest. revert b Hw. induction w as [|b2 w IH]; intros b Hw.
  - simpl in Hw. rewrite andb_true_r in Hw. apply negb_true_iff in Hw.
    simpl. rewrite Hw. destruct rest as [|c rest]; [done|]. by rewrite Hrest.
  - pose proof Hw as Hw'. simpl in Hw'. apply andb_prop in Hw' as [Hb Hw'].
    apply negb_true_iff in Hb. specialize (IH b2 Hw').
    apply andb_prop in Hw' as [Hb2 _]. apply negb_true_iff in Hb2.
    change (split (b :: (b2 :: w) ++ rest))
      with (if is_space b then split (b2 :: w ++ rest)
            else if is_space b2 then [b] :: split (b2 :: w ++ rest)
            else match split (b2 :: w ++ rest) with
                 | t :: ts => (b :: t) :: ts
                 | [] => [[b]]
                 end).
    by rewrite Hb, Hb2, IH.
Qed.

Lemma split_word w rest :
  nonempty w = true -> no_space w = true ->
  match rest with [] => true | c :: _ => is_space c end = true ->
  split (w ++ rest) = w :: split rest.
Proof.
  destruct w as [|b w]; [done|]. intros _. apply split_word_cons.
Qed.

Lemma split_app_spaces l ws :
  all_space ws = true -> split (l ++ ws) = split l.
Proof.
  intros Hws. induction l as [|b l IH].
  - simpl. by apply split_all_space.
  - destruct l as [|b2 l].
    + simpl. destruct (is_space b); [by apply split_all_space|].
      destruct ws as [|c ws]; [done|].
      pose proof Hws as Hc. simpl in Hc. apply andb_prop in Hc as [Hc _].
      rewrite Hc. by rewrite split_all_space.
    + change (split ((b :: b2 :: l) ++ ws))
        with (if is_space b then split ((b2 :: l) ++ ws)
              else if is_space b2 then [b] :: split ((b2 :: l) ++ ws)
              else match split ((b2 :: l) ++ ws) with
                   | t :: ts => (b :: t) :: ts
                   | [] => [[b]]
                   end).
      by rewrite IH.
Qed.

Lemma lstrip_decomp l :
  exists ws, all_space ws = true /\ l = ws ++ lstrip l.
Proof.
  induction l as [|b l (ws & Hws & Hl)]; [by exists []|].
  simpl. destruct (is_space b) eqn:Hb.
  - exists (b :: ws). simpl. rewrite Hb, Hws. split; [done|]. by f_equal.
  - by exists [].
Qed.

Lemma all_space_rev ws : all_space ws = true -> all_space (rev ws) = true.
Proof.
  unfold all_space. rewrite !forallb_forall. intros H b Hb.
  apply H. by apply in_rev.
Qed.

Lemma split_lstrip l : split (lstrip l) = split l.
Proof.
  destruct (lstrip_decomp l) as (ws & Hws & Hl).
  rewrite Hl at 2. by rewrite split_spaces.
Qed.

Lemma split_rstrip l : split (rstrip l) = split l.
Proof.
  unfold rstrip. destruct (lstrip_decomp (rev l)) as (ws & Hws & Hl).
  assert (l = rev (lstrip (rev l)) ++ rev ws) as Heq.
  { rewrite <- rev_app_distr, <- Hl. by rewrite rev_involutive. }
  rewrite <- (split_app_spaces _ (rev ws)); [|by apply all_space_rev].
  by rewrite <- Heq.
Qed.

(** [strip] before [split] changes nothing: [split] skips the blanks at
    both ends by itself. *)
Lemma split_strip l : split (strip l) = split l.
Proof. unfold strip. by rewrite split_rstrip, split_lstrip. Qed.

Lemma starts_with_app sub more : starts_with sub (sub ++ more) = true.
Proof.
  induction sub as [|a sub IH]; [done|]. simpl.
  rewrite IH, andb_true_r. by apply Byte.byte_dec_lb.
Qed.

Lemma starts_with_app_false sub x more :
  length sub <= length x -> starts_with sub x = false ->
  starts_with sub (x ++ more) = false.
Proof.
  revert x. induction sub as [|a sub IH]; intros x Hlen H; [done|].
  destruct x as [|b x]; simpl in *; [lia|].
  destruct (Byte.eqb a b); simpl in *; [|done].
  apply IH; [lia|done].
Qed.

Lemma find_at_shift sub data i :
  find_at sub data i = (fun j => i + j) <$> find_at sub data 0.
Proof.
  revert i. induction data as [|b data IH]; intros i; simpl.
  - destruct (starts_with sub []); simpl; [f_equal; lia|done].
  - destruct (starts_with sub (b :: data)); simpl; [f_equal; lia|].
    rewrite (IH (S i)), (IH 1).
    destruct (find_at sub data 0); simpl; [f_equal; lia|done].
Qed.

Lemma find_at_eq sub data i :
  find_at sub data i =
  if starts_with sub data then Some i
  else match data with [] => None | _ :: d => find_at sub d (S i) end.
Proof. by destruct data. Qed.

Lemma find_at_first sub gap more :
  first_at_end sub gap = true ->
  find_at sub (gap ++ sub ++ more) 0 = Some (length gap).
Proof.
  unfold first_at_end.
  induction gap as [|b gap IH]; simpl.
  - intros _. by rewrite find_at_eq, starts_with_app.
  - destruct (starts_with sub (b :: gap ++ sub)) eqn:Hs; [done|].
    change (b :: gap ++ sub ++ more) with ((b :: gap) ++ sub ++ more).
    rewrite app_assoc, starts_with_app_false; [|rewrite length_app; lia|done].
    rewrite (find_at_shift _ (gap ++ sub) 1).
    rewrite (find_at_shift _ (gap ++ sub ++ more) 1).
    destruct (find_at sub (gap ++ sub) 0) as [i|] eqn:Hf; simpl; [|done].
    intros Hi. by rewrite IH.
Qed.

Lemma find_at_drop_None sub data n i j :
  find_at sub data i = None -> find_at sub (drop n data) j = None.
Proof.
  revert data i j. induction n as [|n IH]; intros data i j H.
  - rewrite drop_0. rewrite find_at_shift in H |- *.
    by destruct (find_at sub data 0).
  - destruct data as [|b data]; simpl in *.
    + destruct (starts_with sub []); [done|done].
    + destruct (starts_with sub (b :: data)); [done|]. eauto.
Qed.

Lemma read_line_newline t rest :
  no_newline t = true -> read_line (t ++ newline :: rest) = t ++ [newline].
Proof.
  induction t as [|b t IH]; simpl; [done|].
  intros [Hb Ht]%andb_prop. apply negb_true_iff in Hb.
  rewrite Hb. by rewrite IH.
Qed.

Lemma no_space_no_newline l : no_space l = true -> no_newline l = true.
Proof.
  unfold no_space, no_newline. rewrite !forallb_forall. intros H b Hb.
  specialize (H b Hb). by destruct b.
Qed.

Lemma no_newline_app l1 l2 :
  no_newline (l1 ++ l2) = no_newline l1 && no_newline l2.
Proof. apply forallb_app. Qed.

(** ** The reader *)

Lemma keeps_buf_bind {A B} (m : M Mmap.t A) (k : A -> M Mmap.t B) :
  keeps_buf m -> (forall a, keeps_buf (k a)) -> keeps_buf (bind m k).
Proof.
  intros Hm Hk mm. unfold bind. specialize (Hm mm).
  destruct (m mm) as [[e|a] mm1]; simpl in *; [done|].
  by rewrite Hk.
Qed.

Lemma keeps_buf_ret {A} (a : A) : keeps_buf (ret a).
Proof. by intros mm. Qed.

Lemma keeps_buf_raise {A} e : keeps_buf (raise (A:=A) e).
Proof. by intros mm. Qed.

Lemma keeps_buf_find sub : keeps_buf (Mmap.find sub).
Proof. by intros mm. Qed.

Lemma keeps_buf_seek i : keeps_buf (Mmap.seek i).
Proof. intros mm. unfold Mmap.seek. by case_match. Qed.

Lemma keeps_buf_readline : keeps_buf Mmap.readline.
Proof. by intros mm. Qed.

Lemma keeps_buf_getitem {A} (xs : list A) i : keeps_buf (getitem xs i).
Proof. intros mm. unfold getitem. by case_match. Qed.

Lemma params_NoDup : NoDup params.
Proof. apply (bool_decide_unpack _). by vm_compute. Qed.

Section ReaderFacts.

Context {F : Type}.
Variable float : list byte -> option F.

Lemma keeps_buf_float_of tok : keeps_buf (float_of float tok).
Proof. intros mm. unfold float_of. by case_match. Qed.

Lemma read_param_keeps_buf pm vals : keeps_buf (read_param float pm vals).
Proof.
  unfold read_param.
  repeat (apply keeps_buf_bind; [|intros ?]);
    auto using keeps_buf_find, keeps_buf_seek, keeps_buf_readline,
      keeps_buf_getitem, keeps_buf_float_of, keeps_buf_ret.
Qed.

Lemma read_params_keeps_buf pms vals : keeps_buf (read_params float pms vals).
Proof.
  revert vals. induction pms as [|pm pms IH]; intros vals; simpl.
  - apply keeps_buf_ret.
  - apply keeps_buf_bind; [apply read_param_keeps_buf|done].
Qed.

(** The reader does not write to the file it maps. *)
Lemma read_hkl_disk hkl_file d : (read_hkl float hkl_file d).2 = d.
Proof.
  unfold read_hkl.
  destruct (files d !! hkl_file) as [content|] eqn:Hf;
    [|by repeat case_match].
  destruct (Mmap.mmap content) as [e|mm] eqn:Hmm; [done|].
  pose proof (read_params_keeps_buf params ∅ mm) as Hb.
  destruct (read_params float params ∅ mm) as [r mm']. simpl in *.
  assert (Mmap.buf mm = content) as Hc.
  { unfold Mmap.mmap in Hmm. destruct content; by simplify_eq. }
  rewrite Hb, Hc, insert_id by done. by destruct d.
Qed.

(** Nor does the mapper. *)
Lemma hkl_to_powdern_pms_disk hkl_file d :
  (hkl_to_powdern_pms float hkl_file d).2 = d.
Proof.
  unfold hkl_to_powdern_pms, bind, dict_get, ret, raise.
  pose proof (read_hkl_disk hkl_file d) as Hd.
  destruct (read_hkl float hkl_file d) as [[e|vals] d']; simpl in *;
    [done|]. subst d'.
  repeat (destruct (vals !! _); simpl; [|done]). done.
Qed.

(** *** What can go wrong *)

Lemma read_param_errors pm vals mm e :
  (read_param float pm vals mm).1 = inl e -> reader_error e.
Proof.
  unfold read_param, bind, Mmap.find, Mmap.seek, Mmap.readline, getitem,
    float_of, ret, raise, reader_error.
  repeat (case_match; simplify_eq/=); intros; simplify_eq; eauto.
Qed.

Lemma read_params_errors pms vals mm e :
  (read_params float pms vals mm).1 = inl e -> reader_error e.
Proof.
  revert vals mm. induction pms as [|pm pms IH]; intros vals mm; simpl.
  - done.
  - unfold bind.
    destruct (read_param float pm vals mm) as [[e'|vals'] mm'] eqn:Hp.
    + simpl. intros [= ->].
      apply (read_param_errors pm vals mm). by rewrite Hp.
    + apply IH.
Qed.

Lemma read_param_absent pm vals mm :
  find_at (encode pm) (Mmap.buf mm) 0 = None ->
  (read_param float pm vals mm).1 = inl (ValueError SeekOutOfRange).
Proof.
  intros Habs. unfold read_param, bind, Mmap.find.
  by rewrite (find_at_drop_None _ _ _ 0 _ Habs).
Qed.

Lemma read_params_absent pms p vals mm :
  p ∈ pms ->
  find_at (encode p) (Mmap.buf mm) 0 = None ->
  exists e, (read_params float pms vals mm).1 = inl e.
Proof.
  intros Hin. revert vals mm.
  induction pms as [|pm pms IH]; intros vals mm Habs.
  - by apply elem_of_nil in Hin.
  - simpl. unfold bind.
    destruct (read_param float pm vals mm) as [[e'|vals'] mm'] eqn:Hp.
    + by exists e'.
    + apply elem_of_cons in Hin as [->|Hin].
      * pose proof (read_param_absent pm vals mm Habs) as H.
        by rewrite Hp in H.
      * apply IH; [done|].
        pose proof (read_param_keeps_buf pm vals mm) as Hb.
        rewrite Hp in Hb. simpl in Hb. by rewrite Hb.
Qed.

(** *** What is returned *)

Lemma read_params_dom pms vals mm vals' mm' :
  read_params float pms vals mm = (inr vals', mm') ->
  dom vals' = dom vals ∪ list_to_set pms.
Proof.
  revert vals mm. induction pms as [|pm pms IH]; intros vals mm; simpl.
  - intros [= <- _]. set_solver.
  - unfold bind at 1.
    destruct (read_param float pm vals mm) as [[e|vals1] mm1] eqn:Hp; [done|].
    intros H. apply IH in H. rewrite H.
    assert (dom vals1 = {[pm]} ∪ dom vals) as ->; [|set_solver].
    revert Hp. unfold read_param, bind, Mmap.find, Mmap.seek,
      Mmap.readline, getitem, float_of, ret, raise.
    repeat (case_match; simplify_eq/=); intros; simplify_eq.
    apply dom_insert_L.
Qed.

Lemma read_hkl_dom hkl_file d vals d' :
  read_hkl float hkl_file d = (inr vals, d') ->
  dom vals = list_to_set params.
Proof.
  unfold read_hkl. repeat case_match; intros; simplify_eq.
  erewrite read_params_dom by done. set_solver.
Qed.

(** *** Reading a well-formed field line *)

Lemma field_tokens name sep value rest :
  nonempty name = true -> no_space name = true ->
  nonempty sep = true -> all_space sep = true ->
  nonempty value = true -> no_space value = true ->
  match rest with [] => true | b :: _ => is_space b end = true ->
  split (strip (name ++ sep ++ value ++ rest ++ [newline])) !! 1
  = Some value.
Proof.
  intros Hn1 Hn2 Hs1 Hs2 Hv1 Hv2 Hr.
  rewrite split_strip, split_word; [|done|done|].
  - rewrite split_spaces by done.
    rewrite split_word; [done|done|done|].
    by destruct rest.
  - destruct sep as [|b sep]; [done|]. simpl in *.
    by apply andb_prop in Hs2 as [? _].
Qed.

Lemma read_param_field fl x consumed after vals :
  field_ok fl = true -> float (fl_value fl) = Some x ->
  read_param float (fl_name fl) vals
    (Mmap.Make (consumed ++ render fl ++ after) (length consumed))
  = (inr (<[fl_name fl := x]> vals),
     Mmap.Make (consumed ++ render fl ++ after)
               (length (consumed ++ render fl))).
Proof.
  destruct fl as [gap name sep value rest]. unfold field_ok, render. simpl.
  intros Hok Hx. repeat (apply andb_prop in Hok as [Hok ?]).
  set (t := encode name ++ sep ++ value ++ rest).
  set (bf := consumed ++ (gap ++ encode name ++ sep ++ value ++ rest
                          ++ [newline]) ++ after).
  assert (bf = (consumed ++ gap) ++ t ++ newline :: after) as Hbf.
  { unfold bf, t. by rewrite <- !app_assoc. }
  assert (no_newline t = true) as Ht.
  { unfold t. rewrite !no_newline_app.
    rewrite (no_space_no_newline (encode name)) by done.
    rewrite (no_space_no_newline value) by done.
    by repeat (apply andb_true_intro; split). }
  unfold read_param, bind, Mmap.find. simpl.
  assert (find_at (encode name) (drop (length consumed) bf) (length consumed)
          = Some (length consumed + length gap)) as ->.
  { unfold bf. rewrite drop_app_length, find_at_shift.
    rewrite <- !app_assoc. by rewrite find_at_first. }
  unfold Mmap.seek. simpl.
  assert (length bf = length consumed + length gap + length t
                      + S (length after)) as Hlen.
  { rewrite Hbf, !length_app. simpl. lia. }
  destruct (_ || _) eqn:Hrange.
  { apply orb_prop in Hrange as [?%Z.ltb_lt|?%Z.ltb_lt]; lia. }
  unfold Mmap.readline. simpl. rewrite Nat2Z.id.
  assert (drop (length consumed + length gap) bf = t ++ newline :: after)
    as ->.
  { rewrite Hbf, <- length_app. apply drop_app_length. }
  rewrite read_line_newline by done.
  unfold getitem, t. rewrite <- !app_assoc.
  rewrite field_tokens by done. simpl.
  unfold float_of, ret, raise. rewrite Hx. simpl.
  do 2 f_equal. unfold t. rewrite !length_app. simpl. lia.
Qed.

Lemma read_params_layout fls xs consumed after vals :
  Forall (fun fl => field_ok fl = true) fls ->
  Forall2 (fun fl x => float (fl_value fl) = Some x) fls xs ->
  read_params float (fl_name <$> fls) vals
    (Mmap.Make (consumed ++ mjoin (render <$> fls) ++ after)
               (length consumed))
  = (inr (fill vals (zip (fl_name <$> fls) xs)),
     Mmap.Make (consumed ++ mjoin (render <$> fls) ++ after)
               (length (consumed ++ mjoin (render <$> fls)))).
Proof.
  intros Hok Hxs. revert consumed vals Hok.
  induction Hxs as [|fl x fls xs Hx Hxs IH]; intros consumed vals Hok.
  - simpl. by rewrite app_nil_r.
  - apply Forall_cons in Hok as [Hfl Hok]. simpl.
    unfold bind at 1. rewrite <- app_assoc.
    rewrite (read_param_field fl x) by done.
    rewrite (app_assoc consumed (render fl)).
    rewrite IH by done. by rewrite <- !app_assoc.
Qed.

Lemma fill_lookup_notin (vals : gmap string F) items k :
  k ∉ items.*1 -> fill vals items !! k = vals !! k.
Proof.
  revert vals. induction items as [|[k' v] items IH]; intros vals Hk; [done|].
  simpl in *. apply not_elem_of_cons in Hk as [Hne Hk].
  unfold fill in *. simpl. rewrite IH by done. by rewrite lookup_insert_ne.
Qed.

Lemma fill_dom (vals : gmap string F) items :
  dom (fill vals items) = dom vals ∪ list_to_set items.*1.
Proof.
  revert vals. induction items as [|[k v] items IH]; intros vals.
  - simpl. set_solver.
  - unfold fill in *. simpl. rewrite IH, dom_insert_L. set_solver.
Qed.

Lemma fill_lookup_fields (vals : gmap string F) fls xs :
  NoDup (fl_name <$> fls) -> length fls = length xs ->
  Forall2 (fun fl x => fill vals (zip (fl_name <$> fls) xs) !! fl_name fl
                       = Some x) fls xs.
Proof.
  intros Hnd Hlen. revert vals xs Hlen.
  induction fls as [|fl fls IH]; intros vals [|x xs] Hlen; simplify_eq/=.
  - constructor.
  - apply NoDup_cons in Hnd as [Hfl Hnd]. constructor.
    + unfold fill. simpl. fold (fill (<[fl_name fl := x]> vals)
                                  (zip (fl_name <$> fls) xs)).
      rewrite fill_lookup_notin; [by rewrite lookup_insert_eq|].
      intros Hin. apply Hfl.
      apply list_elem_of_fmap in Hin as [[k v] [-> Hin]].
      by apply elem_of_zip_l in Hin.
    + apply IH; [done|lia].
Qed.

(** A file laid out as the twelve field lines, in the order of [params],
    each found where its name first occurs. *)
Lemma read_hkl_layout hkl_file d fls xs trailer :
  files d !! hkl_file = Some (mjoin (render <$> fls) ++ trailer) ->
  fl_name <$> fls = params ->
  Forall (fun fl => field_ok fl = true) fls ->
  Forall2 (fun fl x => float (fl_value fl) = Some x) fls xs ->
  exists vals,
    read_hkl float hkl_file d = (inr vals, d)
    /\ dom vals = list_to_set params
    /\ Forall2 (fun fl x => vals !! fl_name fl = Some x) fls xs.
Proof.
  intros Hfile Hnames Hok Hxs.
  exists (fill ∅ (zip (fl_name <$> fls) xs)).
  pose proof (read_params_layout fls xs [] trailer ∅ Hok Hxs) as Hrun.
  simpl in Hrun. rewrite Hnames in Hrun.
  split; [|split].
  - assert (Mmap.mmap (mjoin (render <$> fls) ++ trailer)
            = inr (Mmap.Make (mjoin (render <$> fls) ++ trailer) 0)) as Hmm.
    { destruct (mjoin (render <$> fls) ++ trailer) as [|b content] eqn:Hc;
        [|done].
      destruct fls as [|fl fls]; [done|]. simpl in Hc.
      unfold render in Hc. rewrite <- !app_assoc in Hc.
      by repeat (apply app_eq_nil in Hc as [_ Hc]). }
    pose proof (read_hkl_disk hkl_file d) as Hd. revert Hd.
    unfold read_hkl. rewrite Hfile, Hmm, Hrun. simpl.
    intros ->. by rewrite Hnames.
  - rewrite fill_dom, fst_zip, Hnames; [set_solver|].
    rewrite length_fmap. by erewrite Forall2_length.
  - apply fill_lookup_fields.
    + rewrite Hnames. apply params_NoDup.
    + by eapply Forall2_length.
Qed.

End ReaderFacts.

(** ** Claims about the reader and the mapper *)

(** C1, as amended: when the twelve field lines [<name> <value> ...] come in
    the reader's own order and each name first occurs, from the end of the
    previous field's line on, at the head of its own field, [read_hkl]
    returns a dict of exactly the twelve names, each bound to [float] of the
    value token of its line; the text between the fields, the blanks and
    what follows the value do not matter. *)
Theorem read_hkl_fields_in_order {F} (float : list byte -> option F)
    hkl_file d fls xs trailer :
  files d !! hkl_file = Some (mjoin (render <$> fls) ++ trailer) ->
  fl_name <$> fls = params ->
  Forall (fun fl => field_ok fl = true) fls ->
  Forall2 (fun fl x => float (fl_value fl) = Some x) fls xs ->
  exists vals,
    read_hkl float hkl_file d = (inr vals, d)
    /\ dom vals = list_to_set params
    /\ Forall2 (fun fl x => vals !! fl_name fl = Some x) fls xs.
Proof. apply read_hkl_layout. Qed.

Lemma read_hkl_fields_in_order_witness :
  exists vals,
    read_hkl token_float "c16.hkl" demo_disk = (inr vals, demo_disk)
    /\ dom vals = list_to_set params
    /\ Forall2 (fun fl x => vals !! fl_name fl = Some x)
         demo_fields demo_values.
Proof.
  apply (read_hkl_fields_in_order token_float "c16.hkl" demo_disk
           demo_fields demo_values demo_trailer).
  - reflexivity.
  - reflexivity.
  - repeat constructor.
  - repeat constructor.
Defined.

(** C1 fails as stated: twelve well-formed field lines, one per name, in
    another order.  [lattice_a] is bound to the value of the [lattice_aa]
    line, and the search for [lattice_aa] then finds nothing. *)
Lemma read_hkl_any_order_counterexample :
  Forall (fun fl => field_ok fl = true) shuffled_fields
  /\ fl_name <$> shuffled_fields ≡ₚ params
  /\ value_of
       (read_params token_float (take 7 params) ∅
          (Mmap.Make (mjoin (render <$> shuffled_fields)) 0)).1
       "lattice_a" = Some "90.0"
  /\ (read_hkl token_float "c16.hkl" shuffled_disk).1
     = inl (ValueError SeekOutOfRange).
Proof.
  split; [repeat constructor|]. split.
  - unfold shuffled_fields, params. simpl.
    do 6 apply Permutation_skip.
    apply (Permutation_middle ["lattice_a"; "lattice_b"; "lattice_c"]
             ["lattice_bb"; "lattice_cc"] "lattice_aa").
  - split; by vm_compute.
Qed.

(** C2, as amended: when one of the twelve names occurs nowhere in the
    file, [read_hkl] raises and returns no dict, partial or not; the
    exception is the ValueError of [seek] (or the IndexError or ValueError of
    an earlier line), never a MissingFieldError, and it does not name the
    field. *)
Theorem read_hkl_missing_field {F} (float : list byte -> option F)
    hkl_file d content p :
  files d !! hkl_file = Some content ->
  p ∈ params ->
  find_at (encode p) content 0 = None ->
  exists e,
    read_hkl float hkl_file d = (inl e, d)
    /\ reader_error e
    /\ exn_class e <> "MissingFieldError".
Proof.
  intros Hfile Hp Habs.
  pose proof (read_hkl_disk float hkl_file d) as Hd.
  assert (exists e, (read_hkl float hkl_file d).1 = inl e /\ reader_error e)
    as (e & He & Herr).
  { unfold read_hkl. rewrite Hfile.
    destruct content as [|b content]; unfold Mmap.mmap.
    { eexists. split; [done|]. right. eauto. }
    destruct (read_params_absent float params p ∅
                (Mmap.Make (b :: content) 0) Hp Habs) as [e He].
    exists e.
    pose proof (read_params_errors float params ∅
                  (Mmap.Make (b :: content) 0) e He) as Herr.
    by destruct (read_params float params ∅ _) as [r mm']. }
  exists e. split; [|split; [done|]].
  - destruct (read_hkl float hkl_file d) as [r d']. by simpl in *; subst.
  - by destruct Herr as [->|[why ->]].
Qed.

Lemma read_hkl_missing_field_witness :
  exists e,
    read_hkl token_float "c16.hkl" lacking_disk = (inl e, lacking_disk)
    /\ reader_error e
    /\ exn_class e <> "MissingFieldError".
Proof.
  apply (read_hkl_missing_field token_float "c16.hkl" lacking_disk
           (mjoin (render <$> (take 2 demo_fields ++ drop 3 demo_fields))
            ++ demo_trailer) "sigma_abs").
  - reflexivity.
  - unfold params. set_solver.
  - vm_compute. reflexivity.
Defined.

(** C2 fails as stated: on the header without its [sigma_abs] line the
    reader raises ValueError ("seek out of range"), not a
    MissingFieldError. *)
Lemma read_hkl_missing_field_counterexample :
  read_hkl token_float "c16.hkl" lacking_disk
  = (inl (ValueError SeekOutOfRange), lacking_disk)
  /\ exn_class (ValueError SeekOutOfRange) = "ValueError"
  /\ exn_class (ValueError SeekOutOfRange) <> "MissingFieldError".
Proof. split; [by vm_compute|]. by split. Qed.

(** C8, as amended: in a header laid out in the reader's order, each name
    first occurring at the head of its own field, whose [sigma_abs] field is
    the line [sigma_abs   0.1720   # comment], the reader binds [sigma_abs]
    to [float] of the token [0.1720]: the comment and whatever follows the
    value on the line are ignored. *)
Theorem read_hkl_trailing_comment {F} (float : list byte -> option F)
    hkl_file d fls xs trailer gap :
  files d !! hkl_file = Some (mjoin (render <$> fls) ++ trailer) ->
  fl_name <$> fls = params ->
  Forall (fun fl => field_ok fl = true) fls ->
  Forall2 (fun fl x => float (fl_value fl) = Some x) fls xs ->
  FieldLine gap "sigma_abs" (encode "   ") (encode "0.1720")
            (encode "   # comment") ∈ fls ->
  exists vals,
    read_hkl float hkl_file d = (inr vals, d)
    /\ is_Some (vals !! "sigma_abs")
    /\ vals !! "sigma_abs" = float (encode "0.1720").
Proof.
  intros Hfile Hnames Hok Hxs Hin.
  destruct (read_hkl_layout float hkl_file d fls xs trailer)
    as (vals & Hrun & _ & Hvals); [done..|].
  exists vals. split; [done|].
  apply list_elem_of_lookup in Hin as [i Hi].
  destruct (Forall2_lookup_l _ _ _ _ _ Hxs Hi) as (x & Hx & Hfloat).
  destruct (Forall2_lookup_l _ _ _ _ _ Hvals Hi) as (x' & Hx' & Hlook).
  simpl in *. simplify_eq. rewrite Hlook, Hfloat. eauto.
Qed.

Lemma read_hkl_trailing_comment_witness :
  exists vals,
    read_hkl token_float "c16.hkl" demo_disk = (inr vals, demo_disk)
    /\ is_Some (vals !! "sigma_abs")
    /\ vals !! "sigma_abs" = token_float (encode "0.1720").
Proof.
  apply (read_hkl_trailing_comment token_float "c16.hkl" demo_disk
           demo_fields demo_values demo_trailer (encode "# ")).
  - reflexivity.
  - reflexivity.
  - repeat constructor.
  - repeat constructor.
  - unfold demo_fields, header_line. set_solver.
Defined.

(** C8 fails as stated: a file that holds the line
    [sigma_abs   0.1720   # comment] and all twelve names need not be read.
    With that line in front of the other eleven fields, the search for
    [sigma_abs] starts after the [sigma_inc] line and finds nothing, and the
    reader raises the ValueError of [seek]. *)
Lemma read_hkl_comment_line_first_counterexample :
  (exists rest,
     files comment_first_disk !! "c16.hkl"
     = Some (encode "sigma_abs   0.1720   # comment" ++ newline :: rest)
     /\ Forall (fun pm =>
                  is_Some (find_at (encode pm)
                             (encode "sigma_abs   0.1720   # comment"
                              ++ newline :: rest) 0)) params)
  /\ read_hkl token_float "c16.hkl" comment_first_disk
     = (inl (ValueError SeekOutOfRange), comment_first_disk).
Proof.
  split; [|by vm_compute].
  eexists. split; [vm_compute; reflexivity|].
  unfold params. repeat (apply Forall_cons_2; [vm_compute; by eexists|]).
  apply Forall_nil_2.
Qed.

(** C10: [read_hkl] leaves the disk as it found it, whether it returns or
    raises: [find], [seek] and [readline] move the position of the map and
    never touch its bytes, so the bytes written back on closing are the
    bytes that were mapped. *)
Theorem read_hkl_file_unchanged {F} (float : list byte -> option F)
    hkl_file d :
  (read_hkl float hkl_file d).2 = d
  /\ (forall pms vals mm,
        Mmap.buf (read_params float pms vals mm).2 = Mmap.buf mm).
Proof.
  split; [apply read_hkl_disk|].
  intros pms vals mm. apply read_params_keeps_buf.
Qed.

(** C7: whenever the reader returns a dict for the file, the mapper
    returns a dict of exactly the seven keys [Vc], [density], [weight],
    [sigma_abs], [sigma_inc], [reflections], [barns]; the first five carry
    the reader's values, [reflections] is the path between double quotes
    and [barns] is the integer 1. *)
Theorem hkl_to_powdern_pms_shape {F} (float : list byte -> option F)
    hkl_file d vals d' :
  read_hkl float hkl_file d = (inr vals, d') ->
  exists pms,
    hkl_to_powdern_pms float hkl_file d = (inr pms, d')
    /\ dom pms = list_to_set [ "Vc"; "density"; "weight"; "sigma_abs";
                               "sigma_inc"; "reflections"; "barns" ]
    /\ (forall k,
          k ∈ ["Vc"; "density"; "weight"; "sigma_abs"; "sigma_inc"] ->
          exists x, vals !! k = Some x /\ pms !! k = Some (PmFloat x))
    /\ pms !! "reflections" = Some (PmStr (dquote ++ hkl_file ++ dquote))
    /\ pms !! "barns" = Some (PmInt 1).
Proof.
  intros Hread. pose proof (read_hkl_dom float _ _ _ _ Hread) as Hdom.
  assert (forall k, k ∈ params -> is_Some (vals !! k)) as Hkeys.
  { intros k Hk. apply elem_of_dom. rewrite Hdom. set_solver. }
  destruct (Hkeys "Vc") as [vc Hvc]; [unfold params; set_solver|].
  destruct (Hkeys "density") as [de Hde]; [unfold params; set_solver|].
  destruct (Hkeys "weight") as [we Hwe]; [unfold params; set_solver|].
  destruct (Hkeys "sigma_abs") as [sa Hsa]; [unfold params; set_solver|].
  destruct (Hkeys "sigma_inc") as [si Hsi]; [unfold params; set_solver|].
  eexists. split.
  { unfold hkl_to_powdern_pms, bind, dict_get.
    rewrite Hread, Hvc, Hde, Hwe, Hsa, Hsi. reflexivity. }
  split; [|split; [|split]].
  - rewrite !dom_insert_L, dom_empty_L. set_solver.
  - intros k Hk. repeat (apply elem_of_cons in Hk as [->|Hk]);
      [..|by apply elem_of_nil in Hk]; eexists; (split; [done|]);
      by simplify_map_eq.
  - by simplify_map_eq.
  - by simplify_map_eq.
Qed.

Lemma hkl_to_powdern_pms_shape_witness :
  exists pms,
    hkl_to_powdern_pms token_float "c16.hkl" demo_disk = (inr pms, demo_disk)
    /\ dom pms = list_to_set [ "Vc"; "density"; "weight"; "sigma_abs";
                               "sigma_inc"; "reflections"; "barns" ]
    /\ (forall k,
          k ∈ ["Vc"; "density"; "weight"; "sigma_abs"; "sigma_inc"] ->
          exists x, fill ∅ (zip params demo_values) !! k = Some x
                    /\ pms !! k = Some (PmFloat x))
    /\ pms !! "reflections" = Some (PmStr (dquote ++ "c16.hkl" ++ dquote))
    /\ pms !! "barns" = Some (PmInt 1).
Proof.
  apply (hkl_to_powdern_pms_shape token_float "c16.hkl" demo_disk
           (fill ∅ (zip params demo_values)) demo_disk).
  vm_compute. reflexivity.
Defined.

(** ** The output-folder name *)

Lemma chars_app s t :
  String.list_ascii_of_string (s ++ t)%string
  = String.list_ascii_of_string s ++ String.list_ascii_of_string t.
Proof. induction s as [|a s IH]; simpl; [done|]. by rewrite IH. Qed.

Lemma chars_inj s t :
  String.list_ascii_of_string s = String.list_ascii_of_string t -> s = t.
Proof.
  intros H. rewrite <- (String.string_of_list_ascii_of_string s),
    <- (String.string_of_list_ascii_of_string t). by rewrite H.
Qed.

Lemma digits_no_underscore u :
  "_"%char ∉ String.list_ascii_of_string (NilEmpty.string_of_uint u).
Proof.
  induction u; simpl; [apply not_elem_of_nil|..];
    (apply not_elem_of_cons; split; [done|assumption]).
Qed.

Lemma decimal_no_underscore z : "_"%char ∉ String.list_ascii_of_string (decimal z).
Proof.
  unfold decimal, NilZero.string_of_uint.
  destruct (N.to_uint (Z.to_N z)) eqn:Hu;
    try (rewrite <- Hu; apply digits_no_underscore).
  simpl. set_solver.
Qed.

(** The rendering of a wavelength holds a sign, digits and a point. *)
Lemma format_1f_no_underscore x :
  "_"%char ∉ String.list_ascii_of_string (format_1f x).
Proof.
  unfold format_1f. rewrite !chars_app. rewrite !not_elem_of_app.
  split; [by case_match; simpl; set_solver|].
  split; [apply decimal_no_underscore|].
  split; [simpl; set_solver|apply decimal_no_underscore].
Qed.

Lemma folder_tail_inj x1 c1 x2 c2 :
  (format_1f x1 ++ "_" ++ c1 = format_1f x2 ++ "_" ++ c2)%string ->
  format_1f x1 = format_1f x2 /\ c1 = c2.
Proof.
  intros H. apply (f_equal String.list_ascii_of_string) in H.
  rewrite !chars_app in H. simpl in H.
  apply not_elem_of_app_cons_inv_l in H as (H1 & _ & H2);
    [|apply format_1f_no_underscore..].
  split; by apply chars_inj.
Qed.

Lemma string_app_inv_head (s t1 t2 : string) :
  (s ++ t1 = s ++ t2)%string -> t1 = t2.
Proof.
  intros H. apply (f_equal String.list_ascii_of_string) in H.
  rewrite !chars_app in H. apply app_inv_head in H. by apply chars_inj.
Qed.

Lemma string_app_inv_tail (s1 s2 t : string) :
  (s1 ++ t = s2 ++ t)%string -> s1 = s2.
Proof.
  intros H. apply (f_equal String.list_ascii_of_string) in H.
  rewrite !chars_app in H. apply app_inv_tail in H. by apply chars_inj.
Qed.

Lemma foldername_inj cfg l1 c1 l2 c2 :
  foldername cfg l1 c1 = foldername cfg l2 c2 ->
  format_1f l1 = format_1f l2 /\ c1 = c2.
Proof.
  unfold foldername. intros H.
  do 4 apply string_app_inv_head in H. by apply folder_tail_inj.
Qed.

Lemma replay_folder_eq cfg l c :
  replay_folder cfg l c = (foldername cfg l c ++ postfix cfg)%string.
Proof.
  unfold replay_folder, foldername.
  apply chars_inj. rewrite !chars_app. by rewrite <- !app_assoc.
Qed.

Lemma replay_folder_no_postfix cfg l c :
  postfix cfg = "" -> replay_folder cfg l c = foldername cfg l c.
Proof.
  intros H. rewrite replay_folder_eq, H.
  apply chars_inj. rewrite chars_app. simpl. by rewrite app_nil_r.
Qed.

(** C3, as amended: the folder name is a function of the configuration and
    the Sweep Point, and two Sweep Points get the same name exactly when
    their sample identifiers are equal and their wavelengths are rendered
    alike to one decimal place; the same holds with the replay postfix,
    which follows the execute name, so that without postfix the two names
    agree.  For the
    wavelengths and samples the notebook configures, the twenty names are
    pairwise distinct. *)
Theorem foldername_collisions cfg l1 c1 l2 c2 :
  (foldername cfg l1 c1 = foldername cfg l2 c2
   <-> format_1f l1 = format_1f l2 /\ c1 = c2)
  /\ (replay_folder cfg l1 c1 = replay_folder cfg l2 c2
      <-> format_1f l1 = format_1f l2 /\ c1 = c2)
  /\ replay_folder cfg l1 c1 = (foldername cfg l1 c1 ++ postfix cfg)%string
  /\ NoDup ((fun p => foldername notebook_config p.1 p.2)
              <$> sweep_points notebook_config).
Proof.
  split; [|split; [|split]].
  - split; [apply foldername_inj|]. unfold foldername. by intros [-> ->].
  - split; [|unfold replay_folder; by intros [-> ->]].
    rewrite !replay_folder_eq. intros H%string_app_inv_tail.
    by apply (foldername_inj cfg).
  - apply replay_folder_eq.
  - apply (bool_decide_unpack _). by vm_compute.
Qed.

(** C3 fails as stated: 1.0 and 1.03125 are distinct wavelengths, both
    rendered [1.0], so two distinct Sweep Points of one configured product
    share a folder. *)
Lemma foldername_collision_counterexample :
  (Q2Qc 1, "c16") ∈ sweep_points close_config
  /\ (Q2Qc (33 # 32), "c16") ∈ sweep_points close_config
  /\ (Q2Qc 1, "c16") <> (Q2Qc (33 # 32), "c16")
  /\ foldername close_config (Q2Qc 1) "c16"
     = foldername close_config (Q2Qc (33 # 32)) "c16".
Proof.
  split; [|split; [|split]].
  - vm_compute. set_solver.
  - vm_compute. set_solver.
  - intros H. apply (f_equal (fun p => Qnum (this p.1))) in H.
    by vm_compute in H.
  - by vm_compute.
Qed.

(** ** The sweep *)

Lemma runner_calls_app evs1 evs2 :
  runner_calls (evs1 ++ evs2) = runner_calls evs1 ++ runner_calls evs2.
Proof. apply omap_app. Qed.

Lemma requested_folders_app evs1 evs2 :
  requested_folders (evs1 ++ evs2)
  = requested_folders evs1 ++ requested_folders evs2.
Proof. apply omap_app. Qed.

Lemma folders_of_product {A B C} (f : A -> B -> C) (ls : list A) (cs : list B) :
  (l ← ls; f l <$> cs)
  = (fun p => f p.1 p.2) <$> (l ← ls; (fun c => (l, c)) <$> cs).
Proof.
  induction ls as [|l ls IH]; csimpl; [done|].
  rewrite fmap_app, <- IH. f_equal. by rewrite <- list_fmap_compose.
Qed.

Section ResultFacts.

Context {Data : Type}.

Lemma elem_of_result_keys (R : gmap Qc (gmap string Data)) l c :
  (l, c) ∈ result_keys R
  <-> exists inner, R !! l = Some inner /\ c ∈ dom inner.
Proof.
  unfold result_keys. rewrite elem_of_list_to_set, list_elem_of_bind.
  split.
  - intros ([l' inner] & Hin & Hp). simpl in *.
    apply list_elem_of_fmap in Hin as (c' & [= -> ->] & Hc).
    exists inner. split; [by apply elem_of_map_to_list|].
    by apply elem_of_elements.
  - intros (inner & Hl & Hc). exists (l, inner).
    split; [|by apply elem_of_map_to_list]. simpl.
    apply list_elem_of_fmap. exists c. split; [done|].
    by apply elem_of_elements.
Qed.

(** A collection with one inner dict per wavelength of [ls], each with
    the keys [cs], has the product as its keys. *)
Lemma result_keys_product (R : gmap Qc (gmap string Data)) (ls : list Qc) (cs : list string) :
  (forall x, dom <$> R !! x
             = if decide (x ∈ ls) then Some (list_to_set cs) else None) ->
  result_keys R = list_to_set (l ← ls; (fun c => (l, c)) <$> cs).
Proof.
  intros HR. apply set_eq. intros [l c].
  rewrite elem_of_result_keys, elem_of_list_to_set, list_elem_of_bind.
  specialize (HR l). split.
  - intros (inner & Hl & Hc). rewrite Hl in HR. simpl in HR.
    case_decide; [|done]. simplify_eq. exists l. split; [|done].
    apply list_elem_of_fmap. exists c. split; [done|].
    rewrite HR in Hc. by apply elem_of_list_to_set in Hc.
  - intros (l' & Hin & Hl').
    apply list_elem_of_fmap in Hin as (c' & [= -> ->] & Hc).
    rewrite decide_True in HR by done.
    destruct (R !! l') as [inner|]; [|done]. simpl in HR. simplify_eq.
    exists inner. split; [done|]. rewrite HR.
    by apply elem_of_list_to_set.
Qed.

Lemma store_result_Some {S} (R : gmap Qc (gmap string Data)) l c data inner (s : S) :
  R !! l = Some inner ->
  store_result R l c data s = (inr (<[l := <[c := data]> inner]> R), s).
Proof. intros H. unfold store_result. by rewrite H. Qed.

End ResultFacts.

(** *** Execute mode *)

Section ExecuteFacts.

Context {F Data : Type}.
Variable float : list byte -> option F.
Variable makedirs : string -> M disk unit.
Variable run_full_instrument :
  request -> gmap string (pm_value F) -> M disk Data.

Abbreviation run_on_sample' :=
  (run_on_sample float makedirs run_full_instrument).
Abbreviation execute_samples' :=
  (execute_samples float makedirs run_full_instrument).
Abbreviation execute_wavelengths' :=
  (execute_wavelengths float makedirs run_full_instrument).
Abbreviation execute' := (execute float makedirs run_full_instrument).

Lemma run_on_sample_log cfg s h l nc m w r w' :
  run_on_sample' cfg s h l nc m w = (r, w') ->
  exists evs,
    w_log w' = w_log w ++ evs
    /\ runner_calls evs = [(l, s)]
    /\ (forall data, r = inr data ->
          requested_folders evs = [foldername cfg l s]).
Proof.
  unfold run_on_sample, bind, log, lift_disk,
    path_exists, set_parameters, simulate, ret, bind, log.
  simpl.
  destruct (_ || _); [|destruct (makedirs _ _) as [[e0|[]] d0]]; simpl;
    try destruct (hkl_to_powdern_pms float h _) as [[e|pms] d1]; simpl;
    try destruct (run_full_instrument _ _ _) as [[e|data] d2]; simpl;
    intros [= <- <-]; simpl;
    (eexists; split; [rewrite <- ?app_assoc; reflexivity|]; by split).
Qed.

Lemma execute_samples_spec cfg l items :
  forall (R : gmap Qc (gmap string Data)) inner w r w',
    R !! l = Some inner ->
    execute_samples' cfg l items R w = (r, w') ->
    exists evs,
      w_log w' = w_log w ++ evs
      /\ runner_calls evs `prefix_of` (fun c => (l, c)) <$> items.*1
      /\ (forall R', r = inr R' ->
            runner_calls evs = (fun c => (l, c)) <$> items.*1
            /\ requested_folders evs = foldername cfg l <$> items.*1
            /\ exists inner',
                 R' = <[l := inner']> R
                 /\ dom inner' = dom inner ∪ list_to_set items.*1).
Proof.
  induction items as [|[crys hkl] items IH]; intros R inner w r w' HR.
  - simpl. intros [= <- <-]. exists []. rewrite app_nil_r.
    split; [done|]. split; [done|]. intros R' [= <-].
    split; [done|]. split; [done|]. exists inner.
    split; [by rewrite insert_id|]. set_solver.
  - simpl. unfold bind at 1.
    destruct (run_on_sample' cfg crys hkl l (ncount cfg) (mpi cfg) w)
      as [[e|data] w1] eqn:Hrun;
      apply run_on_sample_log in Hrun as (evs1 & Hlog1 & Hcalls1 & Hreq1).
    + intros [= <- <-]. exists evs1. split; [done|].
      split; [|done]. rewrite Hcalls1. by apply prefix_cons, prefix_nil.
    + unfold bind at 1. rewrite (store_result_Some R l crys data inner) by done.
      intros Hrest.
      eapply IH in Hrest as (evs2 & Hlog2 & Hcalls2 & Hok);
        [|by apply lookup_insert_eq].
      exists (evs1 ++ evs2). rewrite Hlog2, Hlog1, <- app_assoc.
      split; [done|]. rewrite runner_calls_app, Hcalls1.
      split; [by apply prefix_cons|].
      intros R' HR'. destruct (Hok R' HR') as (Hc & Hf & inner' & -> & Hd).
      rewrite requested_folders_app, Hc, Hf, (Hreq1 data) by done.
      split; [done|]. split; [done|]. exists inner'.
      split; [by rewrite insert_insert_eq|].
      rewrite Hd, dom_insert_L. set_solver.
Qed.

Lemma execute_wavelengths_spec cfg ls :
  forall (R : gmap Qc (gmap string Data)) w r w',
    execute_wavelengths' cfg ls R w = (r, w') ->
    exists evs,
      w_log w' = w_log w ++ evs
      /\ runner_calls evs
         `prefix_of` (l ← ls; (fun c => (l, c)) <$> (crystal_hkls cfg).*1)
      /\ (forall R', r = inr R' ->
            runner_calls evs
            = (l ← ls; (fun c => (l, c)) <$> (crystal_hkls cfg).*1)
            /\ requested_folders evs
               = (l ← ls; foldername cfg l <$> (crystal_hkls cfg).*1)
            /\ forall x,
                 dom <$> R' !! x
                 = if decide (x ∈ ls)
                   then Some (list_to_set (crystal_hkls cfg).*1)
                   else dom <$> R !! x).
Proof.
  induction ls as [|l ls IH]; intros R w r w'.
  - simpl. intros [= <- <-]. exists []. rewrite app_nil_r.
    split; [done|]. split; [done|]. intros R' [= <-].
    split; [done|]. split; [done|]. by intros x.
  - simpl. unfold bind at 1.
    destruct (execute_samples' cfg l (crystal_hkls cfg) (<[l:=∅]> R) w)
      as [[e|R1] w1] eqn:Hrun;
      eapply execute_samples_spec in Hrun
        as (evs1 & Hlog1 & Hcalls1 & Hok1); try apply lookup_insert_eq.
    + intros [= <- <-]. exists evs1. split; [done|].
      split; [|done]. by apply prefix_app_r.
    + intros Hrest. apply IH in Hrest as (evs2 & Hlog2 & Hcalls2 & Hok2).
      destruct (Hok1 R1 eq_refl) as (Hc1 & Hf1 & inner' & -> & Hd).
      exists (evs1 ++ evs2). rewrite Hlog2, Hlog1, <- app_assoc.
      split; [done|]. rewrite runner_calls_app, Hc1.
      split; [by apply prefix_app|].
      intros R' HR'. destruct (Hok2 R' HR') as (Hc2 & Hf2 & Hshape).
      rewrite requested_folders_app, Hc2, Hf2, Hf1.
      split; [done|]. split; [done|]. intros x. rewrite Hshape.
      destruct (decide (x ∈ ls)) as [Hx|Hx].
      * rewrite decide_True; [done|]. apply elem_of_cons. by right.
      * destruct (decide (x = l)) as [->|Hne].
        -- rewrite decide_True by (apply elem_of_cons; by left).
           rewrite insert_insert_eq, lookup_insert_eq. simpl. f_equal.
           rewrite Hd, dom_empty_L. set_solver.
        -- rewrite decide_False by (by apply not_elem_of_cons).
           by rewrite insert_insert_eq, lookup_insert_ne.
Qed.

(** What a sweep that ran through in execute mode has done. *)
Lemma execute_spec cfg w R w' :
  execute' cfg w = (inr R, w') ->
  exists evs,
    w_log w' = w_log w ++ evs
    /\ runner_calls evs = sweep_points cfg
    /\ requested_folders evs
       = (fun p => foldername cfg p.1 p.2) <$> sweep_points cfg
    /\ result_keys R = list_to_set (sweep_points cfg).
Proof.
  intros Hrun. apply execute_wavelengths_spec in Hrun
    as (evs & Hlog & _ & Hok).
  destruct (Hok R eq_refl) as (Hc & Hf & Hshape).
  exists evs. split; [done|]. split; [done|]. split.
  - rewrite Hf. apply folders_of_product.
  - apply result_keys_product. intros x. rewrite Hshape.
    by rewrite lookup_empty.
Qed.

(** Execute mode fails fast: the runner is invoked on an initial segment
    of the Sweep Points. *)
Lemma execute_fail_fast cfg w :
  exists evs,
    w_log (execute' cfg w).2 = w_log w ++ evs
    /\ runner_calls evs `prefix_of` sweep_points cfg.
Proof.
  destruct (execute' cfg w) as [r w'] eqn:Hrun.
  apply execute_wavelengths_spec in Hrun as (evs & Hlog & Hpre & _).
  by exists evs.
Qed.

End ExecuteFacts.

(** *** Replay mode *)

Section ReplayFacts.

Context {F Data : Type}.
Variable load_data : string -> disk -> exn + Data.

Abbreviation replay_samples' := (replay_samples (F:=F) load_data).
Abbreviation replay_wavelengths' := (replay_wavelengths (F:=F) load_data).
Abbreviation replay' := (replay (F:=F) load_data).

Lemma replay_samples_spec cfg l keys :
  forall (R : gmap Qc (gmap string Data)) inner w,
    R !! l = Some inner ->
    exists r,
      replay_samples' cfg l keys R w = (r, w)
      /\ match r with
         | inr R' =>
             (forall c, c ∈ keys ->
                exists data,
                  load_data (replay_folder cfg l c) (w_disk w) = inr data)
             /\ exists inner',
                  R' = <[l := inner']> R
                  /\ dom inner' = dom inner ∪ list_to_set keys
         | inl e =>
             exists c,
               c ∈ keys
               /\ load_data (replay_folder cfg l c) (w_disk w) = inl e
         end.
Proof.
  induction keys as [|crys keys IH]; intros R inner w HR.
  - exists (inr R). split; [done|]. split.
    + intros c Hc. by apply elem_of_nil in Hc.
    + exists inner. split; [by rewrite insert_id|]. set_solver.
  - simpl. unfold bind at 1, load at 1.
    destruct (load_data (replay_folder cfg l crys) (w_disk w))
      as [e|data] eqn:Hload.
    + exists (inl e). split; [done|]. exists crys.
      split; [apply elem_of_cons; by left|done].
    + unfold bind at 1.
      rewrite (store_result_Some R l crys data inner) by done.
      destruct (IH (<[l := <[crys := data]> inner]> R)
                   (<[crys := data]> inner) w)
        as (r & Hrun & Hr); [apply lookup_insert_eq|].
      exists r. split; [done|]. destruct r as [e|R'].
      * destruct Hr as (c & Hc & Hl). exists c.
        split; [apply elem_of_cons; by right|done].
      * destruct Hr as (Hall & inner' & -> & Hd). split.
        -- intros c [->|Hc]%elem_of_cons; [by exists data|by apply Hall].
        -- exists inner'. split; [by rewrite insert_insert_eq|].
           rewrite Hd, dom_insert_L. set_solver.
Qed.

Lemma replay_wavelengths_spec cfg ls :
  forall (R : gmap Qc (gmap string Data)) w,
    exists r,
      replay_wavelengths' cfg ls R w = (r, w)
      /\ match r with
         | inr R' =>
             (forall l c, l ∈ ls -> c ∈ (crystal_hkls cfg).*1 ->
                exists data,
                  load_data (replay_folder cfg l c) (w_disk w) = inr data)
             /\ forall x,
                  dom <$> R' !! x
                  = if decide (x ∈ ls)
                    then Some (list_to_set (crystal_hkls cfg).*1)
                    else dom <$> R !! x
         | inl e =>
             exists l c,
               l ∈ ls /\ c ∈ (crystal_hkls cfg).*1
               /\ load_data (replay_folder cfg l c) (w_disk w) = inl e
         end.
Proof.
  induction ls as [|l ls IH]; intros R w.
  - exists (inr R). split; [done|]. split.
    + intros l c Hl. by apply elem_of_nil in Hl.
    + by intros x.
  - simpl. unfold bind at 1.
    destruct (replay_samples_spec cfg l (crystal_hkls cfg).*1
                (<[l := ∅]> R) ∅ w) as (r1 & Hrun1 & Hr1);
      [apply lookup_insert_eq|].
    rewrite Hrun1. destruct r1 as [e|R1].
    + exists (inl e). split; [done|].
      destruct Hr1 as (c & Hc & Hl). exists l, c.
      split; [apply elem_of_cons; by left|done].
    + destruct Hr1 as (Hall1 & inner' & -> & Hd).
      destruct (IH (<[l := inner']> (<[l := ∅]> R)) w) as (r & Hrun & Hr).
      exists r. split; [done|]. destruct r as [e|R'].
      * destruct Hr as (l' & c & Hl' & Hc & Hload). exists l', c.
        split; [apply elem_of_cons; by right|done].
      * destruct Hr as (Hall & Hshape). split.
        -- intros l' c [->|Hl']%elem_of_cons Hc; [by apply Hall1|].
           by apply Hall.
        -- intros x. rewrite Hshape.
           destruct (decide (x ∈ ls)) as [Hx|Hx].
           ++ rewrite decide_True; [done|]. apply elem_of_cons. by right.
           ++ destruct (decide (x = l)) as [->|Hne].
              ** rewrite decide_True by (apply elem_of_cons; by left).
                 rewrite insert_insert_eq, lookup_insert_eq. simpl. f_equal.
                 rewrite Hd, dom_empty_L. set_solver.
              ** rewrite decide_False by (by apply not_elem_of_cons).
                 by rewrite insert_insert_eq, lookup_insert_ne.
Qed.

(** Replay mode returns a collection exactly when the loader reads every
    folder, and raises the loader's own exception otherwise; either way
    the world is as before. *)
Lemma replay_spec cfg w :
  exists r,
    replay' cfg w = (r, w)
    /\ match r with
       | inr R =>
           (forall l c, (l, c) ∈ sweep_points cfg ->
              exists data,
                load_data (replay_folder cfg l c) (w_disk w) = inr data)
           /\ result_keys R = list_to_set (sweep_points cfg)
       | inl e =>
           exists l c,
             (l, c) ∈ sweep_points cfg
             /\ load_data (replay_folder cfg l c) (w_disk w) = inl e
       end.
Proof.
  destruct (replay_wavelengths_spec cfg (lambda0s cfg) ∅ w)
    as (r & Hrun & Hr).
  exists r. split; [done|].
  assert (forall l c, (l, c) ∈ sweep_points cfg
                      <-> l ∈ lambda0s cfg /\ c ∈ (crystal_hkls cfg).*1)
    as Hpts.
  { intros l c. unfold sweep_points. rewrite list_elem_of_bind. split.
    - intros (l' & Hin & Hl').
      by apply list_elem_of_fmap in Hin as (c' & [= -> ->] & Hc).
    - intros [Hl Hc]. exists l. split; [|done].
      apply list_elem_of_fmap. by exists c. }
  destruct r as [e|R].
  - destruct Hr as (l & c & Hl & Hc & Hload). exists l, c.
    split; [by apply Hpts|done].
  - destruct Hr as (Hall & Hshape). split.
    + intros l c [Hl Hc]%Hpts. by apply Hall.
    + apply result_keys_product. intros x. rewrite Hshape.
      by rewrite lookup_empty.
Qed.

End ReplayFacts.

(** *** Folders left by execute mode

    For a property [there] of a folder on disk (that it exists; that the
    loader reads it): under the contract that a simulator run that returns
    leaves the folder it was asked for with the property, and that neither
    a run nor [os.makedirs] takes the property from a folder, every folder
    of a sweep that ran through has it. *)

Section ExecuteDiskFacts.

Context {F Data : Type}.
Variable float : list byte -> option F.
Variable makedirs : string -> M disk unit.
Variable run_full_instrument :
  request -> gmap string (pm_value F) -> M disk Data.
Variable there : disk -> string -> Prop.

Hypothesis simulator_writes :
  forall rq sample d data d',
    run_full_instrument rq sample d = (inr data, d') ->
    there d' (rq_foldername rq).
Hypothesis simulator_keeps :
  forall rq sample d r d' folder,
    run_full_instrument rq sample d = (r, d') ->
    there d folder -> there d' folder.
Hypothesis makedirs_keeps :
  forall p d r d' folder,
    makedirs p d = (r, d') -> there d folder -> there d' folder.

Lemma run_on_sample_leaves cfg s h l nc m w r w' :
  run_on_sample float makedirs run_full_instrument cfg s h l nc m w
  = (r, w') ->
  (forall folder, there (w_disk w) folder -> there (w_disk w') folder)
  /\ (forall data, r = inr data -> there (w_disk w') (foldername cfg l s)).
Proof.
  unfold run_on_sample, bind, log, lift_disk, path_exists,
    set_parameters, simulate, ret, bind, log.
  simpl.
  destruct (_ || _);
    [|destruct (makedirs _ _) as [[e0|[]] d0] eqn:Hmk; simpl];
    try (match goal with
         | |- context [hkl_to_powdern_pms float h ?d] =>
             pose proof (hkl_to_powdern_pms_disk float h d) as Hd;
             destruct (hkl_to_powdern_pms float h d) as [[e|pms] d1];
             simpl in Hd; subst d1
         end); simpl;
    try (match goal with
         | |- context [run_full_instrument ?rq ?smp ?d] =>
             destruct (run_full_instrument rq smp d) as [[e|data] d2] eqn:Hsim
         end); simpl;
    intros [= <- <-]; simpl; (split; [|intros ? [= <-]]);
    first [ by eauto
          | match goal with
            | H : run_full_instrument _ _ _ = _ |- _ =>
                exact (simulator_writes _ _ _ _ _ H)
            end ].
Qed.

Lemma execute_samples_leaves cfg l items :
  forall (R : gmap Qc (gmap string Data)) w r w',
    execute_samples float makedirs run_full_instrument cfg l items R w
    = (r, w') ->
    (forall folder, there (w_disk w) folder -> there (w_disk w') folder)
    /\ (forall R', r = inr R' ->
          forall c, c ∈ items.*1 ->
            there (w_disk w') (foldername cfg l c)).
Proof.
  induction items as [|[crys hkl] items IH]; intros R w r w'.
  - simpl. intros [= <- <-]. split; [done|].
    intros R' _ c Hc. by apply elem_of_nil in Hc.
  - simpl. unfold bind at 1.
    destruct (run_on_sample _ _ _ cfg crys hkl l (ncount cfg) (mpi cfg) w)
      as [[e|data] w1] eqn:Hrun;
      apply run_on_sample_leaves in Hrun as [Hkeep1 Hnew1].
    + intros [= <- <-]. split; [done|]. by intros R' [=].
    + unfold bind at 1. unfold store_result at 1.
      destruct (R !! l) as [inner|].
      * intros Hrest. apply IH in Hrest as [Hkeep2 Hnew2].
        split; [by eauto|].
        intros R' HR' c [->|Hc]%elem_of_cons; [|by eauto].
        apply Hkeep2. by eapply Hnew1.
      * intros [= <- <-]. split; [done|]. by intros R' [=].
Qed.

Lemma execute_wavelengths_leaves cfg ls :
  forall (R : gmap Qc (gmap string Data)) w r w',
    execute_wavelengths float makedirs run_full_instrument cfg ls R w
    = (r, w') ->
    (forall folder, there (w_disk w) folder -> there (w_disk w') folder)
    /\ (forall R', r = inr R' ->
          forall l c, l ∈ ls -> c ∈ (crystal_hkls cfg).*1 ->
            there (w_disk w') (foldername cfg l c)).
Proof.
  induction ls as [|l ls IH]; intros R w r w'.
  - simpl. intros [= <- <-]. split; [done|].
    intros R' _ l c Hl. by apply elem_of_nil in Hl.
  - simpl. unfold bind at 1.
    destruct (execute_samples _ _ _ cfg l (crystal_hkls cfg) (<[l:=∅]> R) w)
      as [[e|R1] w1] eqn:Hrun;
      apply execute_samples_leaves in Hrun as [Hkeep1 Hnew1].
    + intros [= <- <-]. split; [done|]. by intros R' [=].
    + intros Hrest. apply IH in Hrest as [Hkeep2 Hnew2].
      split; [by eauto|].
      intros R' HR' l' c [->|Hl']%elem_of_cons Hc; [|by eauto].
      apply Hkeep2. by eapply Hnew1.
Qed.

Lemma execute_leaves_folders cfg w R w' :
  execute float makedirs run_full_instrument cfg w = (inr R, w') ->
  forall l c, (l, c) ∈ sweep_points cfg ->
    there (w_disk w') (foldername cfg l c).
Proof.
  intros Hrun l c Hpt.
  apply execute_wavelengths_leaves in Hrun as [_ Hnew].
  unfold sweep_points in Hpt.
  apply list_elem_of_bind in Hpt as (l' & Hin & Hl').
  apply list_elem_of_fmap in Hin as (c' & [= -> ->] & Hc). by eapply Hnew.
Qed.

End ExecuteDiskFacts.

(** The sample collaborators meet the contract. *)
Lemma demo_loader_readable d folder :
  readable demo_loader d folder <-> folder ∈ dirs d.
Proof.
  unfold readable, demo_loader. case_bool_decide; split; try done.
  - by eexists.
  - by intros [data [=]].
Qed.

Lemma demo_simulator_writes rq sample d data d' :
  demo_simulator rq sample d = (inr data, d') ->
  readable demo_loader d' (rq_foldername rq).
Proof.
  unfold demo_simulator. intros [= _ <-].
  apply demo_loader_readable. simpl. case_bool_decide; set_solver.
Qed.

Lemma demo_simulator_keeps rq sample d r d' folder :
  demo_simulator rq sample d = (r, d') ->
  readable demo_loader d folder -> readable demo_loader d' folder.
Proof.
  unfold demo_simulator. intros [= _ <-].
  rewrite !demo_loader_readable. simpl. set_solver.
Qed.

Lemma demo_makedirs_keeps p d r d' folder :
  demo_makedirs p d = (r, d') ->
  readable demo_loader d folder -> readable demo_loader d' folder.
Proof.
  unfold demo_makedirs. destruct (String.eqb p ""); intros [= _ <-]; [done|].
  rewrite !demo_loader_readable. simpl. set_solver.
Qed.

(** ** Claims about the sweep *)

(** The sample collaborators keep folders in place. *)
Example demo_keeps_folders :
  keeps_folders (F:=string) demo_makedirs demo_simulator
  /\ keeps_folders (F:=string) demo_makedirs mcstas_simulator.
Proof.
  assert (forall p d r d' q,
            demo_makedirs p d = (r, d') -> exists_on d q -> exists_on d' q)
    as Hmk.
  { intros p d r d' q. unfold demo_makedirs, exists_on.
    destruct (String.eqb p ""); intros [= _ <-]; [done|]. simpl.
    set_solver. }
  split; (split; [|split; [|done]]).
  - intros rq sample d data d'. unfold demo_simulator, exists_on.
    intros [= _ <-]. simpl. case_bool_decide; set_solver.
  - intros rq sample d r d' p. unfold demo_simulator, exists_on.
    intros [= _ <-]. simpl. set_solver.
  - intros rq sample d data d'. unfold mcstas_simulator, exists_on.
    destruct (_ && _); [done|]. intros [= _ <-]. simpl.
    case_bool_decide; set_solver.
  - intros rq sample d r d' p. unfold mcstas_simulator, exists_on.
    destruct (_ && _); [by intros [= _ <-]|]. intros [= _ <-]. simpl.
    intros [Hp|[x Hp]]; [left; set_solver|].
    right.
    destruct (decide (((if bool_decide (rq_foldername rq ∈ dirs d)
                        then next_free d (rq_foldername rq) 0
                               (size (dirs d))
                        else rq_foldername rq) ++ "/mccode.sim")%string
                      = p)) as [<-|Hne].
    + rewrite lookup_insert_eq. by eexists.
    + rewrite lookup_insert_ne by done. by eexists.
Qed.

(** C4, as amended: with wavelengths (1.0, 1.5) and samples a, b, a sweep
    that runs through in execute mode invokes the sample runner four times,
    for (1.0, a), (1.0, b), (1.5, a), (1.5, b) in this order, asks the
    simulator for the folders [prefix_1.0_a], [prefix_1.0_b],
    [prefix_1.5_a], [prefix_1.5_b] under the output folder, in this order,
    and returns a collection with these four keys.  When the simulator
    leaves the folder it is asked for in place and no collaborator removes
    a path, the four folders are on the disk afterwards: made by the
    simulator where there was none; a folder that was there before is not
    the one this run has written to. *)
Theorem execute_example {F Data} (float : list byte -> option F)
    (makedirs : string -> M disk unit)
    (run_full_instrument : request -> gmap string (pm_value F) -> M disk Data)
    (load_data : string -> disk -> exn + Data)
    (out pre post iname : string) (m : Z) (nc : Qc) (cols : list string)
    (w : world F) (R : gmap Qc (gmap string Data)) (w' : world F) :
  sweep float makedirs run_full_instrument load_data
    (Config out pre post true iname m nc [Q2Qc 1; Q2Qc (3 # 2)] cols
       [("a", "a.hkl"); ("b", "b.hkl")]) w = (inr R, w') ->
  exists evs,
    w_log w' = w_log w ++ evs
    /\ runner_calls evs
       = [ (Q2Qc 1, "a"); (Q2Qc 1, "b");
           (Q2Qc (3 # 2), "a"); (Q2Qc (3 # 2), "b") ]
    /\ requested_folders evs
       = [ (out ++ "/" ++ pre ++ "_1.0_a")%string;
           (out ++ "/" ++ pre ++ "_1.0_b")%string;
           (out ++ "/" ++ pre ++ "_1.5_a")%string;
           (out ++ "/" ++ pre ++ "_1.5_b")%string ]
    /\ result_keys R
       = {[ (Q2Qc 1, "a"); (Q2Qc 1, "b");
            (Q2Qc (3 # 2), "a"); (Q2Qc (3 # 2), "b") ]}
    /\ (keeps_folders makedirs run_full_instrument ->
        Forall (exists_on (w_disk w'))
          [ (out ++ "/" ++ pre ++ "_1.0_a")%string;
            (out ++ "/" ++ pre ++ "_1.0_b")%string;
            (out ++ "/" ++ pre ++ "_1.5_a")%string;
            (out ++ "/" ++ pre ++ "_1.5_b")%string ]).
Proof.
  unfold sweep. simpl. intros Hrun.
  pose proof Hrun as Hrun'.
  apply execute_spec in Hrun as (evs & Hlog & Hcalls & Hfolders & Hkeys).
  exists evs. split; [done|]. split; [done|]. split; [|split].
  - rewrite Hfolders. by vm_compute.
  - rewrite Hkeys. unfold sweep_points. simpl. set_solver.
  - intros (Hwrites & Hkeeps & Hdirs).
    pose proof (execute_leaves_folders float makedirs run_full_instrument
                  exists_on Hwrites Hkeeps Hdirs _ _ _ _ Hrun') as Hthere.
    assert (forall l c f,
              (l, c) ∈ [ (Q2Qc 1, "a"); (Q2Qc 1, "b");
                         (Q2Qc (3 # 2), "a"); (Q2Qc (3 # 2), "b") ] ->
              foldername
                (Config out pre post true iname m nc [Q2Qc 1; Q2Qc (3 # 2)]
                   cols [("a", "a.hkl"); ("b", "b.hkl")]) l c = f ->
              exists_on (w_disk w') f) as Hfour.
    { intros l c f Hpt <-. by apply Hthere. }
    repeat (apply Forall_cons_2; [|]); [..|apply Forall_nil_2].
    + apply (Hfour (Q2Qc 1) "a"); [set_solver|by vm_compute].
    + apply (Hfour (Q2Qc 1) "b"); [set_solver|by vm_compute].
    + apply (Hfour (Q2Qc (3 # 2)) "a"); [set_solver|by vm_compute].
    + apply (Hfour (Q2Qc (3 # 2)) "b"); [set_solver|by vm_compute].
Qed.

Lemma execute_example_witness :
  exists evs,
    w_log example_world_after = w_log example_world ++ evs
    /\ runner_calls evs
       = [ (Q2Qc 1, "a"); (Q2Qc 1, "b");
           (Q2Qc (3 # 2), "a"); (Q2Qc (3 # 2), "b") ]
    /\ requested_folders evs
       = [ "./results/prefix_1.0_a"; "./results/prefix_1.0_b";
           "./results/prefix_1.5_a"; "./results/prefix_1.5_b" ]
    /\ result_keys
         (<[Q2Qc (3 # 2) := {[ "a" := "./results/prefix_1.5_a";
                               "b" := "./results/prefix_1.5_b" ]}]>
          {[ Q2Qc 1 := {[ "a" := "./results/prefix_1.0_a";
                          "b" := "./results/prefix_1.0_b" ]} ]})
       = {[ (Q2Qc 1, "a"); (Q2Qc 1, "b");
            (Q2Qc (3 # 2), "a"); (Q2Qc (3 # 2), "b") ]}
    /\ (keeps_folders (F:=string) demo_makedirs demo_simulator ->
        Forall (exists_on (w_disk example_world_after))
          [ "./results/prefix_1.0_a"; "./results/prefix_1.0_b";
            "./results/prefix_1.5_a"; "./results/prefix_1.5_b" ]).
Proof.
  apply (execute_example token_float demo_makedirs demo_simulator demo_loader
           "./results" "prefix" "" "D2B_BananaTheta" 1 (Q2Qc 10000000)
           ["royalblue"; "olivedrab"] example_world).
  vm_compute. reflexivity.
Defined.

(** C4 fails as stated: the folders asked for are not always the folders
    produced.  With the folder of (1.0, a) there already, the sweep runs
    through, asks for the same four folders, and the simulator, asked to
    increment the folder name, writes the output of (1.0, a) to
    [prefix_1.0_a_0]: the folders the run has made are [prefix_1.0_a_0],
    [prefix_1.0_b], [prefix_1.5_a], [prefix_1.5_b], and nothing is written
    to [prefix_1.0_a]. *)
Lemma execute_example_stale_counterexample :
  (exists R,
     sweep token_float demo_makedirs mcstas_simulator mcstas_loader
       example_config stale_world = (inr R, stale_world_after)
     /\ (R !! Q2Qc 1) ≫= (.!! "a") = Some "./results/prefix_1.0_a_0")
  /\ requested_folders (w_log stale_world_after)
     = [ "./results/prefix_1.0_a"; "./results/prefix_1.0_b";
         "./results/prefix_1.5_a"; "./results/prefix_1.5_b" ]
  /\ dirs (w_disk stale_world_after) ∖ dirs (w_disk stale_world)
     = {[ "./results/prefix_1.0_a_0"; "./results/prefix_1.0_b";
          "./results/prefix_1.5_a"; "./results/prefix_1.5_b" ]}
  /\ ("./results/prefix_1.0_a"
      ∉ dirs (w_disk stale_world_after) ∖ dirs (w_disk stale_world))
  /\ files (w_disk stale_world_after) !! "./results/prefix_1.0_a/mccode.sim"
     = None
  /\ is_Some (files (w_disk stale_world_after)
                !! "./results/prefix_1.0_a_0/mccode.sim").
Proof.
  split.
  { eexists. split; [vm_compute; reflexivity|]. vm_compute. reflexivity. }
  split; [by vm_compute|].
  assert (dirs (w_disk stale_world_after)
          = {[ "./results"; "./results/prefix_1.0_a";
               "./results/prefix_1.0_a_0"; "./results/prefix_1.0_b";
               "./results/prefix_1.5_a"; "./results/prefix_1.5_b" ]}) as ->.
  { apply (bool_decide_unpack _). by vm_compute. }
  split; [|split; [|split]].
  - apply (bool_decide_unpack _). by vm_compute.
  - apply (bool_decide_unpack _). by vm_compute.
  - by vm_compute.
  - vm_compute. by eexists.
Qed.




(** C6, as amended: in replay mode, when the loader raises on the folder of
    some Sweep Point, the sweep raises and returns no collection; the
    exception is the one the loader raised on a Sweep Point's folder,
    passed on unchanged (the notebook has no DatasetNotFoundError and makes
    no existence check of its own), and the world is left as it was: the
    simulator is not invoked and nothing is written. *)
Theorem replay_missing_folder {F Data} (float : list byte -> option F)
    (makedirs : string -> M disk unit)
    (run_full_instrument : request -> gmap string (pm_value F) -> M disk Data)
    (load_data : string -> disk -> exn + Data)
    (cfg : config) (w : world F) l c e :
  (l, c) ∈ sweep_points cfg ->
  load_data (replay_folder cfg l c) (w_disk w) = inl e ->
  exists e' l' c',
    sweep float makedirs run_full_instrument load_data
      (set_run_simulation false cfg) w = (inl e', w)
    /\ (l', c') ∈ sweep_points cfg
    /\ load_data (replay_folder cfg l' c') (w_disk w) = inl e'.
Proof.
  unfold sweep. simpl. intros Hpt Hfail.
  destruct (replay_spec (F:=F) load_data (set_run_simulation false cfg) w)
    as (r & Hrun & Hr).
  destruct r as [e'|R].
  - destruct Hr as (l' & c' & Hpt' & Hfail'). by exists e', l', c'.
  - destruct Hr as [Hall _]. destruct (Hall l c Hpt) as [data Hdata].
    change (replay_folder (set_run_simulation false cfg) l c)
      with (replay_folder cfg l c) in Hdata.
    congruence.
Qed.

Lemma replay_missing_folder_witness :
  exists e' l' c',
    sweep token_float demo_makedirs demo_simulator demo_loader
      (set_run_simulation false example_config) example_world
    = (inl e', example_world)
    /\ (l', c') ∈ sweep_points example_config
    /\ demo_loader (replay_folder example_config l' c')
         (w_disk example_world) = inl e'.
Proof.
  apply (replay_missing_folder token_float demo_makedirs demo_simulator
             demo_loader
           example_config example_world (Q2Qc (3 # 2)) "b"
           (ExternalError "NameError" "Given data directory does not exist.")).
  - vm_compute. set_solver.
  - vm_compute. reflexivity.
Defined.

(** C6 fails as stated: with no output folder on disk, the sweep in replay
    mode raises what the loader raised, here a NameError that does not hold
    the folder path, not a DatasetNotFoundError; and with a loader that
    answers an empty dataset for a missing folder, replay returns a
    collection of empty datasets. *)
Lemma replay_missing_folder_counterexample :
  ("./results/prefix_1.0_a" ∉ dirs (w_disk example_world))
  /\ replay_folder example_config (Q2Qc 1) "a" = "./results/prefix_1.0_a"
  /\ sweep token_float demo_makedirs demo_simulator demo_loader
       (set_run_simulation false example_config) example_world
     = (inl (ExternalError "NameError" "Given data directory does not exist."),
        example_world)
  /\ exn_class (ExternalError "NameError"
                  "Given data directory does not exist.")
     <> "DatasetNotFoundError"
  /\ sweep token_float demo_makedirs demo_simulator lenient_loader
       (set_run_simulation false example_config) example_world
     = (inr (<[Q2Qc (3 # 2) := {[ "a" := ""; "b" := "" ]}]>
             {[ Q2Qc 1 := {[ "a" := ""; "b" := "" ]} ]}),
        example_world).
Proof.
  split; [simpl; set_solver|]. split; [by vm_compute|].
  split; [by vm_compute|]. split; [done|]. by vm_compute.
Qed.

(** ** The plotter *)

Section PlotFacts.

Context {Data : Type}.
Variable name_search : string -> Data -> exn + pattern.

Lemma keeps_globals_bind {A B} (m : M (frame Data) A)
    (k : A -> M (frame Data) B) :
  keeps_globals m -> (forall a, keeps_globals (k a)) ->
  keeps_globals (bind m k).
Proof.
  intros Hm Hk fr. unfold bind. specialize (Hm fr).
  destruct (m fr) as [[e|a] fr1]; simpl in *; [done|]. by rewrite Hk.
Qed.

Lemma keeps_globals_ret {A} (a : A) : keeps_globals (Data:=Data) (ret a).
Proof. by intros fr. Qed.

Lemma keeps_globals_ld x : keeps_globals (ld (Data:=Data) x).
Proof. intros fr. unfold ld, load_name. by repeat case_match. Qed.

(** Binding a name of the function's own leaves the module's names. *)
Lemma keeps_globals_st x v :
  x ∈ plot_diffr_locals -> keeps_globals (st (Data:=Data) x v).
Proof. intros Hx fr. unfold st, store_name. by rewrite decide_True. Qed.

Lemma keeps_globals_draw c : keeps_globals (draw (Data:=Data) c).
Proof. by intros fr. Qed.

Lemma keeps_globals_of_result {A} (r : exn + A) :
  keeps_globals (of_result (Data:=Data) r).
Proof. by intros fr. Qed.

(** A name outside the function's own is bound in the module: this is
    what a [global ncount] statement in the body would have brought about. *)
Lemma store_name_global (scope : gset string) x v (fr : frame Data) :
  x ∉ scope ->
  fr_globals (store_name scope x v fr).2 !! x = Some v.
Proof.
  intros Hx. unfold store_name. rewrite decide_False by done.
  apply lookup_insert_eq.
Qed.

Ltac local_name := apply (bool_decide_unpack _); by vm_compute.

Ltac keeps :=
  repeat match goal with
         | |- keeps_globals (bind _ _) =>
             apply keeps_globals_bind; [|intros ?]
         | |- keeps_globals (ld _) => apply keeps_globals_ld
         | |- keeps_globals (st _ _) => apply keeps_globals_st; local_name
         | |- keeps_globals (draw _) => apply keeps_globals_draw
         | |- keeps_globals (of_result _) => apply keeps_globals_of_result
         | |- keeps_globals (ret _) => apply keeps_globals_ret
         end.

Lemma plot_sample_keeps_globals i crys :
  keeps_globals (plot_sample name_search i crys).
Proof. unfold plot_sample. keeps. Qed.

Lemma plot_samples_keeps_globals i cs :
  keeps_globals (plot_samples name_search i cs).
Proof.
  revert i. induction cs as [|c cs IH]; intros i; simpl.
  - apply keeps_globals_ret.
  - apply keeps_globals_bind; [apply plot_sample_keeps_globals|done].
Qed.

Lemma plot_wavelength_keeps_globals l :
  keeps_globals (plot_wavelength name_search l).
Proof.
  unfold plot_wavelength. keeps. apply plot_samples_keeps_globals.
Qed.

Lemma plot_wavelengths_keeps_globals ls :
  keeps_globals (plot_wavelengths name_search ls).
Proof.
  induction ls as [|l ls IH]; simpl.
  - apply keeps_globals_ret.
  - apply keeps_globals_bind; [apply plot_wavelength_keeps_globals|done].
Qed.

Lemma plot_diffr_body_keeps_globals :
  keeps_globals (plot_diffr_body name_search).
Proof.
  unfold plot_diffr_body. keeps. apply plot_wavelengths_keeps_globals.
Qed.

End PlotFacts.

(** C9, as amended: [plot_diffr] binds [pattern.Ncount] to a name [ncount]
    of its own; every name of the module, the sweep configuration's
    [ncount] among them, holds after the call what it held before, whether
    the call returns or raises. *)
Theorem plot_diffr_keeps_ncount {Data}
    (name_search : string -> Data -> exn + pattern)
    (crystals_to_plot : list string) (fr : frame Data) :
  "ncount" ∈ plot_diffr_locals
  /\ fr_globals (plot_diffr name_search crystals_to_plot fr).2 = fr_globals fr
  /\ fr_globals (plot_diffr name_search crystals_to_plot fr).2 !! "ncount"
     = fr_globals fr !! "ncount".
Proof.
  split; [apply (bool_decide_unpack _); by vm_compute|].
  assert (fr_globals (plot_diffr name_search crystals_to_plot fr).2
          = fr_globals fr) as H; [|by rewrite H].
  unfold plot_diffr.
  pose proof (plot_diffr_body_keeps_globals name_search
    (Frame (fr_globals fr)
       {[ "crystals_to_plot" := VSeq (VStr <$> crystals_to_plot) ]}
       (fr_canvas fr))) as Hk.
  by destruct (plot_diffr_body name_search _) as [r fr'].
Qed.

(** C9 fails as stated: a call that plots a dataset whose ray counts are
    [5; 7] returns, draws, and leaves the module's [ncount] at the
    configured 1e7. *)
Lemma plot_diffr_overwrites_ncount_counterexample :
  (plot_diffr demo_name_search ["c16"] demo_frame).1 = inr tt
  /\ CallPlot (VArray (xaxis demo_pattern)) (VArray (Intensity demo_pattern))
       (VStr "royalblue") (VStr "c16")
     ∈ fr_canvas (plot_diffr demo_name_search ["c16"] demo_frame).2
  /\ fr_globals demo_frame !! "ncount" = Some (VFloat (Q2Qc 10000000))
  /\ fr_globals (plot_diffr demo_name_search ["c16"] demo_frame).2 !! "ncount"
     = Some (VFloat (Q2Qc 10000000))
  /\ fr_globals (plot_diffr demo_name_search ["c16"] demo_frame).2 !! "ncount"
     <> Some (VArray (Ncount demo_pattern)).
Proof.
  split; [by vm_compute|]. split; [vm_compute; set_solver|].
  split; [by vm_compute|].
  assert (fr_globals (plot_diffr demo_name_search ["c16"] demo_frame).2
            !! "ncount" = Some (VFloat (Q2Qc 10000000))) as H
    by (by vm_compute).
  split; [done|]. by rewrite H.
Qed.

(** ** The conversion cell *)

Example posixpath_values :
  (fun p => (basename p, splitext (basename p), hkl_file_of "./hkl" p))
    <$> [ "cifs/c16.cif"; "c16"; "a/.cif"; "a/..x.cif"; "a/b.tar.gz";
          "x/..."; "a/"; "a/b." ]
  = [ ("c16.cif", ("c16", ".cif"), "./hkl/c16.hkl");
      ("c16", ("c16", ""), "./hkl/c16.hkl");
      (".cif", (".cif", ""), "./hkl/.cif.hkl");
      ("..x.cif", ("..x", ".cif"), "./hkl/..x.hkl");
      ("b.tar.gz", ("b.tar", ".gz"), "./hkl/b.tar.hkl");
      ("...", ("...", ""), "./hkl/....hkl");
      ("", ("", ""), "./hkl/.hkl");
      ("b.", ("b", "."), "./hkl/b.hkl") ].
Proof. by vm_compute. Qed.

Example path_join_values :
  [ path_join "" "a"; path_join "h/" "a"; path_join "h" "/a";
    path_join "h" "" ]
  = [ "a"; "h/a"; "/a"; "h/" ].
Proof. by vm_compute. Qed.

Lemma rfind_notin c s : c ∉ s -> rfind c s = None.
Proof.
  induction s as [|a s IH]; [done|]. intros [Hne Hs]%not_elem_of_cons.
  simpl. rewrite IH by done.
  destruct (Ascii.eqb_spec a c); [by subst|done].
Qed.

Lemma rfind_app_last c a b : c ∉ b -> rfind c (a ++ c :: b) = Some (length a).
Proof.
  intros Hb. induction a as [|x a IH]; simpl.
  - by rewrite rfind_notin, Ascii.eqb_refl.
  - by rewrite IH.
Qed.

Lemma chars_of_chars cs :
  String.list_ascii_of_string (String.string_of_list_ascii cs) = cs.
Proof. apply String.list_ascii_of_string_of_list_ascii. Qed.

Lemma basename_plain base :
  "/"%char ∉ String.list_ascii_of_string base -> basename base = base.
Proof.
  intros H. unfold basename. rewrite rfind_notin by done. simpl.
  apply String.string_of_list_ascii_of_string.
Qed.

Lemma basename_dir dir base :
  "/"%char ∉ String.list_ascii_of_string base ->
  basename (dir ++ "/" ++ base) = base.
Proof.
  intros H. unfold basename. rewrite !chars_app. simpl.
  rewrite rfind_app_last by done. simpl.
  replace (Z.to_nat (Z.of_nat (length (String.list_ascii_of_string dir)) + 1))
    with (length (String.list_ascii_of_string dir ++ ["/"%char]))
    by (rewrite length_app; simpl; lia).
  replace (String.list_ascii_of_string dir
           ++ "/"%char :: String.list_ascii_of_string base)
    with ((String.list_ascii_of_string dir ++ ["/"%char])
          ++ String.list_ascii_of_string base)
    by (by rewrite <- app_assoc).
  rewrite drop_app_length.
  apply String.string_of_list_ascii_of_string.
Qed.

Lemma splitext_no_dot base :
  "."%char ∉ String.list_ascii_of_string base -> splitext base = (base, "").
Proof.
  intros H. unfold splitext. rewrite (rfind_notin "." _ H). simpl.
  destruct (rfind "/" _); simpl; [|done].
  by destruct (_ <? _)%Z eqn:Hlt; [apply Z.ltb_lt in Hlt; lia|].
Qed.

Lemma splitext_ext stem ext :
  "/"%char ∉ String.list_ascii_of_string stem ->
  (exists c, c ∈ String.list_ascii_of_string stem /\ c <> "."%char) ->
  "/"%char ∉ String.list_ascii_of_string ext ->
  "."%char ∉ String.list_ascii_of_string ext ->
  splitext (stem ++ "." ++ ext) = (stem, ("." ++ ext)%string).
Proof.
  intros Hs (c & Hc & Hdot) He1 He2. unfold splitext.
  rewrite !chars_app. simpl.
  rewrite (rfind_app_last "." _ _ He2).
  rewrite (rfind_notin "/");
    [|rewrite not_elem_of_app, not_elem_of_cons; by repeat split].
  simpl. rewrite Nat2Z.id, Nat.sub_0_r, drop_0.
  rewrite take_app_length, drop_app_length.
  assert (existsb (fun c => negb (Ascii.eqb c "."))
            (String.list_ascii_of_string stem) = true) as ->.
  { apply existsb_exists. exists c. split; [by apply list_elem_of_In|].
    apply negb_true_iff. by apply Ascii.eqb_neq. }
  destruct (_ <? _)%Z eqn:Hlt; [|apply Z.ltb_ge in Hlt; lia].
  f_equal; [apply String.string_of_list_ascii_of_string|].
  change ("."%char :: String.list_ascii_of_string ext)
    with (String.list_ascii_of_string ("." ++ ext)%string).
  apply String.string_of_list_ascii_of_string.
Qed.

Lemma path_join_plain folder name c :
  last (String.list_ascii_of_string folder) = Some c -> c <> "/"%char ->
  head (String.list_ascii_of_string name) <> Some "/"%char ->
  path_join folder name = (folder ++ "/" ++ name)%string.
Proof.
  intros Hlast Hc Hhead. unfold path_join. rewrite Hlast.
  apply Ascii.eqb_neq in Hc. rewrite Hc.
  destruct (String.list_ascii_of_string name) as [|a cs]; [done|].
  destruct (Ascii.eqb_spec a "/"); [|done]. subst. by simpl in Hhead.
Qed.

(** X1: the HKL file of a structure [<dir>/<stem>.<ext>] is
    [<hkl_folder>/<stem>.hkl]: the directory of the CIF file and its
    extension are dropped, whatever the extension is. *)
Theorem hkl_file_of_structure folder pre stem ext c :
  last (String.list_ascii_of_string folder) = Some c -> c <> "/"%char ->
  pre = "" \/ last (String.list_ascii_of_string pre) = Some "/"%char ->
  "/"%char ∉ String.list_ascii_of_string stem ->
  (exists a, a ∈ String.list_ascii_of_string stem /\ a <> "."%char) ->
  "/"%char ∉ String.list_ascii_of_string ext ->
  "."%char ∉ String.list_ascii_of_string ext ->
  hkl_file_of folder (pre ++ stem ++ "." ++ ext)
  = (folder ++ "/" ++ stem ++ ".hkl")%string.
Proof.
  intros Hlast Hc Hpre Hs Hne He1 He2. unfold hkl_file_of.
  assert (basename (pre ++ stem ++ "." ++ ext) = (stem ++ "." ++ ext)%string)
    as ->.
  { assert ("/"%char ∉ String.list_ascii_of_string (stem ++ "." ++ ext)%string)
      as Hbase.
    { rewrite !chars_app. simpl.
      rewrite not_elem_of_app, not_elem_of_cons. by repeat split. }
    destruct Hpre as [->|Hpre]; [by apply basename_plain|].
    destruct (String.list_ascii_of_string pre) as [|x cs] eqn:Hcs
      using rev_ind; [done|]. clear IHcs.
    rewrite last_snoc in Hpre. simplify_eq.
    assert (pre = (String.string_of_list_ascii cs ++ "/")%string) as ->.
    { apply chars_inj. rewrite Hcs, chars_app, chars_of_chars. done. }
    rewrite <- (basename_dir (String.string_of_list_ascii cs) _ Hbase) at 2.
    f_equal. apply chars_inj. rewrite !chars_app. simpl.
    by rewrite <- !app_assoc. }
  rewrite splitext_ext by done. simpl.
  apply (path_join_plain _ _ c); [done..|].
  rewrite chars_app. destruct Hne as (a & Ha & _).
  destruct (String.list_ascii_of_string stem) as [|b cs]; [by apply elem_of_nil in Ha|].
  simpl. intros [= ->]. apply Hs. apply elem_of_cons. by left.
Qed.

Lemma dict_set_fresh d k v :
  k ∉ d.*1 -> dict_set d k v = d ++ [(k, v)].
Proof.
  induction d as [|[k' v'] d IH]; [done|]. simpl.
  intros [Hne Hk]%not_elem_of_cons.
  destruct (String.eqb_spec k' k); [by subst|]. by rewrite IH.
Qed.

Section ConvertFacts.

Variable system : string -> disk -> Z * disk.
Variable makedirs : string -> M disk unit.

Lemma ensure_folder_run p s :
  exists r d,
    ensure_folder makedirs p s = (r, Shell d (sh_commands s))
    /\ forall e, r = inl e -> (makedirs p (sh_disk s)).1 = inl e.
Proof.
  unfold ensure_folder, bind, on_disk, path_exists, ret. simpl.
  destruct (_ || _); simpl.
  - exists (inr tt), (sh_disk s). by destruct s.
  - destruct (makedirs p (sh_disk s)) as [r d]. by exists r, d.
Qed.

Lemma convert_items_run path folder items :
  forall acc s,
    NoDup (acc.*1 ++ items.*1) ->
    exists r d handled,
      convert_items system makedirs path folder items acc s
      = (r, Shell d
              (sh_commands s
               ++ ((fun nc => cif2hkl_command path (hkl_file_of folder nc.2)
                                nc.2) <$> handled)))
      /\ handled `prefix_of` items
      /\ match r with
         | inr hkls =>
             handled = items
             /\ hkls
                = acc ++ ((fun nc => (nc.1, hkl_file_of folder nc.2))
                            <$> items)
         | inl e =>
             length handled < length items
             /\ ((exists d0, (makedirs folder d0).1 = inl e)
                 \/ (e = ValueError EmbeddedNullByte
                     /\ exists nc,
                          nc ∈ items
                          /\ has_nul (cif2hkl_command path
                                        (hkl_file_of folder nc.2) nc.2)
                             = true))
         end.
Proof.
  induction items as [|[name cif] items IH]; intros acc s Hnd.
  - simpl. exists (inr acc), (sh_disk s), []. rewrite !app_nil_r.
    split; [by destruct s|]. by split.
  - simpl. unfold bind at 1.
    destruct (ensure_folder_run folder s) as (r1 & d1 & -> & Hr1).
    destruct r1 as [e1|[]].
    { exists (inl e1), d1, []. simpl. rewrite app_nil_r.
      split; [done|]. split; [apply prefix_nil|]. split; [lia|].
      left. exists (sh_disk s). by apply Hr1. }
    unfold bind at 1, os_system at 1. cbn [sh_disk sh_commands].
    fold (hkl_file_of folder cif).
    destruct (has_nul (cif2hkl_command path (hkl_file_of folder cif) cif))
      eqn:Hnul.
    { exists (inl (ValueError EmbeddedNullByte)), d1, []. simpl.
      rewrite app_nil_r. split; [done|]. split; [apply prefix_nil|].
      split; [lia|]. right. split; [done|]. exists (name, cif).
      split; [apply elem_of_cons; by left|done]. }
    destruct (system _ d1) as [status d2] eqn:Hsys.
    simpl in Hnd. apply NoDup_app in Hnd as (Hacc & Hdisj & Hitems).
    apply NoDup_cons in Hitems as [Hname Hitems].
    rewrite dict_set_fresh
      by (intros Hin; by apply (Hdisj name Hin), elem_of_cons; left).
    destruct (IH (acc ++ [(name, hkl_file_of folder cif)])
                 (Shell d2 (sh_commands s
                     ++ [cif2hkl_command path (hkl_file_of folder cif) cif])))
      as (r & d & handled & Hrun & Hpre & Hr).
    { rewrite fmap_app. simpl. rewrite <- app_assoc. simpl.
      apply NoDup_app. split; [done|]. split; [|by apply NoDup_cons].
      intros x Hx. apply Hdisj in Hx. set_solver. }
    exists r, d, ((name, cif) :: handled). rewrite Hrun. simpl.
    rewrite <- !app_assoc. split; [done|].
    split; [by apply prefix_cons|].
    destruct r as [e|hkls].
    + destruct Hr as [Hlen Hwhy]. split; [simpl; lia|].
      destruct Hwhy as [?|(-> & nc & Hnc & Hz)]; [by left|].
      right. split; [done|]. exists nc.
      split; [apply elem_of_cons; by right|done].
    + destruct Hr as [-> ->]. split; [done|]. by rewrite <- app_assoc.
Qed.

End ConvertFacts.

Lemma hkl_file_of_structure_witness :
  hkl_file_of "./hkl" ("cifs/" ++ "c14b2a" ++ "." ++ "cif")
  = ("./hkl" ++ "/" ++ "c14b2a" ++ ".hkl")%string.
Proof.
  apply (hkl_file_of_structure "./hkl" "cifs/" "c14b2a" "cif" "l"%char).
  - reflexivity.
  - discriminate.
  - right. reflexivity.
  - vm_compute. set_solver.
  - exists "c"%char. split; [vm_compute; set_solver|discriminate].
  - vm_compute. set_solver.
  - vm_compute. set_solver.
Defined.

(** X2: the HKL file depends on the base name of the CIF file only: two
    structure files of the same name in different directories are
    converted to one and the same HKL file. *)
Theorem hkl_file_of_same_base_name folder dir1 dir2 base :
  "/"%char ∉ String.list_ascii_of_string base ->
  hkl_file_of folder (dir1 ++ "/" ++ base)
  = hkl_file_of folder (dir2 ++ "/" ++ base)
  /\ hkl_file_of folder (dir1 ++ "/" ++ base) = hkl_file_of folder base.
Proof.
  intros H. unfold hkl_file_of.
  by rewrite !basename_dir, basename_plain.
Qed.

Lemma hkl_file_of_same_base_name_witness :
  hkl_file_of "./hkl" ("relaxed" ++ "/" ++ "c16.cif")
  = hkl_file_of "./hkl" ("initial" ++ "/" ++ "c16.cif")
  /\ hkl_file_of "./hkl" ("relaxed" ++ "/" ++ "c16.cif")
     = hkl_file_of "./hkl" "c16.cif".
Proof.
  apply (hkl_file_of_same_base_name "./hkl" "relaxed" "initial" "c16.cif").
  vm_compute. set_solver.
Defined.

(** X3: the conversion cell never looks at the converter's exit status.
    When it returns, it has handed the shell one cif2hkl command per
    structure, in the order of [crystal_cifs], and [crystal_hkls] has one
    entry per structure, in the same order, bound to the HKL path computed
    from the CIF path, whether or not that file was written.  It raises
    only what [os.makedirs] raises on the HKL folder, or the ValueError of
    [os.system] on a command that holds a NUL, and the shell has then been
    handed the commands of the structures before that point only.  When
    [os.makedirs] does not raise on the HKL folder and no command holds a
    NUL, it returns. *)
Theorem convert_structures_result (system : string -> disk -> Z * disk)
    (makedirs : string -> M disk unit)
    path_to_cif2hkl hkl_folder crystal_cifs s :
  NoDup crystal_cifs.*1 ->
  (exists handled,
     handled `prefix_of` crystal_cifs
     /\ sh_commands
          (convert_structures system makedirs path_to_cif2hkl hkl_folder
             crystal_cifs s).2
        = sh_commands s
          ++ ((fun nc => cif2hkl_command path_to_cif2hkl
                           (hkl_file_of hkl_folder nc.2) nc.2) <$> handled)
     /\ match (convert_structures system makedirs path_to_cif2hkl hkl_folder
                 crystal_cifs s).1 with
        | inr hkls =>
            handled = crystal_cifs
            /\ hkls = (fun nc => (nc.1, hkl_file_of hkl_folder nc.2))
                        <$> crystal_cifs
        | inl e =>
            (exists d, (makedirs hkl_folder d).1 = inl e)
            \/ (e = ValueError EmbeddedNullByte
                /\ exists nc,
                     nc ∈ crystal_cifs
                     /\ has_nul (cif2hkl_command path_to_cif2hkl
                                   (hkl_file_of hkl_folder nc.2) nc.2)
                        = true)
        end)
  /\ ((forall d e, (makedirs hkl_folder d).1 <> inl e) ->
      (forall nc, nc ∈ crystal_cifs ->
         has_nul (cif2hkl_command path_to_cif2hkl
                    (hkl_file_of hkl_folder nc.2) nc.2) = false) ->
      exists hkls,
        (convert_structures system makedirs path_to_cif2hkl hkl_folder
           crystal_cifs s).1 = inr hkls).
Proof.
  intros Hnd.
  assert (exists handled,
     handled `prefix_of` crystal_cifs
     /\ sh_commands
          (convert_structures system makedirs path_to_cif2hkl hkl_folder
             crystal_cifs s).2
        = sh_commands s
          ++ ((fun nc => cif2hkl_command path_to_cif2hkl
                           (hkl_file_of hkl_folder nc.2) nc.2) <$> handled)
     /\ match (convert_structures system makedirs path_to_cif2hkl hkl_folder
                 crystal_cifs s).1 with
        | inr hkls =>
            handled = crystal_cifs
            /\ hkls = (fun nc => (nc.1, hkl_file_of hkl_folder nc.2))
                        <$> crystal_cifs
        | inl e =>
            (exists d, (makedirs hkl_folder d).1 = inl e)
            \/ (e = ValueError EmbeddedNullByte
                /\ exists nc,
                     nc ∈ crystal_cifs
                     /\ has_nul (cif2hkl_command path_to_cif2hkl
                                   (hkl_file_of hkl_folder nc.2) nc.2)
                        = true)
        end) as Hrun.
  { unfold convert_structures, bind.
    destruct (ensure_folder_run makedirs hkl_folder s)
      as (r1 & d1 & -> & Hr1).
    destruct r1 as [e1|[]].
    - exists []. simpl. rewrite app_nil_r. split; [apply prefix_nil|].
      split; [done|]. left. exists (sh_disk s). by apply Hr1.
    - destruct (convert_items_run system makedirs path_to_cif2hkl hkl_folder
                  crystal_cifs [] (Shell d1 (sh_commands s)) Hnd)
        as (r & d & handled & -> & Hpre & Hr).
      exists handled. split; [done|]. split; [done|].
      simpl. destruct r as [e|hkls]; [by destruct Hr|done]. }
  split; [done|].
  intros Hmk Hnul. destruct Hrun as (handled & _ & _ & Hr).
  destruct (convert_structures system makedirs path_to_cif2hkl hkl_folder
              crystal_cifs s).1 as [e|hkls]; [|by eexists].
  destruct Hr as [[d Hd]|(_ & nc & Hnc & Hz)].
  - by destruct (Hmk d e).
  - rewrite Hnul in Hz by done. done.
Qed.

Lemma convert_structures_result_witness :
  (exists handled,
     handled `prefix_of` notebook_crystal_cifs
     /\ sh_commands
          (convert_structures failing_converter demo_makedirs "./cif2hkl"
             "./hkl" notebook_crystal_cifs (Shell (Disk ∅ ∅) [])).2
        = sh_commands (Shell (Disk ∅ ∅) [])
          ++ ((fun nc => cif2hkl_command "./cif2hkl"
                           (hkl_file_of "./hkl" nc.2) nc.2) <$> handled)
     /\ match (convert_structures failing_converter demo_makedirs
                 "./cif2hkl" "./hkl" notebook_crystal_cifs
                 (Shell (Disk ∅ ∅) [])).1 with
        | inr hkls =>
            handled = notebook_crystal_cifs
            /\ hkls = (fun nc => (nc.1, hkl_file_of "./hkl" nc.2))
                        <$> notebook_crystal_cifs
        | inl e =>
            (exists d, (demo_makedirs "./hkl" d).1 = inl e)
            \/ (e = ValueError EmbeddedNullByte
                /\ exists nc,
                     nc ∈ notebook_crystal_cifs
                     /\ has_nul (cif2hkl_command "./cif2hkl"
                                   (hkl_file_of "./hkl" nc.2) nc.2)
                        = true)
        end)
  /\ ((forall d e, (demo_makedirs "./hkl" d).1 <> inl e) ->
      (forall nc, nc ∈ notebook_crystal_cifs ->
         has_nul (cif2hkl_command "./cif2hkl"
                    (hkl_file_of "./hkl" nc.2) nc.2) = false) ->
      exists hkls,
        (convert_structures failing_converter demo_makedirs "./cif2hkl"
           "./hkl" notebook_crystal_cifs (Shell (Disk ∅ ∅) [])).1
        = inr hkls).
Proof.
  apply (convert_structures_result failing_converter demo_makedirs
           "./cif2hkl" "./hkl" notebook_crystal_cifs (Shell (Disk ∅ ∅) [])).
  apply (bool_decide_unpack _). vm_compute. exact I.
Defined.

(** The notebook's structures give the sample table of its sweep. *)
Example notebook_crystal_hkls :
  (convert_structures failing_converter demo_makedirs "./cif2hkl" "./hkl"
     notebook_crystal_cifs (Shell (Disk ∅ ∅) [])).1
  = inr (crystal_hkls notebook_config)
  /\ sh_commands
       (convert_structures failing_converter demo_makedirs "./cif2hkl"
          "./hkl" notebook_crystal_cifs (Shell (Disk ∅ ∅) [])).2
     !! 0%nat
     = Some "./cif2hkl --powder -o ./hkl/c16.hkl cifs/c16.cif".
Proof. by vm_compute. Qed.

(** ** More on the reader *)

Lemma split_tokens l :
  Forall (fun t => nonempty t = true /\ no_space t = true) (split l).
Proof.
  induction l as [|b l IH]; [constructor|].
  destruct l as [|b2 l].
  - simpl. destruct (is_space b) eqn:Hb; repeat constructor. simpl.
    by rewrite Hb.
  - change (split (b :: b2 :: l))
      with (if is_space b then split (b2 :: l)
            else if is_space b2 then [b] :: split (b2 :: l)
            else match split (b2 :: l) with
                 | t :: ts => (b :: t) :: ts
                 | [] => [[b]]
                 end).
    destruct (is_space b) eqn:Hb; [done|].
    destruct (is_space b2) eqn:Hb2.
    + constructor; [|done]. simpl. by rewrite Hb.
    + destruct (split (b2 :: l)) as [|t ts].
      * repeat constructor. simpl. by rewrite Hb.
      * apply Forall_cons in IH as [[Ht1 Ht2] Hts]. constructor; [|done].
        simpl. by rewrite Hb, Ht2.
Qed.

Lemma split_concat l :
  mjoin (split l) = filter (fun b => is_space b = false) l.
Proof.
  induction l as [|b l IH]; [done|].
  destruct l as [|b2 l].
  - simpl. rewrite filter_cons, filter_nil.
    destruct (is_space b) eqn:Hb; by case_decide.
  - change (split (b :: b2 :: l))
      with (if is_space b then split (b2 :: l)
            else if is_space b2 then [b] :: split (b2 :: l)
            else match split (b2 :: l) with
                 | t :: ts => (b :: t) :: ts
                 | [] => [[b]]
                 end).
    rewrite (filter_cons _ b). destruct (is_space b) eqn:Hb.
    + by rewrite decide_False by done.
    + rewrite decide_True by done. destruct (is_space b2) eqn:Hb2.
      * simpl. by rewrite <- IH.
      * rewrite <- IH. by destruct (split (b2 :: l)).
Qed.

(** X4: [strip()] before [split()] changes nothing, and the tokens of a
    line are its maximal runs of non-blank bytes: none is empty, none holds
    a blank, and together they are the non-blank bytes of the line, in
    order. *)
Theorem line_tokens (line : list byte) :
  split (strip line) = split line
  /\ Forall (fun t => nonempty t = true /\ no_space t = true) (split line)
  /\ mjoin (split line) = filter (fun b => is_space b = false) line.
Proof.
  split; [apply split_strip|]. split; [apply split_tokens|apply split_concat].
Qed.

Lemma starts_with_length sub data :
  starts_with sub data = true -> length sub <= length data.
Proof.
  revert data. induction sub as [|a sub IH]; intros [|b data]; simpl;
    try done; try lia.
  intros [_ H]%andb_prop. apply IH in H. lia.
Qed.

Lemma find_at_Some sub data i j :
  find_at sub data i = Some j ->
  i <= j
  /\ starts_with sub (drop (j - i) data) = true
  /\ forall k, k < j - i -> starts_with sub (drop k data) = false.
Proof.
  revert i. induction data as [|b data IH]; intros i; simpl.
  - destruct (starts_with sub []) eqn:Hs; [|done].
    intros [= <-]. rewrite Nat.sub_diag. repeat split; [done..|]. lia.
  - destruct (starts_with sub (b :: data)) eqn:Hs.
    + intros [= <-]. rewrite Nat.sub_diag. repeat split; [done..|]. lia.
    + intros H. apply IH in H as (Hle & H & Hnone). split; [lia|].
      replace (j - i) with (S (j - S i)) by lia. split; [done|].
      intros [|k] Hk; [done|]. simpl. apply Hnone. lia.
Qed.

Lemma find_at_intro sub data i n :
  starts_with sub (drop n data) = true ->
  (forall k, k < n -> starts_with sub (drop k data) = false) ->
  find_at sub data i = Some (i + n).
Proof.
  revert data i. induction n as [|n IH]; intros data i Hn Hnone.
  - rewrite drop_0 in Hn. rewrite find_at_eq, Hn. f_equal. lia.
  - pose proof (Hnone 0 ltac:(lia)) as H0. rewrite drop_0 in H0.
    destruct data as [|b data]; [simpl in Hn; congruence|].
    rewrite find_at_eq, H0. rewrite (IH data (S i)); [f_equal; lia|done|].
    intros k Hk. apply (Hnone (S k)). lia.
Qed.

Lemma read_line_nonempty data : data <> [] -> read_line data <> [].
Proof. destruct data as [|b data]; [done|]. simpl. by case_match. Qed.

Lemma starts_with_nonempty sub data :
  sub <> [] -> starts_with sub data = true -> data <> [].
Proof. by destruct sub, data. Qed.

Section ReaderMore.

Context {F : Type}.
Variable float : list byte -> option F.

(** What a turn of the loop that returns has done. *)
Lemma read_param_scan pm vals mm vals' mm' :
  read_param float pm vals mm = (inr vals', mm') ->
  exists i tok x,
    Mmap.pos mm <= i
    /\ starts_with (encode pm) (drop i (Mmap.buf mm)) = true
    /\ (forall k, Mmap.pos mm <= k < i ->
          starts_with (encode pm) (drop k (Mmap.buf mm)) = false)
    /\ value_token (Mmap.buf mm) i = Some tok
    /\ float tok = Some x
    /\ vals' = <[pm := x]> vals
    /\ mm' = Mmap.Make (Mmap.buf mm)
               (i + length (read_line (drop i (Mmap.buf mm)))).
Proof.
  unfold read_param, bind, Mmap.find, value_token. simpl.
  destruct (find_at (encode pm) (drop (Mmap.pos mm) (Mmap.buf mm))
              (Mmap.pos mm)) as [j|] eqn:Hfind.
  - apply find_at_Some in Hfind as (Hle & Hstart & Hnone).
    rewrite drop_drop in Hstart.
    replace (Mmap.pos mm + (j - Mmap.pos mm)) with j in Hstart by lia.
    unfold Mmap.seek. simpl. destruct (_ || _); [done|].
    unfold Mmap.readline. simpl. rewrite Nat2Z.id.
    unfold getitem.
    destruct (split (strip (read_line (drop j (Mmap.buf mm)))) !! 1)
      as [tok|] eqn:Htok; [|done].
    simpl. unfold float_of. destruct (float tok) as [x|] eqn:Hx; [|done].
    simpl. intros [= <- <-]. exists j, tok, x.
    split; [done|]. split; [done|]. split; [|done].
    intros k Hk. specialize (Hnone (k - Mmap.pos mm) ltac:(lia)).
    rewrite drop_drop in Hnone.
    by replace (Mmap.pos mm + (k - Mmap.pos mm)) with k in Hnone by lia.
  - unfold Mmap.seek. simpl. done.
Qed.

(** And the turn returns whenever the name is found and its line has a
    second token that [float] takes. *)
Lemma read_param_scanned pm vals mm i tok x :
  encode pm <> [] ->
  Mmap.pos mm <= i ->
  starts_with (encode pm) (drop i (Mmap.buf mm)) = true ->
  (forall k, Mmap.pos mm <= k < i ->
     starts_with (encode pm) (drop k (Mmap.buf mm)) = false) ->
  value_token (Mmap.buf mm) i = Some tok ->
  float tok = Some x ->
  read_param float pm vals mm
  = (inr (<[pm := x]> vals),
     Mmap.Make (Mmap.buf mm)
       (i + length (read_line (drop i (Mmap.buf mm))))).
Proof.
  intros Hne Hle Hstart Hnone Htok Hx.
  unfold read_param, bind, Mmap.find, value_token in *. simpl.
  rewrite (find_at_intro _ _ (Mmap.pos mm) (i - Mmap.pos mm)).
  - replace (Mmap.pos mm + (i - Mmap.pos mm)) with i by lia.
    assert (i < length (Mmap.buf mm)) as Hlen.
    { apply starts_with_nonempty in Hstart; [|done].
      destruct (decide (i < length (Mmap.buf mm))); [done|].
      rewrite drop_ge in Hstart by lia. done. }
    unfold Mmap.seek. simpl.
    replace (Z.of_nat i <? 0)%Z with false by (symmetry; apply Z.ltb_ge; lia).
    replace (Z.of_nat (length (Mmap.buf mm)) <? Z.of_nat i)%Z with false
      by (symmetry; apply Z.ltb_ge; lia).
    simpl. unfold Mmap.readline. simpl. rewrite Nat2Z.id.
    unfold getitem. rewrite Htok. simpl. unfold float_of. by rewrite Hx.
  - rewrite drop_drop.
    by replace (Mmap.pos mm + (i - Mmap.pos mm)) with i by lia.
  - intros k Hk. rewrite drop_drop. apply Hnone. lia.
Qed.

Lemma read_params_scan pms :
  forall vals mm vals' mm',
    read_params float pms vals mm = (inr vals', mm') ->
    exists offs xs,
      found_at (Mmap.buf mm) (Mmap.pos mm) pms offs
      /\ Forall2 (fun i x =>
                    exists tok, value_token (Mmap.buf mm) i = Some tok
                                /\ float tok = Some x) offs xs
      /\ vals' = fill vals (zip pms xs)
      /\ length xs = length pms.
Proof.
  induction pms as [|pm pms IH]; intros vals mm vals' mm'.
  - simpl. intros [= <- <-]. by exists [], [].
  - simpl. unfold bind at 1.
    destruct (read_param float pm vals mm) as [[e|vals1] mm1] eqn:Hp; [done|].
    apply read_param_scan in Hp
      as (i & tok & x & Hi & Hstart & Hnone & Htok & Hx & -> & ->).
    intros Hrest.
    apply IH in Hrest as (offs & xs & Hfound & Hvals & -> & Hlen).
    simpl in *. exists (i :: offs), (x :: xs). simpl.
    split; [done|]. split; [|split; [done|lia]].
    constructor; [by exists tok|done].
Qed.

Lemma read_params_scanned pms :
  forall vals mm offs xs,
    Forall (fun pm => encode pm <> []) pms ->
    found_at (Mmap.buf mm) (Mmap.pos mm) pms offs ->
    Forall2 (fun i x =>
               exists tok, value_token (Mmap.buf mm) i = Some tok
                           /\ float tok = Some x) offs xs ->
    exists mm',
      read_params float pms vals mm = (inr (fill vals (zip pms xs)), mm').
Proof.
  induction pms as [|pm pms IH]; intros vals mm offs xs Hne Hfound Hvals.
  - destruct offs; [|done]. apply Forall2_nil_inv_l in Hvals as ->.
    by exists mm.
  - destruct offs as [|i offs]; [done|].
    apply Forall2_cons_inv_l in Hvals
      as (x & xs' & (tok & Htok & Hx) & Hvals & ->).
    apply Forall_cons in Hne as [Hpm Hne].
    destruct Hfound as (Hi & Hstart & Hnone & Hfound).
    simpl. unfold bind at 1.
    rewrite (read_param_scanned pm vals mm i tok x) by done.
    destruct (IH (<[pm := x]> vals)
                 (Mmap.Make (Mmap.buf mm)
                    (i + length (read_line (drop i (Mmap.buf mm)))))
                 offs xs') as [mm' Hrun]; [done..|].
    by exists mm'.
Qed.

End ReaderMore.

Lemma fill_lookup_zip {A} (vals : gmap string A) ks xs i k x :
  NoDup ks -> length ks = length xs ->
  ks !! i = Some k -> xs !! i = Some x ->
  fill vals (zip ks xs) !! k = Some x.
Proof.
  intros Hnd Hlen. revert vals xs i Hlen.
  induction ks as [|k0 ks IH]; intros vals [|x0 xs] i Hlen Hk Hx;
    simplify_eq/=.
  apply NoDup_cons in Hnd as [Hk0 Hnd]. destruct i as [|i]; simplify_eq/=.
  - unfold fill. simpl. fold (fill (<[k := x]> vals) (zip ks xs)).
    rewrite fill_lookup_notin; [by rewrite lookup_insert_eq|].
    intros Hin. apply Hk0.
    apply list_elem_of_fmap in Hin as [[k' v] [-> Hin]].
    by apply elem_of_zip_l in Hin.
  - unfold fill. simpl. fold (fill (<[k0 := x0]> vals) (zip ks xs)).
    eapply IH; [done|lia|done..].
Qed.

Lemma params_nonempty : Forall (fun pm => encode pm <> []) params.
Proof. unfold params. by repeat constructor. Qed.

(** A dict is the one filled from [ks] and [xs] when it has these keys and
    these values. *)
Lemma fill_zip_eq {A} (vals : gmap string A) ks xs :
  NoDup ks -> length ks = length xs ->
  vals = fill ∅ (zip ks xs)
  <-> dom vals = list_to_set ks
      /\ Forall2 (fun k x => vals !! k = Some x) ks xs.
Proof.
  intros Hnd Hlen. split.
  - intros ->. split.
    + rewrite fill_dom, dom_empty_L, fst_zip by lia. set_solver.
    + apply Forall2_same_length_lookup. split; [done|].
      intros i k x Hk Hx. by eapply fill_lookup_zip.
  - intros [Hdom Hall]. apply map_eq. intros k.
    destruct (decide (k ∈ ks)) as [Hin|Hnin].
    + apply list_elem_of_lookup in Hin as [i Hk].
      destruct (lookup_lt_is_Some_2 xs i) as [x Hx].
      { rewrite <- Hlen. by eapply lookup_lt_Some. }
      rewrite (Forall2_lookup_lr _ _ _ _ _ _ Hall Hk Hx).
      symmetry. by eapply fill_lookup_zip.
    + rewrite (proj1 (not_elem_of_dom vals k)) by (rewrite Hdom; set_solver).
      symmetry. apply not_elem_of_dom.
      rewrite fill_dom, dom_empty_L, fst_zip by lia. set_solver.
Qed.

(** X5: [read_hkl] returns a dict for a file exactly when the twelve names
    are found one after the other, each at its first occurrence at or
    after the end of the line of the name before it (the start of the file
    for the first), and the line of each has a second token that [float]
    takes.  The dict then has the twelve names as its keys and binds each to
    [float] of that token. *)
Theorem read_hkl_success_shape {F} (float : list byte -> option F)
    hkl_file d content vals :
  files d !! hkl_file = Some content ->
  (read_hkl float hkl_file d).1 = inr vals
  <-> exists offs xs,
        found_at content 0 params offs
        /\ Forall2 (fun i x =>
                     exists tok, value_token content i = Some tok
                                 /\ float tok = Some x) offs xs
        /\ dom vals = list_to_set params
        /\ Forall2 (fun pm x => vals !! pm = Some x) params xs.
Proof.
  intros Hfile. unfold read_hkl. rewrite Hfile. split.
  - destruct content as [|b content]; [done|]. unfold Mmap.mmap.
    destruct (read_params float params ∅ _) as [[e|vals0] mm'] eqn:Hrun;
      [done|].
    intros [= <-].
    apply read_params_scan in Hrun as (offs & xs & Hfound & Hvals & -> & Hlen).
    exists offs, xs. split; [done|]. split; [done|].
    by apply (fill_zip_eq _ params xs params_NoDup).
  - intros (offs & xs & Hfound & Hvals & Hdom & Hall).
    assert (length params = length xs) as Hlen
      by (by eapply Forall2_length).
    assert (vals = fill ∅ (zip params xs)) as ->
      by (by apply (fill_zip_eq vals params xs params_NoDup Hlen)).
    destruct content as [|b content].
    { destruct offs as [|i offs]; [done|].
      destruct Hfound as (_ & Hstart & _). by rewrite drop_nil in Hstart. }
    unfold Mmap.mmap.
    destruct (read_params_scanned float params ∅
                (Mmap.Make (b :: content) 0) offs xs params_nonempty)
      as [mm' ->]; done.
Qed.

Lemma read_hkl_success_shape_witness :
  (read_hkl token_float "c16.hkl" demo_disk).1
  = inr (fill ∅ (zip params demo_values))
  <-> exists offs xs,
        found_at (mjoin (render <$> demo_fields) ++ demo_trailer) 0 params
          offs
        /\ Forall2 (fun i x =>
                     exists tok,
                       value_token
                         (mjoin (render <$> demo_fields) ++ demo_trailer) i
                       = Some tok
                       /\ token_float tok = Some x) offs xs
        /\ dom (fill (∅ : gmap string string) (zip params demo_values))
           = list_to_set params
        /\ Forall2 (fun pm x =>
                     fill ∅ (zip params demo_values) !! pm = Some x)
             params xs.
Proof.
  apply (read_hkl_success_shape token_float "c16.hkl" demo_disk
           (mjoin (render <$> demo_fields) ++ demo_trailer)
           (fill ∅ (zip params demo_values))).
  reflexivity.
Defined.

(** The demo header is read as the witness says. *)
Example read_hkl_demo :
  (read_hkl token_float "c16.hkl" demo_disk).1
  = inr (fill ∅ (zip params demo_values)).
Proof. by vm_compute. Qed.

(** X6: a mapping returned by [read_hkl] has exactly the twelve keys of
    the reader's list, whatever the file holds, and the disk is as
    before. *)
Theorem read_hkl_twelve_keys {F} (float : list byte -> option F)
    hkl_file d vals d' :
  read_hkl float hkl_file d = (inr vals, d') ->
  dom vals = list_to_set params /\ size vals = 12 /\ d' = d.
Proof.
  intros Hread. pose proof (read_hkl_dom float _ _ _ _ Hread) as Hdom.
  split; [done|]. split.
  - rewrite <- size_dom, Hdom, size_list_to_set by apply params_NoDup. done.
  - pose proof (read_hkl_disk float hkl_file d) as Hd.
    by rewrite Hread in Hd.
Qed.

Lemma read_hkl_twelve_keys_witness :
  dom (fill (∅ : gmap string string) (zip params demo_values))
  = list_to_set params
  /\ size (fill (∅ : gmap string string) (zip params demo_values)) = 12
  /\ demo_disk = demo_disk.
Proof.
  apply (read_hkl_twelve_keys token_float "c16.hkl" demo_disk).
  vm_compute. reflexivity.
Defined.

Lemma read_params_error_cases {F} (float : list byte -> option F)
    pms vals mm e :
  (read_params float pms vals mm).1 = inl e ->
  e = ValueError SeekOutOfRange
  \/ e = IndexError
  \/ exists tok, e = ValueError (CouldNotConvertToFloat tok)
                 /\ float tok = None.
Proof.
  revert vals mm. induction pms as [|pm pms IH]; intros vals mm; simpl;
    [done|].
  unfold bind at 1.
  destruct (read_param float pm vals mm) as [[e0|vals'] mm'] eqn:Hp;
    [|apply IH].
  simpl. intros [= ->]. revert Hp.
  unfold read_param, bind, Mmap.find, Mmap.seek, Mmap.readline, getitem,
    float_of, ret, raise. simpl.
  destruct (_ || _); simpl; [intros [= <- _]; by left|].
  destruct (split _ !! 1) as [tok|]; simpl; [|intros [= <- _]; by right; left].
  destruct (float tok) eqn:Hf; simpl; [done|].
  intros [= <- _]. right; right. by exists tok.
Qed.

(** What [open] raises on a path that is no regular file. *)
Lemma read_hkl_not_a_file {F} (float : list byte -> option F) hkl_file d :
  files d !! hkl_file = None ->
  exists e,
    read_hkl float hkl_file d = (inl e, d)
    /\ ((e = ValueError EmbeddedNullByte /\ has_nul hkl_file = true)
        \/ (e = NotADirectoryError hkl_file
            /\ below_a_file d hkl_file = true)
        \/ (e = IsADirectoryError hkl_file /\ hkl_file ∈ dirs d)
        \/ (e = FileNotFoundError hkl_file /\ hkl_file ∉ dirs d)).
Proof.
  intros Hfile. unfold read_hkl. rewrite Hfile.
  destruct (has_nul hkl_file); [eexists; split; [done|]; by left|].
  destruct (below_a_file d hkl_file);
    [eexists; split; [done|]; right; by left|].
  case_bool_decide; eexists; (split; [done|]); right; right;
    [by left|by right].
Qed.

Lemma read_hkl_error_cases {F} (float : list byte -> option F) hkl_file d e :
  (read_hkl float hkl_file d).1 = inl e ->
  e = FileNotFoundError hkl_file
  \/ e = IsADirectoryError hkl_file
  \/ e = NotADirectoryError hkl_file
  \/ e = IndexError
  \/ exists why, e = ValueError why.
Proof.
  destruct (files d !! hkl_file) as [[|b content]|] eqn:Hfile.
  - unfold read_hkl. rewrite Hfile. cbn [Mmap.mmap fst].
    intros [= <-]. right; right; right; right. by eexists.
  - unfold read_hkl. rewrite Hfile. cbn [Mmap.mmap].
    pose proof (read_params_error_cases float params ∅
                  (Mmap.Make (b :: content) 0) e) as Hbody.
    destruct (read_params float params ∅ _) as [r mm'] eqn:Hrun.
    cbn [fst] in *. intros He. right; right; right.
    destruct (Hbody He) as [->|[->|(tok & -> & _)]]; eauto.
  - destruct (read_hkl_not_a_file float hkl_file d Hfile)
      as (e' & -> & He'). cbn [fst]. intros [= <-].
    destruct He' as [[-> _]|[[-> _]|[[-> _]|[-> _]]]]; eauto 10.
Qed.

(** X7: the ways [read_hkl] fails, on a disk of regular files that the
    process may read and write, and of directories.  On a path that is no
    file, [open] raises: ValueError when the path holds a NUL, else
    NotADirectoryError when the path lies below a regular file, else
    IsADirectoryError when it is a directory, else FileNotFoundError; so
    FileNotFoundError means that the path is neither a file nor a
    directory.  An empty file raises the ValueError of [mmap], and no other
    file does.  On a file that is not empty the only exceptions are the
    ValueError of [seek], the IndexError of a line without a second token
    and the ValueError of [float]. *)
Theorem read_hkl_errors {F} (float : list byte -> option F) hkl_file d :
  (files d !! hkl_file = None ->
   exists e,
     read_hkl float hkl_file d = (inl e, d)
     /\ ((e = ValueError EmbeddedNullByte /\ has_nul hkl_file = true)
         \/ (e = NotADirectoryError hkl_file
             /\ has_nul hkl_file = false
             /\ below_a_file d hkl_file = true)
         \/ (e = IsADirectoryError hkl_file
             /\ has_nul hkl_file = false
             /\ below_a_file d hkl_file = false
             /\ hkl_file ∈ dirs d)
         \/ (e = FileNotFoundError hkl_file
             /\ has_nul hkl_file = false
             /\ below_a_file d hkl_file = false
             /\ hkl_file ∉ dirs d)))
  /\ (read_hkl float hkl_file d = (inl (FileNotFoundError hkl_file), d) ->
      files d !! hkl_file = None /\ hkl_file ∉ dirs d)
  /\ (files d !! hkl_file = Some []
      <-> read_hkl float hkl_file d
          = (inl (ValueError CannotMmapEmptyFile), d))
  /\ (forall b content e,
        files d !! hkl_file = Some (b :: content) ->
        (read_hkl float hkl_file d).1 = inl e ->
        e = ValueError SeekOutOfRange
        \/ e = IndexError
        \/ exists tok, e = ValueError (CouldNotConvertToFloat tok)
                       /\ float tok = None).
Proof.
  assert (forall b content e,
            files d !! hkl_file = Some (b :: content) ->
            (read_hkl float hkl_file d).1 = inl e ->
            e = ValueError SeekOutOfRange
            \/ e = IndexError
            \/ exists tok, e = ValueError (CouldNotConvertToFloat tok)
                           /\ float tok = None) as Hbody.
  { intros b content e Hfile. unfold read_hkl. rewrite Hfile.
    cbn [Mmap.mmap].
    pose proof (read_params_error_cases float params ∅
                  (Mmap.Make (b :: content) 0) e) as Hr.
    by destruct (read_params float params ∅ _) as [r mm']. }
  assert (files d !! hkl_file = None ->
          exists e,
            read_hkl float hkl_file d = (inl e, d)
            /\ ((e = ValueError EmbeddedNullByte /\ has_nul hkl_file = true)
                \/ (e = NotADirectoryError hkl_file
                    /\ has_nul hkl_file = false
                    /\ below_a_file d hkl_file = true)
                \/ (e = IsADirectoryError hkl_file
                    /\ has_nul hkl_file = false
                    /\ below_a_file d hkl_file = false
                    /\ hkl_file ∈ dirs d)
                \/ (e = FileNotFoundError hkl_file
                    /\ has_nul hkl_file = false
                    /\ below_a_file d hkl_file = false
                    /\ hkl_file ∉ dirs d))) as Hopen.
  { intros Hfile. unfold read_hkl. rewrite Hfile.
    destruct (has_nul hkl_file); [eexists; split; [done|]; by left|].
    destruct (below_a_file d hkl_file);
      [eexists; split; [done|]; right; by left|].
    case_bool_decide; eexists; (split; [done|]); right; right;
      [by left|by right]. }
  split; [done|]. split; [|split; [|done]].
  - destruct (files d !! hkl_file) as [[|b content]|] eqn:Hfile.
    + unfold read_hkl. rewrite Hfile. done.
    + intros Hread. destruct (Hbody b content _ eq_refl (f_equal fst Hread))
        as [?|[?|(? & ? & _)]]; done.
    + destruct (Hopen eq_refl) as (e & -> & He). intros [= ->].
      by destruct He as [[? _]|[[? _]|[[? _]|(_ & _ & _ & ?)]]].
  - destruct (files d !! hkl_file) as [[|b content]|] eqn:Hfile.
    + unfold read_hkl. rewrite Hfile. by split.
    + split; [done|]. intros Hread.
      destruct (Hbody b content _ eq_refl (f_equal fst Hread))
        as [?|[?|(? & ? & _)]]; done.
    + split; [done|]. destruct (Hopen eq_refl) as (e & -> & He).
      intros [= ->].
      by destruct He as [[? _]|[[? _]|[[? _]|[? _]]]].
Qed.

(** What [open(p, "r+b")] raised in a CPython 3.11 session, in a directory
    with the file [a.hkl] and the directory [dd]. *)
Example open_failures :
  (read_hkl token_float "a.hkl/x" open_disk).1
  = inl (NotADirectoryError "a.hkl/x")
  /\ (read_hkl token_float "a.hkl/" open_disk).1
     = inl (NotADirectoryError "a.hkl/")
  /\ (read_hkl token_float "dd" open_disk).1 = inl (IsADirectoryError "dd")
  /\ (read_hkl token_float "nope" open_disk).1
     = inl (FileNotFoundError "nope")
  /\ (read_hkl token_float "nope/x" open_disk).1
     = inl (FileNotFoundError "nope/x")
  /\ (read_hkl token_float "" open_disk).1 = inl (FileNotFoundError "")
  /\ (read_hkl token_float (String "a" (String Ascii.zero "b")) open_disk).1
     = inl (ValueError EmbeddedNullByte).
Proof. repeat split; by vm_compute. Qed.

Section ReaderStops.

Context {F : Type}.
Variable float : list byte -> option F.

Lemma read_params_app pms1 pms2 vals mm :
  read_params float (pms1 ++ pms2) vals mm
  = bind (read_params float pms1 vals)
         (fun vals' => read_params float pms2 vals') mm.
Proof.
  revert vals mm. induction pms1 as [|pm pms1 IH]; intros vals mm; [done|].
  simpl. unfold bind. unfold bind in IH.
  destruct (read_param float pm vals mm) as [[e|vals'] mm']; [done|].
  by rewrite IH.
Qed.

(** The turn of the loop on a line [<name><tail>] found at the first
    occurrence of the name. *)
Lemma read_param_line pm gap tail consumed after vals :
  first_at_end (encode pm) gap = true ->
  no_newline (encode pm ++ tail) = true ->
  read_param float pm vals
    (Mmap.Make (consumed ++ (gap ++ encode pm ++ tail ++ [newline]) ++ after)
               (length consumed))
  = (match split (strip (encode pm ++ tail ++ [newline])) !! 1 with
     | None => inl IndexError
     | Some tok =>
         match float tok with
         | Some x => inr (<[pm := x]> vals)
         | None => inl (ValueError (CouldNotConvertToFloat tok))
         end
     end,
     Mmap.Make (consumed ++ (gap ++ encode pm ++ tail ++ [newline]) ++ after)
               (length (consumed ++ gap ++ encode pm ++ tail ++ [newline]))).
Proof.
  intros Hfirst Hnl.
  set (t := encode pm ++ tail).
  set (bf := consumed ++ (gap ++ encode pm ++ tail ++ [newline]) ++ after).
  assert (bf = (consumed ++ gap) ++ t ++ newline :: after) as Hbf.
  { unfold bf, t. by rewrite <- !app_assoc. }
  unfold read_param, bind, Mmap.find. simpl.
  assert (find_at (encode pm) (drop (length consumed) bf) (length consumed)
          = Some (length consumed + length gap)) as ->.
  { unfold bf. rewrite drop_app_length, find_at_shift.
    rewrite <- !app_assoc. by rewrite find_at_first. }
  unfold Mmap.seek. simpl.
  assert (length bf = length consumed + length gap + length t
                      + S (length after)) as Hlen.
  { rewrite Hbf, !length_app. simpl. lia. }
  destruct (_ || _) eqn:Hrange.
  { apply orb_prop in Hrange as [?%Z.ltb_lt|?%Z.ltb_lt]; lia. }
  unfold Mmap.readline. simpl. rewrite Nat2Z.id.
  assert (drop (length consumed + length gap) bf = t ++ newline :: after)
    as ->.
  { rewrite Hbf, <- length_app. apply drop_app_length. }
  rewrite read_line_newline by done.
  assert (length consumed + length gap + length (t ++ [newline])
          = length (consumed ++ gap ++ encode pm ++ tail ++ [newline])) as ->.
  { unfold t. rewrite !length_app. simpl. lia. }
  unfold getitem, t. rewrite <- !app_assoc.
  destruct (split _ !! 1) as [tok|]; [|done]. simpl.
  unfold float_of. by destruct (float tok).
Qed.

(** Well-formed fields, then a line on which the turn of the loop raises:
    the reader raises that exception. *)
Lemma read_hkl_stops hkl_file d pre xs fl after later e :
  files d !! hkl_file = Some (mjoin (render <$> pre) ++ render fl ++ after) ->
  (fl_name <$> pre) ++ fl_name fl :: later = params ->
  Forall (fun fl => field_ok fl = true) pre ->
  Forall2 (fun fl x => float (fl_value fl) = Some x) pre xs ->
  first_at_end (encode (fl_name fl)) (fl_gap fl) = true ->
  no_newline (encode (fl_name fl) ++ fl_sep fl ++ fl_value fl ++ fl_rest fl)
  = true ->
  (split (strip (encode (fl_name fl) ++ fl_sep fl ++ fl_value fl
                 ++ fl_rest fl ++ [newline])) !! 1 = None
   /\ e = IndexError)
  \/ (exists tok,
        split (strip (encode (fl_name fl) ++ fl_sep fl ++ fl_value fl
                      ++ fl_rest fl ++ [newline])) !! 1 = Some tok
        /\ float tok = None
        /\ e = ValueError (CouldNotConvertToFloat tok)) ->
  read_hkl float hkl_file d = (inl e, d).
Proof.
  intros Hfile Hnames Hok Hxs Hfirst Hnl Hline.
  pose proof (read_hkl_disk float hkl_file d) as Hd.
  assert ((read_hkl float hkl_file d).1 = inl e) as Hr.
  { unfold read_hkl. rewrite Hfile.
    assert (Mmap.mmap (mjoin (render <$> pre) ++ render fl ++ after)
            = inr (Mmap.Make (mjoin (render <$> pre) ++ render fl ++ after) 0))
      as ->.
    { destruct (mjoin (render <$> pre) ++ render fl ++ after) eqn:Hc; [|done].
      apply app_eq_nil in Hc as [_ Hc]. apply app_eq_nil in Hc as [Hc _].
      unfold render in Hc. rewrite !app_assoc in Hc.
      by apply app_eq_nil in Hc as [_ Hc]. }
    rewrite <- Hnames, read_params_app. unfold bind at 1.
    pose proof (read_params_layout float pre xs [] (render fl ++ after) ∅
                  Hok Hxs) as Hpre.
    simpl in Hpre. rewrite Hpre. simpl. unfold bind at 1.
    pose proof (read_param_line (fl_name fl) (fl_gap fl)
                  (fl_sep fl ++ fl_value fl ++ fl_rest fl)
                  (mjoin (render <$> pre)) after
                  (fill ∅ (zip (fl_name <$> pre) xs)) Hfirst Hnl) as Hstep.
    change (render fl)
      with (fl_gap fl ++ encode (fl_name fl) ++ fl_sep fl ++ fl_value fl
            ++ fl_rest fl ++ [newline]).
    rewrite <- !app_assoc in Hstep |- *.
    rewrite Hstep.
    replace (encode (fl_name fl)
             ++ (fl_sep fl ++ fl_value fl ++ fl_rest fl) ++ [newline])
      with (encode (fl_name fl) ++ fl_sep fl ++ fl_value fl ++ fl_rest fl
            ++ [newline]) by (by rewrite <- !app_assoc).
    destruct Hline as [[-> ->]|(tok & -> & -> & ->)]; done. }
  destruct (read_hkl float hkl_file d) as [r d']. by simpl in *; subst.
Qed.

End ReaderStops.

(** X8: when the fields before it are well formed and a field's value
    token is not numeric, [read_hkl] raises the ValueError of [float] on
    that token; what comes after the line is not looked at. *)
Theorem read_hkl_malformed_value {F} (float : list byte -> option F)
    hkl_file d pre xs fl after later :
  files d !! hkl_file = Some (mjoin (render <$> pre) ++ render fl ++ after) ->
  (fl_name <$> pre) ++ fl_name fl :: later = params ->
  Forall (fun fl => field_ok fl = true) pre ->
  Forall2 (fun fl x => float (fl_value fl) = Some x) pre xs ->
  field_ok fl = true ->
  float (fl_value fl) = None ->
  read_hkl float hkl_file d
  = (inl (ValueError (CouldNotConvertToFloat (fl_value fl))), d).
Proof.
  intros Hfile Hnames Hok Hxs Hfl Hfloat.
  unfold field_ok in Hfl. repeat (apply andb_prop in Hfl as [Hfl ?]).
  eapply read_hkl_stops; try done.
  - rewrite !no_newline_app.
    rewrite (no_space_no_newline (encode (fl_name fl))) by done.
    rewrite (no_space_no_newline (fl_value fl)) by done.
    by repeat (apply andb_true_intro; split).
  - right. exists (fl_value fl). by rewrite field_tokens.
Qed.

Lemma read_hkl_malformed_value_witness :
  read_hkl plain_float "c16.hkl" malformed_disk
  = (inl (ValueError (CouldNotConvertToFloat (encode "n/a"))), malformed_disk).
Proof.
  apply (read_hkl_malformed_value plain_float "c16.hkl" malformed_disk
           (take 3 demo_fields) ["5.551"; "0.001"; "0.1720"]
           (header_line "density" "n/a" " [g/cm^3]")
           (mjoin (render <$> drop 4 demo_fields) ++ demo_trailer)
           (drop 4 params)).
  - vm_compute. reflexivity.
  - reflexivity.
  - repeat constructor.
  - repeat constructor.
  - reflexivity.
  - reflexivity.
Defined.

(** X9: when the fields before it are well formed and a name stands alone
    on its line, [read_hkl] raises IndexError: the line has no second
    token. *)
Theorem read_hkl_missing_value {F} (float : list byte -> option F)
    hkl_file d pre xs fl after later :
  files d !! hkl_file = Some (mjoin (render <$> pre) ++ render fl ++ after) ->
  (fl_name <$> pre) ++ fl_name fl :: later = params ->
  Forall (fun fl => field_ok fl = true) pre ->
  Forall2 (fun fl x => float (fl_value fl) = Some x) pre xs ->
  bare_field_ok fl = true ->
  read_hkl float hkl_file d = (inl IndexError, d).
Proof.
  intros Hfile Hnames Hok Hxs Hfl.
  unfold bare_field_ok in Hfl. repeat (apply andb_prop in Hfl as [Hfl ?]).
  destruct (fl_value fl) eqn:Hv; [|done].
  destruct (fl_rest fl) eqn:Hr; [|done].
  eapply read_hkl_stops; try done.
  - rewrite Hv, Hr, !no_newline_app.
    rewrite (no_space_no_newline (encode (fl_name fl))) by done.
    by repeat (apply andb_true_intro; split).
  - left. split; [|done]. rewrite Hv, Hr. simpl. rewrite split_strip.
    rewrite split_word; [|done|done|].
    + rewrite split_all_space; [done|].
      unfold all_space in *. rewrite forallb_app. simpl.
      by apply andb_true_intro.
    + destruct (fl_sep fl) as [|b sep]; [done|]. simpl in *.
      by apply andb_prop in H2 as [? _].
Qed.

Lemma read_hkl_missing_value_witness :
  read_hkl token_float "c16.hkl" bare_disk = (inl IndexError, bare_disk).
Proof.
  apply (read_hkl_missing_value token_float "c16.hkl" bare_disk
           (take 4 demo_fields) ["5.551"; "0.001"; "0.1720"; "3.515"]
           bare_weight
           (mjoin (render <$> drop 5 demo_fields) ++ demo_trailer)
           (drop 5 params)).
  - vm_compute. reflexivity.
  - reflexivity.
  - repeat constructor.
  - repeat constructor.
  - reflexivity.
Defined.

(** ** More on the mapper and the runner *)

Section MapperMore.

Context {F : Type}.
Variable float : list byte -> option F.

Lemma hkl_to_powdern_pms_run hkl_file d :
  (forall e, (read_hkl float hkl_file d).1 = inl e ->
     hkl_to_powdern_pms float hkl_file d = (inl e, d))
  /\ (forall vals, (read_hkl float hkl_file d).1 = inr vals ->
        exists pms,
          powdern_pms hkl_file vals = Some pms
          /\ hkl_to_powdern_pms float hkl_file d = (inr pms, d)).
Proof.
  pose proof (read_hkl_disk float hkl_file d) as Hd.
  unfold hkl_to_powdern_pms, bind.
  destruct (read_hkl float hkl_file d) as [[e|vals] d'] eqn:Hread;
    simpl in Hd; subst d'; cbn [fst].
  { split; [by intros e' [= <-]|]. by intros vals [=]. }
  pose proof (read_hkl_dom float _ _ _ _ Hread) as Hdom.
  assert (forall k, k ∈ params -> is_Some (vals !! k)) as Hkeys.
  { intros k Hk. apply elem_of_dom. rewrite Hdom. set_solver. }
  destruct (Hkeys "Vc") as [vc Hvc]; [unfold params; set_solver|].
  destruct (Hkeys "density") as [de Hde]; [unfold params; set_solver|].
  destruct (Hkeys "weight") as [we Hwe]; [unfold params; set_solver|].
  destruct (Hkeys "sigma_abs") as [sa Hsa]; [unfold params; set_solver|].
  destruct (Hkeys "sigma_inc") as [si Hsi]; [unfold params; set_solver|].
  split; [by intros e [=]|]. intros vals' [= <-].
  unfold powdern_pms, dict_get. rewrite Hvc, Hde, Hwe, Hsa, Hsi. simpl.
  eauto.
Qed.

End MapperMore.

(** X10: the mapper has no failure of its own: it raises exactly when the
    reader raises, and then the reader's exception; it never raises
    KeyError, and it leaves the disk as it found it. *)
Theorem hkl_to_powdern_pms_failures {F} (float : list byte -> option F)
    hkl_file d :
  (forall e d',
     hkl_to_powdern_pms float hkl_file d = (inl e, d')
     <-> read_hkl float hkl_file d = (inl e, d'))
  /\ (forall k, (hkl_to_powdern_pms float hkl_file d).1 <> inl (KeyError k))
  /\ (hkl_to_powdern_pms float hkl_file d).2 = d.
Proof.
  destruct (hkl_to_powdern_pms_run float hkl_file d) as [Hfail Hok].
  pose proof (read_hkl_disk float hkl_file d) as Hd.
  pose proof (read_hkl_error_cases float hkl_file d) as Herr.
  destruct (read_hkl float hkl_file d) as [[e0|vals] d0] eqn:Hread;
    cbn [fst snd] in *; subst d0.
  - rewrite (Hfail e0 eq_refl).
    split; [intros; split; by intros [= <- <-]|]. split; [|done].
    intros k [= ->]. by destruct (Herr _ eq_refl) as [?|[?|[?|[?|[? ?]]]]].
  - destruct (Hok vals eq_refl) as (pms & _ & ->).
    split; [intros; split; by intros [= <- <-]|].
    by split.
Qed.

Section RunnerMore.

Context {F Data : Type}.
Variable float : list byte -> option F.
Variable makedirs : string -> M disk unit.
Variable run_full_instrument :
  request -> gmap string (pm_value F) -> M disk Data.

Lemma run_on_sample_run cfg s h l nc m w :
  run_on_sample float makedirs run_full_instrument cfg s h l nc m w
  = match output_folder_step makedirs cfg (w_disk w) with
    | (inl e, d1) =>
        (inl e, World d1 (w_sample w)
                  (w_log w ++ [EvRunOnSample s h l nc m]))
    | (inr _, d1) =>
        match (hkl_to_powdern_pms float h d1).1 with
        | inl e =>
            (inl e, World d1 (w_sample w)
                      (w_log w ++ [EvRunOnSample s h l nc m]))
        | inr pms =>
            ((run_full_instrument (sample_request cfg s l nc m)
                (pms ∪ w_sample w) d1).1,
             World
               (run_full_instrument (sample_request cfg s l nc m)
                  (pms ∪ w_sample w) d1).2
               (pms ∪ w_sample w)
               (w_log w ++ [ EvRunOnSample s h l nc m;
                             EvRunFullInstrument
                               (sample_request cfg s l nc m) ]))
        end
    end.
Proof.
  unfold run_on_sample, output_folder_step, bind, log, lift_disk,
    path_exists, set_parameters, simulate, ret, bind, log.
  cbn [w_disk w_sample w_log fst snd].
  assert (forall d1,
    match
      (let '(r, d) := hkl_to_powdern_pms float h d1 in
       (r, World d (w_sample w) (w_log w ++ [EvRunOnSample s h l nc m])))
    with
    | (inl e, w1) => (inl e, w1)
    | (inr pms, w1) =>
        match
          (let '(r, d) :=
             run_full_instrument (sample_request cfg s l nc m)
               (pms ∪ w_sample w1) (w_disk w1) in
           (r, World d (pms ∪ w_sample w1)
                 (w_log w1
                  ++ [EvRunFullInstrument (sample_request cfg s l nc m)])))
        with
        | (inl e, w2) => (inl e, w2)
        | (inr data, w2) => (inr data, w2)
        end
    end
    = match (hkl_to_powdern_pms float h d1).1 with
      | inl e =>
          (inl e, World d1 (w_sample w)
                    (w_log w ++ [EvRunOnSample s h l nc m]))
      | inr pms =>
          ((run_full_instrument (sample_request cfg s l nc m)
              (pms ∪ w_sample w) d1).1,
           World
             (run_full_instrument (sample_request cfg s l nc m)
                (pms ∪ w_sample w) d1).2
             (pms ∪ w_sample w)
             (w_log w ++ [ EvRunOnSample s h l nc m;
                           EvRunFullInstrument
                             (sample_request cfg s l nc m) ]))
      end) as Hrest.
  { intros d1.
    pose proof (hkl_to_powdern_pms_disk float h d1) as Hd.
    destruct (hkl_to_powdern_pms float h d1) as [[e|pms] d2];
      cbn [fst snd] in *; subst d2; [done|].
    cbn [w_disk w_sample w_log].
    destruct (run_full_instrument _ _ _) as [[e|data] d3];
      by rewrite <- app_assoc. }
  destruct (_ || _); cbn [w_disk w_sample w_log fst snd].
  - apply Hrest.
  - destruct (makedirs (output_folder cfg) (w_disk w)) as [[e|[]] d1];
      cbn [w_disk w_sample w_log fst snd]; [done|]. apply Hrest.
Qed.

End RunnerMore.

(** X11: a failure before the simulation.  When [os.makedirs] raises on
    the output folder, or when the output folder is there or has been made
    and the reader raises on the sample's file, the runner raises the same
    exception before the simulator is asked for anything: the Sample
    parameters are as before, and the disk is as the folder step left it. *)
Theorem run_on_sample_reader_failure {F Data}
    (float : list byte -> option F)
    (makedirs : string -> M disk unit)
    (run_full_instrument : request -> gmap string (pm_value F) -> M disk Data)
    cfg sample_name hkl_file lambda0 ncount mpi (w : world F) e d1 :
  output_folder_step makedirs cfg (w_disk w) = (inl e, d1)
  \/ (output_folder_step makedirs cfg (w_disk w) = (inr tt, d1)
      /\ (read_hkl float hkl_file d1).1 = inl e) ->
  run_on_sample float makedirs run_full_instrument cfg sample_name hkl_file
    lambda0 ncount mpi w
  = (inl e,
     World d1 (w_sample w)
       (w_log w ++ [EvRunOnSample sample_name hkl_file lambda0 ncount mpi]))
  /\ requested_folders
       (w_log (run_on_sample float makedirs run_full_instrument cfg
                 sample_name hkl_file lambda0 ncount mpi w).2)
     = requested_folders (w_log w).
Proof.
  intros Hstep. rewrite run_on_sample_run.
  assert (forall evs : list event,
            requested_folders (evs ++ [EvRunOnSample sample_name hkl_file
                                         lambda0 ncount mpi])
            = requested_folders evs) as Hlog.
  { intros evs. rewrite requested_folders_app. simpl.
    by rewrite app_nil_r. }
  destruct Hstep as [->|[-> Hread]]; [cbn [fst snd w_log]; by rewrite Hlog|].
  destruct (hkl_to_powdern_pms_run float hkl_file d1) as [Hfail _].
  rewrite (Hfail e Hread). cbn [fst snd w_log]. by rewrite Hlog.
Qed.

Lemma run_on_sample_reader_failure_witness :
  run_on_sample token_float demo_makedirs demo_simulator example_config
    "b" "b.hkl" (Q2Qc 1) (Q2Qc 10000000) 1 half_bad_world
  = (inl IndexError,
     World (output_folder_step demo_makedirs example_config
              (w_disk half_bad_world)).2
       (w_sample half_bad_world)
       (w_log half_bad_world
        ++ [EvRunOnSample "b" "b.hkl" (Q2Qc 1) (Q2Qc 10000000) 1]))
  /\ requested_folders
       (w_log (run_on_sample token_float demo_makedirs demo_simulator
                 example_config "b" "b.hkl" (Q2Qc 1) (Q2Qc 10000000) 1
                 half_bad_world).2)
     = requested_folders (w_log half_bad_world).
Proof.
  apply (run_on_sample_reader_failure token_float demo_makedirs
           demo_simulator example_config "b" "b.hkl" (Q2Qc 1)
           (Q2Qc 10000000) 1 half_bad_world IndexError
           (output_folder_step demo_makedirs example_config
              (w_disk half_bad_world)).2).
  right. split; vm_compute; reflexivity.
Defined.

(** With an empty output folder name the operating system of the sample
    world refuses to make the folder, and the runner stops there. *)
Example run_on_sample_empty_output_folder :
  (run_on_sample token_float demo_makedirs demo_simulator
     (Config "" "prefix" "" true "D2B_BananaTheta" 1 (Q2Qc 10000000)
        [Q2Qc 1] [] [("a", "a.hkl")])
     "a" "a.hkl" (Q2Qc 1) (Q2Qc 10000000) 1 example_world).1
  = inl (FileNotFoundError "").
Proof. by vm_compute. Qed.

(** X12: when the output folder is there or has been made, and the reader
    returns a dict for the sample's file, the runner asks the simulator
    exactly once: for the folder of the Sweep Point with a counter appended
    on a clash, the ray count and the MPI processes it was given, the
    instrument parameters lambda, RV = -1 and verbose = 1, on the disk the
    folder step left, with the mapper's seven parameters laid over those
    the Sample component had.  What the simulator returns or raises is what
    the runner returns or raises, and the Sample component keeps the new
    parameters either way. *)
Theorem run_on_sample_simulates {F Data}
    (float : list byte -> option F)
    (makedirs : string -> M disk unit)
    (run_full_instrument : request -> gmap string (pm_value F) -> M disk Data)
    cfg sample_name hkl_file lambda0 ncount mpi (w : world F) d1 vals :
  output_folder_step makedirs cfg (w_disk w) = (inr tt, d1) ->
  (read_hkl float hkl_file d1).1 = inr vals ->
  exists pms,
    powdern_pms hkl_file vals = Some pms
    /\ run_on_sample float makedirs run_full_instrument cfg sample_name
         hkl_file lambda0 ncount mpi w
       = ((run_full_instrument
             (sample_request cfg sample_name lambda0 ncount mpi)
             (pms ∪ w_sample w) d1).1,
          World
            (run_full_instrument
               (sample_request cfg sample_name lambda0 ncount mpi)
               (pms ∪ w_sample w) d1).2
            (pms ∪ w_sample w)
            (w_log w
             ++ [ EvRunOnSample sample_name hkl_file lambda0 ncount mpi;
                  EvRunFullInstrument
                    (sample_request cfg sample_name lambda0 ncount mpi) ])).
Proof.
  intros Hstep Hread. rewrite run_on_sample_run, Hstep.
  destruct (hkl_to_powdern_pms_run float hkl_file d1) as [_ Hok].
  destruct (Hok vals Hread) as (pms & Hpms & ->). exists pms.
  by split.
Qed.

Lemma run_on_sample_simulates_witness :
  exists pms,
    powdern_pms "a.hkl"
      (dict_of (read_hkl token_float "a.hkl" (w_disk example_world)).1)
    = Some pms
    /\ run_on_sample token_float demo_makedirs demo_simulator
         example_config "a" "a.hkl" (Q2Qc 1) (Q2Qc 10000000) 1
         example_world
       = ((demo_simulator
             (sample_request example_config "a" (Q2Qc 1) (Q2Qc 10000000) 1)
             (pms ∪ w_sample example_world)
             (output_folder_step demo_makedirs example_config
                (w_disk example_world)).2).1,
          World
            (demo_simulator
               (sample_request example_config "a" (Q2Qc 1) (Q2Qc 10000000) 1)
               (pms ∪ w_sample example_world)
               (output_folder_step demo_makedirs example_config
                  (w_disk example_world)).2).2
            (pms ∪ w_sample example_world)
            (w_log example_world
             ++ [ EvRunOnSample "a" "a.hkl" (Q2Qc 1) (Q2Qc 10000000) 1;
                  EvRunFullInstrument
                    (sample_request example_config "a" (Q2Qc 1)
                       (Q2Qc 10000000) 1) ])).
Proof.
  apply (run_on_sample_simulates token_float demo_makedirs demo_simulator
           example_config "a" "a.hkl" (Q2Qc 1) (Q2Qc 10000000) 1
           example_world
           (output_folder_step demo_makedirs example_config
              (w_disk example_world)).2).
  - vm_compute. reflexivity.
  - vm_compute. reflexivity.
Defined.

(** ** More on the sweep *)

Lemma elem_of_sweep_points cfg l c :
  (l, c) ∈ sweep_points cfg
  <-> l ∈ lambda0s cfg /\ c ∈ (crystal_hkls cfg).*1.
Proof.
  unfold sweep_points. rewrite list_elem_of_bind. split.
  - intros (l' & Hin & Hl').
    by apply list_elem_of_fmap in Hin as (c' & [= -> ->] & Hc).
  - intros [Hl Hc]. exists l. split; [|done].
    apply list_elem_of_fmap. by exists c.
Qed.

Lemma length_sweep_points cfg :
  length (sweep_points cfg)
  = length (lambda0s cfg) * length (crystal_hkls cfg).
Proof.
  unfold sweep_points. induction (lambda0s cfg) as [|l ls IH]; csimpl;
    [done|].
  by rewrite length_app, !length_fmap, IH.
Qed.

Section ExecuteMore.

Context {F Data : Type}.
Variable float : list byte -> option F.
Variable makedirs : string -> M disk unit.
Variable run_full_instrument :
  request -> gmap string (pm_value F) -> M disk Data.

Abbreviation run_on_sample' :=
  (run_on_sample float makedirs run_full_instrument).
Abbreviation execute_samples' :=
  (execute_samples float makedirs run_full_instrument).
Abbreviation execute_wavelengths' :=
  (execute_wavelengths float makedirs run_full_instrument).
Abbreviation execute' := (execute float makedirs run_full_instrument).

Lemma execute_samples_failure cfg l items :
  forall (R : gmap Qc (gmap string Data)) inner w e w',
    R !! l = Some inner ->
    execute_samples' cfg l items R w = (inl e, w') ->
    exists pre crys hkl post R0 w0,
      items = pre ++ (crys, hkl) :: post
      /\ execute_samples' cfg l pre R w = (inr R0, w0)
      /\ run_on_sample' cfg crys hkl l (ncount cfg) (mpi cfg) w0
         = (inl e, w').
Proof.
  induction items as [|[crys hkl] items IH]; intros R inner w e w' HR;
    simpl; [done|].
  unfold bind at 1.
  destruct (run_on_sample' cfg crys hkl l (ncount cfg) (mpi cfg) w)
    as [[e0|data] w1] eqn:Hrun.
  - intros [= <- <-]. by exists [], crys, hkl, items, R, w.
  - unfold bind at 1. rewrite (store_result_Some R l crys data inner) by done.
    intros Hrest.
    eapply IH in Hrest
      as (pre & c & h & post & R0 & w0 & -> & Hpre & Hfail);
      [|apply lookup_insert_eq].
    exists ((crys, hkl) :: pre), c, h, post, R0, w0.
    split; [done|]. split; [|done].
    simpl. unfold bind at 1. rewrite Hrun. unfold bind at 1.
    by rewrite (store_result_Some R l crys data inner).
Qed.

Lemma execute_wavelengths_failure cfg ls :
  forall (R : gmap Qc (gmap string Data)) w e w',
    execute_wavelengths' cfg ls R w = (inl e, w') ->
    exists lpre l lpost pre crys hkl post R1 w1 R0 w0,
      ls = lpre ++ l :: lpost
      /\ crystal_hkls cfg = pre ++ (crys, hkl) :: post
      /\ execute_wavelengths' cfg lpre R w = (inr R1, w1)
      /\ execute_samples' cfg l pre (<[l := ∅]> R1) w1 = (inr R0, w0)
      /\ run_on_sample' cfg crys hkl l (ncount cfg) (mpi cfg) w0
         = (inl e, w').
Proof.
  induction ls as [|l ls IH]; intros R w e w'; simpl; [done|].
  unfold bind at 1.
  destruct (execute_samples' cfg l (crystal_hkls cfg) (<[l:=∅]> R) w)
    as [[e0|R1] w1] eqn:Hrun.
  - intros [= <- <-].
    eapply execute_samples_failure in Hrun
      as (pre & c & h & post & R0 & w0 & Hitems & Hpre & Hfail);
      [|apply lookup_insert_eq].
    by exists [], l, ls, pre, c, h, post, R, w, R0, w0.
  - intros Hrest.
    apply IH in Hrest
      as (lpre & l' & lpost & pre & c & h & post & R2 & w2 & R0 & w0
          & -> & Hitems & Hlpre & Hpre & Hfail).
    exists (l :: lpre), l', lpost, pre, c, h, post, R2, w2, R0, w0.
    split; [done|]. split; [done|]. split; [|done].
    simpl. unfold bind at 1. by rewrite Hrun.
Qed.

Lemma execute_wavelengths_no_samples cfg ls :
  crystal_hkls cfg = [] ->
  forall (R : gmap Qc (gmap string Data)) w,
    exists R',
      execute_wavelengths' cfg ls R w = (inr R', w)
      /\ forall x, R' !! x = if decide (x ∈ ls) then Some ∅ else R !! x.
Proof.
  intros Hnone. induction ls as [|l ls IH]; intros R w; simpl.
  - by exists R.
  - rewrite Hnone. simpl. unfold bind at 1, ret at 1.
    destruct (IH (<[l := ∅]> R) w) as (R' & -> & HR'). exists R'.
    split; [done|]. intros x. rewrite HR'.
    destruct (decide (x ∈ ls)) as [Hx|Hx].
    + rewrite decide_True; [done|]. apply elem_of_cons. by right.
    + destruct (decide (x = l)) as [->|Hne].
      * rewrite decide_True by (apply elem_of_cons; by left).
        by rewrite lookup_insert_eq.
      * rewrite decide_False by (by apply not_elem_of_cons).
        by rewrite lookup_insert_ne.
Qed.

End ExecuteMore.

Section ReplayMore.

Context {F Data : Type}.
Variable load_data : string -> disk -> exn + Data.

Abbreviation replay_samples' := (replay_samples (F:=F) load_data).
Abbreviation replay_wavelengths' := (replay_wavelengths (F:=F) load_data).
Abbreviation replay' := (replay (F:=F) load_data).

Lemma replay_samples_contents cfg l keys :
  forall (R : gmap Qc (gmap string Data)) inner w R' w',
    R !! l = Some inner ->
    replay_samples' cfg l keys R w = (inr R', w') ->
    exists inner',
      R' = <[l := inner']> R
      /\ (forall c, c ∈ keys ->
            exists data,
              load_data (replay_folder cfg l c) (w_disk w) = inr data
              /\ inner' !! c = Some data)
      /\ (forall c, c ∉ keys -> inner' !! c = inner !! c).
Proof.
  induction keys as [|crys keys IH]; intros R inner w R' w' HR; simpl.
  - intros [= <- <-]. exists inner. split; [by rewrite insert_id|].
    split; [|done]. intros c Hc. by apply elem_of_nil in Hc.
  - unfold bind at 1, load at 1.
    destruct (load_data (replay_folder cfg l crys) (w_disk w))
      as [e|data] eqn:Hload; [done|].
    unfold bind at 1. rewrite (store_result_Some R l crys data inner) by done.
    intros Hrest.
    eapply IH in Hrest as (inner' & -> & Hin & Hout);
      [|apply lookup_insert_eq].
    exists inner'. split; [by rewrite insert_insert_eq|]. split.
    + intros c Hc. destruct (decide (c ∈ keys)) as [Hk|Hk]; [by apply Hin|].
      apply elem_of_cons in Hc as [->|Hc]; [|done].
      exists data. split; [done|]. by rewrite Hout, lookup_insert_eq.
    + intros c [Hne Hk]%not_elem_of_cons.
      by rewrite Hout, lookup_insert_ne.
Qed.

Lemma replay_wavelengths_contents cfg ls :
  forall (R : gmap Qc (gmap string Data)) w R' w',
    replay_wavelengths' cfg ls R w = (inr R', w') ->
    (forall l, l ∈ ls ->
       exists inner,
         R' !! l = Some inner
         /\ (forall c, c ∈ (crystal_hkls cfg).*1 ->
               exists data,
                 load_data (replay_folder cfg l c) (w_disk w) = inr data
                 /\ inner !! c = Some data)
         /\ (forall c, c ∉ (crystal_hkls cfg).*1 -> inner !! c = None))
    /\ (forall l, l ∉ ls -> R' !! l = R !! l).
Proof.
  induction ls as [|l ls IH]; intros R w R' w'; simpl.
  - intros [= <- <-]. split; [|done]. intros l Hl. by apply elem_of_nil in Hl.
  - unfold bind at 1.
    destruct (replay_samples_spec (F:=F) load_data cfg l
                (crystal_hkls cfg).*1 (<[l := ∅]> R) ∅ w)
      as (r1 & Hrun1 & _); [apply lookup_insert_eq|].
    rewrite Hrun1. destruct r1 as [e|R1]; [done|].
    eapply replay_samples_contents in Hrun1 as (inner1 & -> & Hin1 & Hout1);
      [|apply lookup_insert_eq].
    intros Hrest. apply IH in Hrest as [Hin Hout]. split.
    + intros l' Hl'. destruct (decide (l' ∈ ls)) as [Hk|Hk]; [by apply Hin|].
      apply elem_of_cons in Hl' as [->|Hl']; [|done].
      exists inner1. rewrite Hout, lookup_insert_eq by done.
      split; [done|]. split; [done|].
      intros c Hc. by rewrite Hout1, lookup_empty.
    + intros l' [Hne Hk]%not_elem_of_cons.
      by rewrite Hout, !lookup_insert_ne.
Qed.

Lemma replay_samples_app cfg l xs ys (R : gmap Qc (gmap string Data)) w :
  replay_samples' cfg l (xs ++ ys) R w
  = bind (replay_samples' cfg l xs R)
      (fun R1 => replay_samples' cfg l ys R1) w.
Proof.
  revert R w. induction xs as [|x xs IH]; intros R w; simpl.
  { unfold bind, ret. done. }
  unfold bind in *. destruct (load load_data _ w) as [[e|data] w1]; [done|].
  destruct (store_result R l x data w1) as [[e|R1] w2]; [done|].
  apply IH.
Qed.

Lemma replay_wavelengths_app cfg xs ys (R : gmap Qc (gmap string Data)) w :
  replay_wavelengths' cfg (xs ++ ys) R w
  = bind (replay_wavelengths' cfg xs R)
      (fun R1 => replay_wavelengths' cfg ys R1) w.
Proof.
  revert R w. induction xs as [|x xs IH]; intros R w; simpl.
  { unfold bind, ret. done. }
  unfold bind in *.
  destruct (replay_samples' cfg x _ _ w) as [[e|R1] w1]; [done|].
  apply IH.
Qed.

Lemma replay_wavelengths_no_samples cfg ls :
  crystal_hkls cfg = [] ->
  forall (R : gmap Qc (gmap string Data)) w,
    exists R',
      replay_wavelengths' cfg ls R w = (inr R', w)
      /\ forall x, R' !! x = if decide (x ∈ ls) then Some ∅ else R !! x.
Proof.
  intros Hnone. induction ls as [|l ls IH]; intros R w; simpl.
  - by exists R.
  - rewrite Hnone. simpl. unfold bind at 1, ret at 1.
    destruct (IH (<[l := ∅]> R) w) as (R' & -> & HR'). exists R'.
    split; [done|]. intros x. rewrite HR'.
    destruct (decide (x ∈ ls)) as [Hx|Hx].
    + rewrite decide_True; [done|]. apply elem_of_cons. by right.
    + destruct (decide (x = l)) as [->|Hne].
      * rewrite decide_True by (apply elem_of_cons; by left).
        by rewrite lookup_insert_eq.
      * rewrite decide_False by (by apply not_elem_of_cons).
        by rewrite lookup_insert_ne.
Qed.

End ReplayMore.

(** X13: a sweep that runs through in execute mode invokes the runner once
    for every Sweep Point, wavelengths outermost and samples in the order
    of [crystal_hkls], asks the simulator for the folder of each point in
    the same order, so for as many folders as there are wavelengths times
    samples, and returns a collection keyed by exactly the Sweep Points. *)
Theorem execute_every_point {F Data} (float : list byte -> option F)
    (makedirs : string -> M disk unit)
    (run_full_instrument : request -> gmap string (pm_value F) -> M disk Data)
    (cfg : config) (w : world F) (R : gmap Qc (gmap string Data))
    (w' : world F) :
  execute float makedirs run_full_instrument cfg w = (inr R, w') ->
  exists evs,
    w_log w' = w_log w ++ evs
    /\ runner_calls evs = sweep_points cfg
    /\ requested_folders evs
       = (fun p => foldername cfg p.1 p.2) <$> sweep_points cfg
    /\ length (requested_folders evs)
       = length (lambda0s cfg) * length (crystal_hkls cfg)
    /\ result_keys R = list_to_set (sweep_points cfg).
Proof.
  intros Hrun.
  apply execute_spec in Hrun as (evs & Hlog & Hcalls & Hfolders & Hkeys).
  exists evs. split; [done|]. split; [done|]. split; [done|].
  split; [|done]. by rewrite Hfolders, length_fmap, length_sweep_points.
Qed.

Lemma execute_every_point_witness :
  exists evs,
    w_log example_world_after = w_log example_world ++ evs
    /\ runner_calls evs = sweep_points example_config
    /\ requested_folders evs
       = (fun p => foldername example_config p.1 p.2)
         <$> sweep_points example_config
    /\ length (requested_folders evs)
       = length (lambda0s example_config)
         * length (crystal_hkls example_config)
    /\ result_keys
         (dict_of_results
            (execute token_float demo_makedirs demo_simulator example_config
               example_world).1)
       = list_to_set (sweep_points example_config).
Proof.
  apply (execute_every_point token_float demo_makedirs demo_simulator
             example_config
           example_world).
  vm_compute. reflexivity.
Defined.

(** X14: a sweep that raises in execute mode stops at the first Sweep Point
    whose runner call raises.  The points before it, in sweep order, have
    all been run and simulated; the exception is the one that runner call
    raised, the world is the one it left, and no later point is tried. *)
Theorem execute_first_failure {F Data} (float : list byte -> option F)
    (makedirs : string -> M disk unit)
    (run_full_instrument : request -> gmap string (pm_value F) -> M disk Data)
    (cfg : config) (w : world F) e (w' : world F) :
  execute float makedirs run_full_instrument cfg w = (inl e, w') ->
  exists evs l crys hkl rest w0,
    sweep_points cfg = runner_calls evs ++ (l, crys) :: rest
    /\ (crys, hkl) ∈ crystal_hkls cfg
    /\ w_log w0 = w_log w ++ evs
    /\ requested_folders evs
       = (fun p => foldername cfg p.1 p.2) <$> runner_calls evs
    /\ run_on_sample float makedirs run_full_instrument cfg crys hkl l
        (ncount cfg)
         (mpi cfg) w0 = (inl e, w')
    /\ runner_calls (w_log w')
       = runner_calls (w_log w) ++ runner_calls evs ++ [(l, crys)].
Proof.
  unfold execute. intros Hrun.
  apply execute_wavelengths_failure in Hrun
    as (lpre & l & lpost & pre & c & h & post & R1 & w1 & R0 & w0
        & Hls & Hitems & Hlpre & Hpre & Hfail).
  apply execute_wavelengths_spec in Hlpre as (evs1 & Hlog1 & _ & Hok1).
  destruct (Hok1 R1 eq_refl) as (Hc1 & Hf1 & _).
  eapply execute_samples_spec in Hpre as (evs2 & Hlog2 & _ & Hok2);
    [|apply lookup_insert_eq].
  destruct (Hok2 R0 eq_refl) as (Hc2 & Hf2 & _).
  exists (evs1 ++ evs2), l, c, h,
    (((fun c => (l, c)) <$> post.*1)
     ++ (x ← lpost; (fun c => (x, c)) <$> (crystal_hkls cfg).*1)), w0.
  split; [|split; [|split; [|split; [|split]]]].
  - unfold sweep_points. rewrite Hls, bind_app, bind_cons.
    rewrite runner_calls_app, Hc1, Hc2.
    rewrite <- app_assoc. f_equal.
    replace ((fun c0 => (l, c0)) <$> (crystal_hkls cfg).*1)
      with (((fun c0 => (l, c0)) <$> pre.*1)
            ++ (l, c) :: ((fun c0 => (l, c0)) <$> post.*1))
      by (by rewrite Hitems, !fmap_app).
    by rewrite <- app_assoc.
  - rewrite Hitems. apply elem_of_app. right. apply elem_of_cons. by left.
  - by rewrite Hlog2, Hlog1, app_assoc.
  - rewrite requested_folders_app, runner_calls_app, fmap_app.
    rewrite Hf1, Hf2, Hc1, Hc2. f_equal; [apply folders_of_product|].
    rewrite <- (list_fmap_compose (fun c0 : string => (l, c0))
                  (fun p : Qc * string => foldername cfg p.1 p.2)).
    reflexivity.
  - done.
  - apply run_on_sample_log in Hfail as (evs3 & Hlog3 & Hc3 & _).
    rewrite Hlog3, Hlog2, Hlog1, !runner_calls_app, Hc3.
    by rewrite <- !app_assoc.
Qed.

Lemma execute_first_failure_witness :
  exists evs (l : Qc) (crys hkl : string) rest (w0 : world string),
    sweep_points example_config = runner_calls evs ++ (l, crys) :: rest
    /\ (crys, hkl) ∈ crystal_hkls example_config
    /\ w_log w0 = w_log half_bad_world ++ evs
    /\ requested_folders evs
       = (fun p => foldername example_config p.1 p.2) <$> runner_calls evs
    /\ run_on_sample token_float demo_makedirs demo_simulator example_config
        crys hkl l
         (ncount example_config) (mpi example_config) w0
       = (inl IndexError,
          (execute token_float demo_makedirs demo_simulator example_config
             half_bad_world).2)
    /\ runner_calls
         (w_log (execute token_float demo_makedirs demo_simulator example_config
                   half_bad_world).2)
       = runner_calls (w_log half_bad_world) ++ runner_calls evs
         ++ [(l, crys)].
Proof.
  apply (execute_first_failure token_float demo_makedirs demo_simulator
             example_config
           half_bad_world IndexError
           (execute token_float demo_makedirs demo_simulator example_config
              half_bad_world).2).
  vm_compute. reflexivity.
Defined.

(** X15: with no wavelength or no sample to sweep over, either mode
    returns at once and leaves the world as it was: no file is read, no
    folder made, loaded or asked for.  The collection has an empty inner
    dict for every wavelength and nothing else. *)
Theorem sweep_nothing_to_do {F Data} (float : list byte -> option F)
    (makedirs : string -> M disk unit)
    (run_full_instrument : request -> gmap string (pm_value F) -> M disk Data)
    (load_data : string -> disk -> exn + Data)
    (cfg : config) (w : world F) :
  lambda0s cfg = [] \/ crystal_hkls cfg = [] ->
  exists R,
    sweep float makedirs run_full_instrument load_data cfg w = (inr R, w)
    /\ forall x,
         R !! x = if decide (x ∈ lambda0s cfg) then Some ∅ else None.
Proof.
  intros [Hnone|Hnone]; unfold sweep, execute, replay.
  - rewrite Hnone. exists ∅. split; [by destruct (run_simulation cfg)|].
    intros x. by rewrite decide_False by set_solver.
  - destruct (run_simulation cfg).
    + destruct (execute_wavelengths_no_samples float makedirs
        run_full_instrument cfg
                  (lambda0s cfg) Hnone ∅ w) as (R & HR & Hshape).
      exists R. split; [done|]. intros x. by rewrite Hshape, lookup_empty.
    + destruct (replay_wavelengths_no_samples (F:=F) load_data cfg
                  (lambda0s cfg) Hnone ∅ w) as (R & HR & Hshape).
      exists R. split; [done|]. intros x. by rewrite Hshape, lookup_empty.
Qed.

Lemma sweep_nothing_to_do_witness :
  exists R,
    sweep token_float demo_makedirs demo_simulator demo_loader no_sample_config
      example_world = (inr R, example_world)
    /\ forall x,
         R !! x = if decide (x ∈ lambda0s no_sample_config)
                  then Some ∅ else None.
Proof.
  apply (sweep_nothing_to_do token_float demo_makedirs demo_simulator
             demo_loader
           no_sample_config example_world).
  right. reflexivity.
Defined.

(** X16: the collection that replay mode returns holds, for every Sweep
    Point, the dataset the loader read from that point's folder, and the
    world is as it was before. *)
Theorem replay_contents {F Data}
    (load_data : string -> disk -> exn + Data)
    (cfg : config) (w : world F) (R : gmap Qc (gmap string Data))
    (w' : world F) :
  replay load_data cfg w = (inr R, w') ->
  w' = w
  /\ forall l c, (l, c) ∈ sweep_points cfg ->
       exists inner data,
         R !! l = Some inner
         /\ inner !! c = Some data
         /\ load_data (replay_folder cfg l c) (w_disk w) = inr data.
Proof.
  intros Hrun. split.
  - destruct (replay_spec (F:=F) load_data cfg w) as (r & Hr & _). congruence.
  - apply replay_wavelengths_contents in Hrun as [Hin _].
    intros l c [Hl Hc]%elem_of_sweep_points.
    destruct (Hin l Hl) as (inner & HR & Hdata & _).
    destruct (Hdata c Hc) as (data & Hload & Hc'). by exists inner, data.
Qed.

Lemma replay_contents_witness :
  example_world_after = example_world_after
  /\ forall l c, (l, c) ∈ sweep_points example_config ->
       exists inner data,
         dict_of_results
           (replay demo_loader example_config example_world_after).1
         !! l = Some inner
         /\ inner !! c = Some data
         /\ demo_loader (replay_folder example_config l c)
              (w_disk example_world_after) = inr data.
Proof.
  apply (replay_contents demo_loader example_config example_world_after).
  vm_compute. reflexivity.
Defined.

(** X17: replay mode raises at the first Sweep Point, in sweep order, on
    whose folder the loader raises, and with the loader's exception: the
    folders of later points are never looked at. *)
Theorem replay_first_failure {F Data}
    (load_data : string -> disk -> exn + Data)
    (cfg : config) (w : world F) lpre l lpost kpre c kpost e :
  lambda0s cfg = lpre ++ l :: lpost ->
  (crystal_hkls cfg).*1 = kpre ++ c :: kpost ->
  (forall l' c', l' ∈ lpre -> c' ∈ (crystal_hkls cfg).*1 ->
     readable load_data (w_disk w) (replay_folder cfg l' c')) ->
  (forall c', c' ∈ kpre ->
     readable load_data (w_disk w) (replay_folder cfg l c')) ->
  load_data (replay_folder cfg l c) (w_disk w) = inl e ->
  replay load_data cfg w = (inl e, w).
Proof.
  intros Hls Hkeys Hbefore Hrow Hload. unfold replay.
  rewrite Hls, replay_wavelengths_app. unfold bind at 1.
  destruct (replay_wavelengths_spec (F:=F) load_data cfg lpre ∅ w)
    as (r1 & -> & Hr1).
  destruct r1 as [e1|R1].
  { destruct Hr1 as (l' & c' & Hl' & Hc' & Hfail).
    destruct (Hbefore l' c' Hl' Hc') as [data Hdata]. congruence. }
  simpl. unfold bind at 1. rewrite Hkeys, replay_samples_app.
  unfold bind at 1.
  destruct (replay_samples_spec (F:=F) load_data cfg l kpre
              (<[l := ∅]> R1) ∅ w) as (r2 & -> & Hr2);
    [apply lookup_insert_eq|].
  destruct r2 as [e2|R2].
  { destruct Hr2 as (c' & Hc' & Hfail).
    destruct (Hrow c' Hc') as [data Hdata]. congruence. }
  simpl. unfold bind at 1, load at 1. by rewrite Hload.
Qed.

Lemma replay_first_failure_witness :
  replay demo_loader example_config one_folder_world
  = (inl (ExternalError "NameError" "Given data directory does not exist."),
     one_folder_world).
Proof.
  apply (replay_first_failure demo_loader example_config one_folder_world
           [] (Q2Qc 1) [Q2Qc (3 # 2)] ["a"] "b" []).
  - reflexivity.
  - reflexivity.
  - intros l' c' Hl'. by apply elem_of_nil in Hl'.
  - intros c' ->%list_elem_of_singleton. eexists. vm_compute. reflexivity.
  - vm_compute. reflexivity.
Defined.

(** ** Execute mode followed by replay mode *)

(** X18: when the simulator leaves, under the name it was asked for, a
    folder the loader reads, and neither a later run nor a new directory
    makes a folder unreadable, a sweep that ran through in execute mode
    with an empty postfix can be replayed at once: replay mode with the
    same configuration returns a collection with the same keys and leaves
    the world as the sweep left it. *)
Theorem execute_then_replay {F Data} (float : list byte -> option F)
    (makedirs : string -> M disk unit)
    (run_full_instrument : request -> gmap string (pm_value F) -> M disk Data)
    (load_data : string -> disk -> exn + Data)
    (cfg : config) (w : world F) (R1 : gmap Qc (gmap string Data))
    (w1 : world F) :
  (forall rq sample d data d',
     run_full_instrument rq sample d = (inr data, d') ->
     readable load_data d' (rq_foldername rq)) ->
  (forall rq sample d r d' folder,
     run_full_instrument rq sample d = (r, d') ->
     readable load_data d folder -> readable load_data d' folder) ->
  (forall p d r d' folder,
     makedirs p d = (r, d') ->
     readable load_data d folder -> readable load_data d' folder) ->
  postfix cfg = "" ->
  execute float makedirs run_full_instrument cfg w = (inr R1, w1) ->
  exists R2,
    replay load_data cfg w1 = (inr R2, w1)
    /\ result_keys R2 = result_keys R1.
Proof.
  intros Hwrites Hkeeps Hdirs Hpost Hexec.
  pose proof (execute_leaves_folders float makedirs run_full_instrument
                (readable load_data) Hwrites Hkeeps Hdirs cfg w R1 w1 Hexec)
    as Hread.
  apply execute_spec in Hexec as (_ & _ & _ & _ & Hkeys1).
  destruct (replay_spec (F:=F) load_data cfg w1) as (r & Hrun & Hr).
  destruct r as [e|R2].
  - destruct Hr as (l & c & Hpt & Hfail).
    rewrite replay_folder_no_postfix in Hfail by done.
    destruct (Hread l c Hpt) as [data Hdata]. congruence.
  - destruct Hr as [_ Hkeys2]. exists R2. split; [done|]. congruence.
Qed.

Lemma execute_then_replay_witness :
  exists R2,
    replay demo_loader example_config example_world_after
    = (inr R2, example_world_after)
    /\ result_keys R2
       = result_keys
           (dict_of_results
              (execute token_float demo_makedirs demo_simulator example_config
                 example_world).1).
Proof.
  apply (execute_then_replay token_float demo_makedirs demo_simulator
             demo_loader
           example_config example_world
           (dict_of_results
              (execute token_float demo_makedirs demo_simulator example_config
                 example_world).1)
           example_world_after).
  - apply demo_simulator_writes.
  - apply demo_simulator_keeps.
  - apply demo_makedirs_keeps.
  - reflexivity.
  - vm_compute. reflexivity.
Defined.

(** ** More on the plotter *)

Lemma bind_inr {S A B} (m : M S A) (k : A -> M S B) s a s' :
  m s = (inr a, s') -> bind m k s = k a s'.
Proof. intros H. unfold bind. by rewrite H. Qed.

Lemma bind_inl {S A B} (m : M S A) (k : A -> M S B) s e s' :
  m s = (inl e, s') -> bind m k s = (inl e, s').
Proof. intros H. unfold bind. by rewrite H. Qed.

Section PlotMore.

Context {Data : Type}.
Variable name_search : string -> Data -> exn + pattern.

Lemma bind_ld_global {A} x v (k : pyval Data -> M (frame Data) A) fr :
  x ∉ plot_diffr_locals ->
  fr_globals fr !! x = Some v ->
  bind (ld x) k fr = k v fr.
Proof.
  intros Hx Hv. unfold bind, ld, load_name.
  rewrite decide_False by done. by rewrite Hv.
Qed.

Lemma bind_ld_local {A} x v (k : pyval Data -> M (frame Data) A) fr :
  x ∈ plot_diffr_locals ->
  fr_locals fr !! x = Some v ->
  bind (ld x) k fr = k v fr.
Proof.
  intros Hx Hv. unfold bind, ld, load_name.
  rewrite decide_True by done. by rewrite Hv.
Qed.

Lemma bind_ld_unbound {A} x (k : pyval Data -> M (frame Data) A) fr :
  x ∈ plot_diffr_locals ->
  fr_locals fr !! x = None ->
  bind (ld x) k fr = (inl (UnboundLocalError x), fr).
Proof.
  intros Hx Hv. unfold bind, ld, load_name.
  rewrite decide_True by done. by rewrite Hv.
Qed.

Lemma bind_st {A} x v (k : unit -> M (frame Data) A) fr :
  x ∈ plot_diffr_locals ->
  bind (st x v) k fr
  = k tt (Frame (fr_globals fr) (<[x := v]> (fr_locals fr)) (fr_canvas fr)).
Proof.
  intros Hx. unfold bind, st, store_name. by rewrite decide_True by done.
Qed.

Lemma bind_draw {A} c (k : unit -> M (frame Data) A) (fr : frame Data) :
  bind (draw c) k fr
  = k tt (Frame (fr_globals fr) (fr_locals fr) (fr_canvas fr ++ [c])).
Proof. done. Qed.

Lemma bind_of_result_inr {A B} (a : A) (k : A -> M (frame Data) B) fr :
  bind (of_result (inr a)) k fr = k a fr.
Proof. done. Qed.

Lemma bind_of_result_inl {A B} e (k : A -> M (frame Data) B) fr :
  bind (of_result (inl e)) k fr = (inl e, fr).
Proof. done. Qed.

(** [colors[i]] at a position of [enumerate]. *)
Lemma subscript_enumerate (cols : list (pyval Data)) (i : nat) :
  subscript (VSeq cols) (VInt (Z.of_nat i))
  = match cols !! i with
    | Some v => inr v
    | None => inl IndexError
    end.
Proof.
  assert ((Z.of_nat i <? 0)%Z = false) as Hi by (apply Z.ltb_ge; lia).
  unfold subscript. rewrite Hi. cbv zeta iota. by rewrite Hi, Nat2Z.id.
Qed.

Ltac name_in := apply (bool_decide_unpack _); by vm_compute.

Ltac frame_lookup :=
  cbn [fr_locals fr_globals fr_canvas];
  repeat (rewrite lookup_insert_ne by discriminate);
  first [apply lookup_insert_eq | eassumption | reflexivity].

Ltac plot_step :=
  first
    [ rewrite bind_st by name_in
    | rewrite bind_draw
    | rewrite bind_of_result_inr
    | erewrite bind_ld_local by first [name_in | frame_lookup]
    | erewrite bind_ld_global by first [name_in | frame_lookup]
    | progress unfold as_seq, as_float ];
  cbn [fr_locals fr_globals fr_canvas].


Lemma plot_sample_draws i c fr r n cols l inner d p col :
  plotting fr r n cols l ->
  r !! l = Some inner ->
  inner !! c = Some d ->
  name_search n d = inr p ->
  cols !! i = Some col ->
  exists lo,
    plot_sample name_search i (VStr c) fr
    = (inr tt, Frame (fr_globals fr) lo (fr_canvas fr ++ curve p col c))
    /\ lo !! "lambda0" = fr_locals fr !! "lambda0"
    /\ lo !! "crystals_to_plot" = fr_locals fr !! "crystals_to_plot"
    /\ lo !! "ylabel" = Some (VStr (ylabel p)).
Proof.
  intros (Hres & Hname & Hcols & Hl) Hr Hinner Hp Hcol.
  unfold plot_sample.
  repeat plot_step.
  unfold subscript2. rewrite Hr, Hinner.
  repeat plot_step.
  unfold call_name_search. rewrite Hp.
  repeat plot_step.
  rewrite subscript_enumerate, Hcol.
  repeat plot_step.
  unfold draw. cbn [fr_locals fr_globals fr_canvas].
  eexists. split; [by rewrite <- app_assoc|].
  split; [|split]; frame_lookup.
Qed.

Lemma plot_sample_no_dataset i c fr r n cols l inner :
  plotting fr r n cols l ->
  r !! l = Some inner ->
  inner !! c = None ->
  exists lo,
    plot_sample name_search i (VStr c) fr
    = (inl (KeyError c), Frame (fr_globals fr) lo (fr_canvas fr)).
Proof.
  intros (Hres & Hname & Hcols & Hl) Hr Hinner.
  unfold plot_sample.
  repeat plot_step.
  unfold subscript2. rewrite Hr, Hinner, bind_of_result_inl.
  by eexists.
Qed.

Lemma plot_sample_no_color i c fr r n cols l inner d p :
  plotting fr r n cols l ->
  r !! l = Some inner ->
  inner !! c = Some d ->
  name_search n d = inr p ->
  cols !! i = None ->
  exists lo,
    plot_sample name_search i (VStr c) fr
    = (inl IndexError, Frame (fr_globals fr) lo (fr_canvas fr)).
Proof.
  intros (Hres & Hname & Hcols & Hl) Hr Hinner Hp Hcol.
  unfold plot_sample.
  repeat plot_step.
  unfold subscript2. rewrite Hr, Hinner.
  repeat plot_step.
  unfold call_name_search. rewrite Hp.
  repeat plot_step.
  rewrite subscript_enumerate, Hcol, bind_of_result_inl.
  by eexists.
Qed.

Lemma curves_cons pat (cols : list (pyval Data)) i col c cs :
  cols !! i = Some col ->
  curves pat (drop i cols) (c :: cs)
  = curve (pat c) col c ++ curves pat (drop (S i) cols) cs.
Proof. intros Hcol. by rewrite (drop_S _ _ _ Hcol). Qed.

Lemma plot_samples_draws pat r n cols l inner cs :
  forall i fr,
    plotting fr r n cols l ->
    r !! l = Some inner ->
    (forall c, c ∈ cs ->
       exists d, inner !! c = Some d /\ name_search n d = inr (pat c)) ->
    i + length cs <= length cols ->
    exists lo,
      plot_samples name_search i (VStr <$> cs) fr
      = (inr tt,
         Frame (fr_globals fr) lo
           (fr_canvas fr ++ curves pat (drop i cols) cs))
      /\ lo !! "lambda0" = fr_locals fr !! "lambda0"
      /\ lo !! "crystals_to_plot" = fr_locals fr !! "crystals_to_plot"
      /\ lo !! "ylabel"
         = match last cs with
           | Some c => Some (VStr (ylabel (pat c)))
           | None => fr_locals fr !! "ylabel"
           end.
Proof.
  induction cs as [|c cs IH]; intros i fr Hfr Hr Hgood Hlen.
  - exists (fr_locals fr). destruct fr as [g lo cv]. simpl.
    unfold ret, curves. simpl. by rewrite app_nil_r.
  - destruct (lookup_lt_is_Some_2 cols i) as [col Hcol]; [simpl in Hlen; lia|].
    destruct (Hgood c) as (d & Hd & Hp); [apply elem_of_cons; by left|].
    destruct (plot_sample_draws i c fr r n cols l inner d (pat c) col
                Hfr Hr Hd Hp Hcol) as (lo1 & Hrun1 & Hl1 & Hcs1 & Hy1).
    destruct Hfr as (Hres & Hname & Hcols & Hl).
    destruct (IH (S i)
                (Frame (fr_globals fr) lo1
                   (fr_canvas fr ++ curve (pat c) col c)))
      as (lo & Hrun & Hl' & Hcs' & Hy').
    { repeat split; try done. simpl. by rewrite Hl1. }
    { done. }
    { intros c' Hc'. apply Hgood, elem_of_cons. by right. }
    { simpl in Hlen. lia. }
    exists lo. cbn [fmap list_fmap plot_samples].
    change (list_fmap string (pyval Data) VStr cs) with (VStr <$> cs).
    rewrite (bind_inr _ _ _ _ _ Hrun1), Hrun.
    cbn [fr_locals fr_globals fr_canvas] in *.
    rewrite (curves_cons pat cols i col c cs Hcol), <- app_assoc.
    split; [done|]. split; [congruence|]. split; [congruence|].
    rewrite Hy', last_cons. by destruct (last cs).
Qed.

Lemma plot_samples_app i xs ys (fr : frame Data) :
  plot_samples name_search i (xs ++ ys) fr
  = bind (plot_samples name_search i xs)
      (fun _ => plot_samples name_search (i + length xs) ys) fr.
Proof.
  revert i fr. induction xs as [|x xs IH]; intros i fr; simpl.
  - unfold bind, ret. by rewrite Nat.add_0_r.
  - unfold bind in *.
    destruct (plot_sample name_search i x fr) as [[e|[]] fr1]; [done|].
    rewrite IH. by rewrite Nat.add_succ_r.
Qed.

(** The figure is opened and the curves of the crystals before [c] are
    drawn; then the turn for [c] raises. *)
Lemma plot_wavelength_stops pat r n cols l inner pre c post e fr :
  fr_globals fr !! "results" = Some (VResults r) ->
  fr_globals fr !! "instrument_name" = Some (VStr n) ->
  fr_globals fr !! "colors" = Some (VSeq cols) ->
  fr_locals fr !! "crystals_to_plot"
  = Some (VSeq (VStr <$> pre ++ c :: post)) ->
  r !! l = Some inner ->
  (forall c', c' ∈ pre ->
     exists d, inner !! c' = Some d /\ name_search n d = inr (pat c')) ->
  length pre <= length cols ->
  (forall fr', plotting fr' r n cols l ->
     exists lo,
       plot_sample name_search (length pre) (VStr c) fr'
       = (inl e, Frame (fr_globals fr') lo (fr_canvas fr'))) ->
  exists lo,
    plot_wavelength name_search (VFloat l) fr
    = (inl e,
       Frame (fr_globals fr) lo
         (fr_canvas fr ++ [CallSubplots] ++ curves pat cols pre)).
Proof.
  intros Hres Hname Hcols Hcs Hr Hgood Hlen Hfail.
  unfold plot_wavelength.
  repeat plot_step.
  rewrite fmap_app, fmap_cons.
  set (fr1 := Frame _ _ _).
  assert (plotting fr1 r n cols l) as Hfr1.
  { repeat split; try done. subst fr1. frame_lookup. }
  destruct (plot_samples_draws pat r n cols l inner pre 0 fr1 Hfr1 Hr Hgood)
    as (lo1 & Hrun1 & Hl1 & _); [simpl; lia|].
  set (fr2 := Frame (fr_globals fr1) lo1 _) in Hrun1.
  assert (plotting fr2 r n cols l) as Hfr2.
  { repeat split; try done. subst fr2. simpl. rewrite Hl1. apply Hfr1. }
  destruct (Hfail fr2 Hfr2) as (lo2 & Hrun2).
  exists lo2. apply bind_inl. rewrite plot_samples_app.
  rewrite (bind_inr _ _ _ _ _ Hrun1). simpl. rewrite length_fmap.
  rewrite (bind_inl _ _ _ _ _ Hrun2). subst fr2 fr1. simpl.
  by rewrite drop_0, <- app_assoc.
Qed.

Lemma plot_wavelength_draws pat r n cols l inner cs c_last fr :
  fr_globals fr !! "results" = Some (VResults r) ->
  fr_globals fr !! "instrument_name" = Some (VStr n) ->
  fr_globals fr !! "colors" = Some (VSeq cols) ->
  fr_locals fr !! "crystals_to_plot" = Some (VSeq (VStr <$> cs)) ->
  r !! l = Some inner ->
  (forall c, c ∈ cs ->
     exists d, inner !! c = Some d /\ name_search n d = inr (pat c)) ->
  length cs <= length cols ->
  last cs = Some c_last ->
  exists lo,
    plot_wavelength name_search (VFloat l) fr
    = (inr tt,
       Frame (fr_globals fr) lo
         (fr_canvas fr ++ figure pat cols l cs c_last))
    /\ lo !! "crystals_to_plot" = fr_locals fr !! "crystals_to_plot".
Proof.
  intros Hres Hname Hcols Hcs Hr Hgood Hlen Hlast.
  unfold plot_wavelength.
  repeat plot_step.
  set (fr1 := Frame _ _ _).
  assert (plotting fr1 r n cols l) as Hfr1.
  { repeat split; try done. subst fr1. frame_lookup. }
  destruct (plot_samples_draws pat r n cols l inner cs 0 fr1 Hfr1 Hr Hgood)
    as (lo1 & Hrun1 & Hl1 & Hcs1 & Hy1); [simpl; lia|].
  rewrite Hlast in Hy1.
  rewrite (bind_inr _ _ _ _ _ Hrun1).
  assert (lo1 !! "lambda0" = Some (VFloat l)) as Hl1'.
  { rewrite Hl1. apply Hfr1. }
  repeat plot_step.
  unfold draw. cbn [fr_locals fr_globals fr_canvas].
  exists lo1. split.
  - subst fr1. cbn [fr_locals fr_globals fr_canvas]. unfold figure.
    rewrite drop_0. by rewrite <- !app_assoc.
  - rewrite Hcs1. subst fr1. frame_lookup.
Qed.

Lemma plot_wavelengths_draws (pat : Qc -> string -> pattern) r n cols cs
    c_last ls :
  forall fr,
    fr_globals fr !! "results" = Some (VResults r) ->
    fr_globals fr !! "instrument_name" = Some (VStr n) ->
    fr_globals fr !! "colors" = Some (VSeq cols) ->
    fr_locals fr !! "crystals_to_plot" = Some (VSeq (VStr <$> cs)) ->
    (forall l c, l ∈ ls -> c ∈ cs ->
       exists inner d,
         r !! l = Some inner /\ inner !! c = Some d
         /\ name_search n d = inr (pat l c)) ->
    length cs <= length cols ->
    last cs = Some c_last ->
    exists lo,
      plot_wavelengths name_search (VFloat <$> ls) fr
      = (inr tt,
         Frame (fr_globals fr) lo
           (fr_canvas fr
            ++ (l ← ls; figure (pat l) cols l cs c_last))).
Proof.
  induction ls as [|l ls IH];
    intros fr Hres Hname Hcols Hcs Hgood Hlen Hlast.
  - exists (fr_locals fr). destruct fr as [g lo cv]. simpl.
    unfold ret. by rewrite app_nil_r.
  - assert (c_last ∈ cs) as Hin.
    { apply last_Some in Hlast as [cs' ->]. set_solver. }
    destruct (Hgood l c_last) as (inner & _ & Hr & _);
      [apply elem_of_cons; by left|done|].
    destruct (plot_wavelength_draws (pat l) r n cols l inner cs c_last fr)
      as (lo1 & Hrun1 & Hcs1); try done.
    { intros c Hc. destruct (Hgood l c) as (inner' & d & Hr' & Hd & Hp);
        [apply elem_of_cons; by left|done|].
      exists d. split; [congruence|done]. }
    destruct (IH (Frame (fr_globals fr) lo1
                    (fr_canvas fr ++ figure (pat l) cols l cs c_last)))
      as (lo & Hrun); try done.
    { simpl. by rewrite Hcs1. }
    { intros l' c Hl' Hc. apply Hgood; [|done]. apply elem_of_cons.
      by right. }
    exists lo. cbn [fmap list_fmap plot_wavelengths].
    change (list_fmap Qc (pyval Data) VFloat ls) with (VFloat <$> ls).
    rewrite (bind_inr _ _ _ _ _ Hrun1), Hrun.
    cbn [fr_locals fr_globals fr_canvas]. by rewrite bind_cons, <- app_assoc.
Qed.

Lemma plot_diffr_stops pat r n cols l ls inner pre c post e fr :
  fr_globals fr !! "lambda0s" = Some (VSeq (VFloat l :: ls)) ->
  fr_globals fr !! "results" = Some (VResults r) ->
  fr_globals fr !! "instrument_name" = Some (VStr n) ->
  fr_globals fr !! "colors" = Some (VSeq cols) ->
  r !! l = Some inner ->
  (forall c', c' ∈ pre ->
     exists d, inner !! c' = Some d /\ name_search n d = inr (pat c')) ->
  length pre <= length cols ->
  (forall fr', plotting fr' r n cols l ->
     exists lo,
       plot_sample name_search (length pre) (VStr c) fr'
       = (inl e, Frame (fr_globals fr') lo (fr_canvas fr'))) ->
  plot_diffr name_search (pre ++ c :: post) fr
  = (inl e,
     Frame (fr_globals fr) (fr_locals fr)
       (fr_canvas fr ++ [CallSubplots] ++ curves pat cols pre)).
Proof.
  intros Hls Hres Hname Hcols Hr Hgood Hlen Hfail.
  unfold plot_diffr, plot_diffr_body.
  repeat plot_step. cbn [plot_wavelengths].
  set (fr0 := Frame _ _ _).
  destruct (plot_wavelength_stops pat r n cols l inner pre c post e fr0)
    as (lo & Hrun); try done.
  by rewrite (bind_inl _ _ _ _ _ Hrun).
Qed.

Lemma plot_diffr_run (pat : Qc -> string -> pattern) r n cols cs c_last ls
    fr :
  fr_globals fr !! "lambda0s" = Some (VSeq (VFloat <$> ls)) ->
  fr_globals fr !! "results" = Some (VResults r) ->
  fr_globals fr !! "instrument_name" = Some (VStr n) ->
  fr_globals fr !! "colors" = Some (VSeq cols) ->
  (forall l c, l ∈ ls -> c ∈ cs ->
     exists inner d,
       r !! l = Some inner /\ inner !! c = Some d
       /\ name_search n d = inr (pat l c)) ->
  length cs <= length cols ->
  last cs = Some c_last ->
  plot_diffr name_search cs fr
  = (inr tt,
     Frame (fr_globals fr) (fr_locals fr)
       (fr_canvas fr ++ (l ← ls; figure (pat l) cols l cs c_last))).
Proof.
  intros Hls Hres Hname Hcols Hgood Hlen Hlast.
  unfold plot_diffr, plot_diffr_body.
  repeat plot_step.
  set (fr0 := Frame _ _ _).
  destruct (plot_wavelengths_draws pat r n cols cs c_last ls fr0)
    as (lo & Hrun); try done.
  by rewrite Hrun.
Qed.

Lemma plot_wavelength_nothing l (fr : frame Data) :
  fr_locals fr !! "crystals_to_plot" = Some (VSeq []) ->
  fr_locals fr !! "ylabel" = None ->
  exists lo,
    plot_wavelength name_search l fr
    = (inl (UnboundLocalError "ylabel"),
       Frame (fr_globals fr) lo
         (fr_canvas fr
          ++ [ CallSubplots; CallSetXlim; CallSetYlim; CallSetYscale;
               CallSetXlabel ])).
Proof.
  intros Hcs Hy. unfold plot_wavelength.
  repeat plot_step.
  cbn [plot_samples]. change (bind (ret tt) ?k ?s) with (k tt s). cbv beta.
  repeat plot_step.
  rewrite bind_ld_unbound by first [name_in | frame_lookup].
  eexists. by rewrite <- !app_assoc.
Qed.

Lemma plot_diffr_nothing l ls (fr : frame Data) :
  fr_globals fr !! "lambda0s" = Some (VSeq (l :: ls)) ->
  plot_diffr name_search [] fr
  = (inl (UnboundLocalError "ylabel"),
     Frame (fr_globals fr) (fr_locals fr)
       (fr_canvas fr
        ++ [ CallSubplots; CallSetXlim; CallSetYlim; CallSetYscale;
             CallSetXlabel ])).
Proof.
  intros Hls. unfold plot_diffr, plot_diffr_body.
  repeat plot_step. cbn [plot_wavelengths].
  set (fr0 := Frame _ _ _).
  destruct (plot_wavelength_nothing l fr0) as (lo & Hrun); [done..|].
  by rewrite (bind_inl _ _ _ _ _ Hrun).
Qed.

End PlotMore.

(** X19: a call that plots every crystal for every wavelength.  With the
    crystals' datasets in [results] under every wavelength, and at least as
    many colours as crystals, [plot_diffr] returns, and draws one figure
    per wavelength of [lambda0s], in order: the line and the band of each
    crystal in the colour of its position, the line labelled by the
    crystal's name; then the limits, the log scale and the x label, the y
    label taken from the pattern of the crystal plotted last, the grid, the
    title with the wavelength to one decimal, the legend, and the figure is
    shown.  The caller's names are as before. *)
Theorem plot_diffr_draws {Data}
    (name_search : string -> Data -> exn + pattern)
    (pat : Qc -> string -> pattern) r n cols crystals last_crys ls
    (fr : frame Data) :
  fr_globals fr !! "lambda0s" = Some (VSeq (VFloat <$> ls)) ->
  fr_globals fr !! "results" = Some (VResults r) ->
  fr_globals fr !! "instrument_name" = Some (VStr n) ->
  fr_globals fr !! "colors" = Some (VSeq cols) ->
  (forall l c, l ∈ ls -> c ∈ crystals ->
     exists inner d,
       r !! l = Some inner /\ inner !! c = Some d
       /\ name_search n d = inr (pat l c)) ->
  length crystals <= length cols ->
  last crystals = Some last_crys ->
  plot_diffr name_search crystals fr
  = (inr tt,
     Frame (fr_globals fr) (fr_locals fr)
       (fr_canvas fr
        ++ (l ← ls; figure (pat l) cols l crystals last_crys))).
Proof. apply plot_diffr_run. Qed.

Lemma plot_diffr_draws_witness :
  plot_diffr demo_name_search ["c16"] demo_frame
  = (inr tt,
     Frame (fr_globals demo_frame) (fr_locals demo_frame)
       (fr_canvas demo_frame
        ++ (l ← [Q2Qc 1];
            figure (fun _ => demo_pattern)
              [VStr "royalblue"; VStr "olivedrab"] l ["c16"] "c16"))).
Proof.
  apply (plot_diffr_draws demo_name_search (fun _ _ => demo_pattern)
           {[ Q2Qc 1 := {[ "c16" := demo_pattern ]} ]} "D2B_BananaTheta"
           [VStr "royalblue"; VStr "olivedrab"] ["c16"] "c16" [Q2Qc 1]
           demo_frame).
  - vm_compute. reflexivity.
  - vm_compute. reflexivity.
  - vm_compute. reflexivity.
  - vm_compute. reflexivity.
  - intros l c ->%list_elem_of_singleton ->%list_elem_of_singleton.
    exists {[ "c16" := demo_pattern ]}, demo_pattern.
    split; [vm_compute; reflexivity|]. split; vm_compute; reflexivity.
  - simpl. lia.
  - reflexivity.
Defined.

(** X20: [plot_diffr] called with no crystal, while there is a wavelength
    to plot, raises UnboundLocalError for [ylabel]: the name is bound in
    the loop over the crystals only.  By then the first figure has been
    opened and its limits, scale and x label set; it is never shown, and no
    further figure is opened. *)
Theorem plot_diffr_no_crystals {Data}
    (name_search : string -> Data -> exn + pattern)
    l ls (fr : frame Data) :
  fr_globals fr !! "lambda0s" = Some (VSeq (l :: ls)) ->
  plot_diffr name_search [] fr
  = (inl (UnboundLocalError "ylabel"),
     Frame (fr_globals fr) (fr_locals fr)
       (fr_canvas fr
        ++ [ CallSubplots; CallSetXlim; CallSetYlim; CallSetYscale;
             CallSetXlabel ])).
Proof. apply plot_diffr_nothing. Qed.

Lemma plot_diffr_no_crystals_witness :
  plot_diffr demo_name_search [] demo_frame
  = (inl (UnboundLocalError "ylabel"),
     Frame (fr_globals demo_frame) (fr_locals demo_frame)
       (fr_canvas demo_frame
        ++ [ CallSubplots; CallSetXlim; CallSetYlim; CallSetYscale;
             CallSetXlabel ])).
Proof.
  apply (plot_diffr_no_crystals demo_name_search (VFloat (Q2Qc 1)) []
           demo_frame).
  vm_compute. reflexivity.
Defined.

(** X21: a crystal that [results] has no dataset for, under the first
    wavelength, makes [plot_diffr] raise KeyError with the crystal's name.
    The first figure has been opened and holds the curves of the crystals
    listed before it; nothing else is drawn. *)
Theorem plot_diffr_missing_dataset {Data}
    (name_search : string -> Data -> exn + pattern)
    (pat : string -> pattern) r n cols l ls inner pre c post
    (fr : frame Data) :
  fr_globals fr !! "lambda0s" = Some (VSeq (VFloat l :: ls)) ->
  fr_globals fr !! "results" = Some (VResults r) ->
  fr_globals fr !! "instrument_name" = Some (VStr n) ->
  fr_globals fr !! "colors" = Some (VSeq cols) ->
  r !! l = Some inner ->
  (forall c', c' ∈ pre ->
     exists d, inner !! c' = Some d /\ name_search n d = inr (pat c')) ->
  length pre <= length cols ->
  inner !! c = None ->
  plot_diffr name_search (pre ++ c :: post) fr
  = (inl (KeyError c),
     Frame (fr_globals fr) (fr_locals fr)
       (fr_canvas fr ++ [CallSubplots] ++ curves pat cols pre)).
Proof.
  intros Hls Hres Hname Hcols Hr Hgood Hlen Hc.
  apply (plot_diffr_stops name_search pat r n cols l ls inner); try done.
  intros fr' Hfr'. by eapply plot_sample_no_dataset.
Qed.

Lemma plot_diffr_missing_dataset_witness :
  plot_diffr demo_name_search (["c16"] ++ "c15b1" :: ["c14b2a"]) demo_frame
  = (inl (KeyError "c15b1"),
     Frame (fr_globals demo_frame) (fr_locals demo_frame)
       (fr_canvas demo_frame ++ [CallSubplots]
        ++ curves (fun _ => demo_pattern)
             [VStr "royalblue"; VStr "olivedrab"] ["c16"])).
Proof.
  apply (plot_diffr_missing_dataset demo_name_search (fun _ => demo_pattern)
           {[ Q2Qc 1 := {[ "c16" := demo_pattern ]} ]} "D2B_BananaTheta"
           [VStr "royalblue"; VStr "olivedrab"] (Q2Qc 1) []
           {[ "c16" := demo_pattern ]} ["c16"] "c15b1" ["c14b2a"]
           demo_frame).
  - vm_compute. reflexivity.
  - vm_compute. reflexivity.
  - vm_compute. reflexivity.
  - vm_compute. reflexivity.
  - vm_compute. reflexivity.
  - intros c' ->%list_elem_of_singleton. exists demo_pattern.
    split; vm_compute; reflexivity.
  - simpl. lia.
  - vm_compute. reflexivity.
Defined.

(** X22: with more crystals than [colors] has entries, [plot_diffr] raises
    IndexError at the first crystal without a colour: the first figure
    holds the curves of the crystals that have one, and nothing else is
    drawn. *)
Theorem plot_diffr_too_many_crystals {Data}
    (name_search : string -> Data -> exn + pattern)
    (pat : string -> pattern) r n cols l ls inner pre c post
    (fr : frame Data) :
  fr_globals fr !! "lambda0s" = Some (VSeq (VFloat l :: ls)) ->
  fr_globals fr !! "results" = Some (VResults r) ->
  fr_globals fr !! "instrument_name" = Some (VStr n) ->
  fr_globals fr !! "colors" = Some (VSeq cols) ->
  r !! l = Some inner ->
  (forall c', c' ∈ pre ++ [c] ->
     exists d, inner !! c' = Some d /\ name_search n d = inr (pat c')) ->
  length pre = length cols ->
  plot_diffr name_search (pre ++ c :: post) fr
  = (inl IndexError,
     Frame (fr_globals fr) (fr_locals fr)
       (fr_canvas fr ++ [CallSubplots] ++ curves pat cols pre)).
Proof.
  intros Hls Hres Hname Hcols Hr Hgood Hlen.
  apply (plot_diffr_stops name_search pat r n cols l ls inner); try done.
  - intros c' Hc'. apply Hgood. set_solver.
  - lia.
  - intros fr' Hfr'. destruct (Hgood c) as (d & Hd & Hp); [set_solver|].
    eapply plot_sample_no_color; try done.
    apply lookup_ge_None. lia.
Qed.

Lemma plot_diffr_too_many_crystals_witness :
  plot_diffr demo_name_search (["c16"; "c16"] ++ "c16" :: []) demo_frame
  = (inl IndexError,
     Frame (fr_globals demo_frame) (fr_locals demo_frame)
       (fr_canvas demo_frame ++ [CallSubplots]
        ++ curves (fun _ => demo_pattern)
             [VStr "royalblue"; VStr "olivedrab"] ["c16"; "c16"])).
Proof.
  apply (plot_diffr_too_many_crystals demo_name_search
           (fun _ => demo_pattern)
           {[ Q2Qc 1 := {[ "c16" := demo_pattern ]} ]} "D2B_BananaTheta"
           [VStr "royalblue"; VStr "olivedrab"] (Q2Qc 1) []
           {[ "c16" := demo_pattern ]} ["c16"; "c16"] "c16" []
           demo_frame).
  - vm_compute. reflexivity.
  - vm_compute. reflexivity.
  - vm_compute. reflexivity.
  - vm_compute. reflexivity.
  - vm_compute. reflexivity.
  - intros c' Hc'. exists demo_pattern.
    assert (c' = "c16") as -> by set_solver.
    split; vm_compute; reflexivity.
  - reflexivity.
Defined.
